(** * ssg/build_yaml.py: the SHORTHAND compiler of the compliance content

    A shallow embedding of [src/ssg/build_yaml.py]: the entity model
    (Profile, Value, Benchmark, Group, Rule), the closed-schema descriptor
    parsers ([from_yaml]), the XML rendering ([to_xml_element]) and the
    directory assembler ([add_from_directory]).

    Conventions of the embedding.
    - A Python [str] is a [string]; a character is a code point below 256.
    - A loaded YAML document is a value of [yaml]; mappings keep their
      insertion order (association lists), as Python dictionaries do.
      YAML floats and timestamps are outside the model.
    - An exception is a value of [exn]; code that may raise returns
      [result]; code that also mutates objects, prints or looks at the file
      system runs in the monad [M] over an explicit [state].
    - Objects that the source mutates through aliases (Benchmark, Group,
      Rule) live in a store and are named by references.
    - Modules of the repository that are not part of this file's source
      ([ssg.yaml], [ssg.checks], [ssg.rules], [ssg.constants], [ssg.xml]) and
      the operating system are collected in the class [Externals]. *)

From Stdlib Require Import ZArith Lia Ascii String List Bool.
From stdpp Require Import base list strings pretty.

Set Default Proof Using "Type".
Set Warnings "-register-all".
Local Open Scope Z_scope.

(** ** Python strings *)

Module Py.

Definition chr_eqb (a b : ascii) : bool := Ascii.eqb a b.

(** [s[:n]] and [s[n:]] for [0 <= n]. *)
Fixpoint take (n : nat) (s : string) : string :=
  match n, s with
  | S n', String c r => String c (take n' r)
  | _, _ => EmptyString
  end.

Fixpoint drop (n : nat) (s : string) : string :=
  match n, s with
  | S n', String _ r => drop n' r
  | _, _ => s
  end.

(** [s.startswith(p)] and [s.endswith(p)]. *)
Definition startswith (s p : string) : bool := String.prefix p s.

Definition endswith (s p : string) : bool :=
  String.eqb (drop (String.length s - String.length p) s) p
  && (String.length p <=? String.length s)%nat.

(** [c in s] for a one-character string [c]. *)
Fixpoint contains (c : ascii) (s : string) : bool :=
  match s with
  | EmptyString => false
  | String a r => chr_eqb a c || contains c r
  end.

(** [s.find(c)] and [s.rfind(c)]: an index, or [-1]. *)
Fixpoint find (c : ascii) (s : string) : Z :=
  match s with
  | EmptyString => -1
  | String a r =>
      if chr_eqb a c then 0
      else let i := find c r in if i <? 0 then -1 else i + 1
  end.

Fixpoint rfind (c : ascii) (s : string) : Z :=
  match s with
  | EmptyString => -1
  | String a r =>
      let i := rfind c r in
      if 0 <=? i then i + 1 else if chr_eqb a c then 0 else -1
  end.

(** [s.split(sep)] for a one-character separator. *)
Fixpoint split (sep : ascii) (s : string) : list string :=
  match s with
  | EmptyString => [EmptyString]
  | String a r =>
      if chr_eqb a sep then EmptyString :: split sep r
      else match split sep r with
           | h :: t => String a h :: t
           | [] => [String a EmptyString]
           end
  end.

(** [s.split(sep, maxsplit)]. *)
Fixpoint split_max (sep : ascii) (maxsplit : nat) (s : string) : list string :=
  match maxsplit with
  | O => [s]
  | S m =>
      match s with
      | EmptyString => [EmptyString]
      | String a r =>
          if chr_eqb a sep then EmptyString :: split_max sep m r
          else match split_max sep maxsplit r with
               | h :: t => String a h :: t
               | [] => [String a EmptyString]
               end
      end
  end.

(** [c.isspace()] on code points below 256. *)
Definition isspace (c : ascii) : bool :=
  let n := nat_of_ascii c in
  ((9 <=? n) && (n <=? 13) || (28 <=? n) && (n <=? 32)
   || (n =? 133) || (n =? 160))%nat.

Fixpoint lstrip (s : string) : string :=
  match s with
  | String c r => if isspace c then lstrip r else s
  | EmptyString => EmptyString
  end.

Fixpoint rstrip (s : string) : string :=
  match s with
  | EmptyString => EmptyString
  | String c r =>
      match rstrip r with
      | EmptyString => if isspace c then EmptyString else String c EmptyString
      | r' => String c r'
      end
  end.

(** [s.strip()]. *)
Definition strip (s : string) : string := rstrip (lstrip s).

(** [s.rstrip(c)] for a one-character set. *)
Fixpoint rstrip_chr (c : ascii) (s : string) : string :=
  match s with
  | EmptyString => EmptyString
  | String a r =>
      match rstrip_chr c r with
      | EmptyString => if chr_eqb a c then EmptyString else String a EmptyString
      | r' => String a r'
      end
  end.

(** [c.lower()] on code points below 256: A-Z and the Latin-1 capitals. *)
Definition lower_chr (c : ascii) : ascii :=
  let n := nat_of_ascii c in
  if ((65 <=? n) && (n <=? 90)
      || (192 <=? n) && (n <=? 222) && negb (n =? 215))%nat
  then ascii_of_nat (n + 32) else c.

Fixpoint lower (s : string) : string :=
  match s with
  | EmptyString => EmptyString
  | String c r => String (lower_chr c) (lower r)
  end.

(** [c * n]. *)
Fixpoint repeat_chr (c : ascii) (n : nat) : string :=
  match n with
  | O => EmptyString
  | S n' => String c (repeat_chr c n')
  end.

End Py.

(** ** os.path (posixpath) *)

Module os_path.

Definition sep : ascii := "/"%char.
Definition extsep : ascii := "."%char.

(** [os.path.join(a, b)]. *)
Definition join (a b : string) : string :=
  if Py.startswith b "/" then b
  else if String.eqb a "" || Py.endswith a "/" then a +:+ b
  else a +:+ "/" +:+ b.

(** [os.path.basename(p)]: [i = p.rfind('/') + 1; return p[i:]]. *)
Definition basename (p : string) : string :=
  let i := Py.rfind sep p + 1 in
  Py.drop (Z.to_nat i) p.

(** [os.path.dirname(p)]. *)
Definition dirname (p : string) : string :=
  let i := Py.rfind sep p + 1 in
  let head := Py.take (Z.to_nat i) p in
  if negb (String.eqb head "")
     && negb (String.eqb head (Py.repeat_chr sep (String.length head)))
  then Py.rstrip_chr sep head
  else head.

(** The loop of [genericpath._splitext] that skips the leading dots of
    the file name: is there a character other than a dot at an index in
    [filenameIndex, dotIndex)? *)
Fixpoint has_non_dot (p : string) (filenameIndex count : nat) : bool :=
  match count with
  | O => false
  | S count' =>
      if negb (String.eqb (Py.take 1 (Py.drop filenameIndex p)) ".")
      then true
      else has_non_dot p (S filenameIndex) count'
  end.

(** [os.path.splitext(p)]. *)
Definition splitext (p : string) : string * string :=
  let sepIndex := Py.rfind sep p in
  let dotIndex := Py.rfind extsep p in
  if (sepIndex <? dotIndex)
     && has_non_dot p (Z.to_nat (sepIndex + 1))
          (Z.to_nat (dotIndex - (sepIndex + 1)))
  then (Py.take (Z.to_nat dotIndex) p, Py.drop (Z.to_nat dotIndex) p)
  else (p, EmptyString).

End os_path.

(** ** YAML values, exceptions, results *)

(** What the YAML loader hands over: Python's [None], [bool], [int], [str],
    [list] and [dict]. *)
Inductive yaml : Type :=
| YNull
| YBool (b : bool)
| YInt (n : Z)
| YStr (s : string)
| YList (l : list yaml)
| YDict (d : list (yaml * yaml)).

Abbreviation ydict := (list (yaml * yaml)).

(** A dictionary with [str] keys, in insertion order. *)
Abbreviation sdict A := (list (string * A)).

(** The text of an exception: a format string of the source with its
    arguments. *)
Inductive message : Type :=
| MissingRequiredKey (key : string) (doc : ydict)
| UnparsedYAML (yaml_file : string) (yaml_contents : ydict)
| InvalidOperator (operator : yaml) (yaml_file : string)
| WarningNotOnePair
| EmptyIdentifierSection (yaml_file : string)
| IdentifiersNotStrings (ident_type : yaml) (yaml_file : string)
| IdentifierEmpty (ident_type : yaml) (yaml_file : string)
| InvalidCCE (ident_val ident_type : yaml) (yaml_file : string)
| EmptyReferencesSection (yaml_file : string)
| ReferencesNotStrings (ref_type : yaml) (yaml_file : string)
| ReferenceEmpty (ref_type : yaml) (yaml_file : string)
| UnsupportedPlatform (platform : yaml) (id_ : string)
| AddSubElementError (parent_tag : string) (ustr : string)
| BenchmarkAndGroup (guide_directory : string)
| MultipleBenchmarks
| MultipleGroups
| UnpackMismatch (expected got : nat).

Inductive exn : Type :=
| ValueError (msg : message)
| RuntimeError (msg : message)
| KeyError (key : yaml)
| TypeError
| AttributeError
| IndexError
| RecursionError
| NotImplementedError
| ExternalError (what : string)
| Dangling (r : nat).

Inductive result (A : Type) : Type :=
| Ok (a : A)
| Raise (e : exn).
Arguments Ok {A} a.
Arguments Raise {A} e.

#[global] Instance result_ret : MRet result := fun A a => Ok a.
#[global] Instance result_bind : MBind result := fun A B f m =>
  match m with
  | Ok a => f a
  | Raise e => Raise e
  end.

Definition is_ok {A} (r : result A) : bool :=
  match r with Ok _ => true | Raise _ => false end.

(** A [for] loop whose body may raise, threading the loop's variables. *)
Fixpoint for_each {A S : Type} (body : S → A → result S) (s : S) (l : list A)
  : result S :=
  match l with
  | [] => Ok s
  | x :: l' => s' ← body s x; for_each body s' l'
  end.

(** ** Python values *)

(** Truth value of [if v:]. *)
Definition truthy (v : yaml) : bool :=
  match v with
  | YNull => false
  | YBool b => b
  | YInt n => negb (n =? 0)
  | YStr s => negb (String.eqb s "")
  | YList l => match l with [] => false | _ => true end
  | YDict d => match d with [] => false | _ => true end
  end.

(** [v == s] for a string literal [s]. *)
Definition eq_str (v : yaml) (s : string) : bool :=
  match v with
  | YStr s' => String.eqb s' s
  | _ => false
  end.

(** [v in l] for a list [l] of string literals. *)
Definition in_strs (v : yaml) (l : list string) : bool :=
  existsb (eq_str v) l.

Fixpoint chars (s : string) : list yaml :=
  match s with
  | EmptyString => []
  | String c r => YStr (String c EmptyString) :: chars r
  end.

(** The items a [for x in v] loop goes through. *)
Definition iter (v : yaml) : result (list yaml) :=
  match v with
  | YList l => Ok l
  | YDict d => Ok (map fst d)
  | YStr s => Ok (chars s)
  | _ => Raise TypeError
  end.

(** [len(v)]. *)
Definition len (v : yaml) : result nat :=
  match v with
  | YList l => Ok (length l)
  | YDict d => Ok (length d)
  | YStr s => Ok (String.length s)
  | _ => Raise TypeError
  end.

(** [v.items()]. *)
Definition items (v : yaml) : result ydict :=
  match v with
  | YDict d => Ok d
  | _ => Raise AttributeError
  end.

(** [v.lower()]. *)
Definition lower (v : yaml) : result string :=
  match v with
  | YStr s => Ok (Py.lower s)
  | _ => Raise AttributeError
  end.

(** ** Dictionaries *)

Definition key_is (k : string) (e : yaml * yaml) : bool := eq_str e.1 k.

(** [d.get(k)]; [None] when absent. *)
Definition dict_get (k : string) (d : ydict) : option yaml :=
  snd <$> List.find (key_is k) d.

(** [k in d]. *)
Definition dict_mem (k : string) (d : ydict) : bool :=
  existsb (key_is k) d.

(** [del d[k]] for a key that is there. *)
Definition dict_del (k : string) (d : ydict) : ydict :=
  List.filter (fun e => negb (key_is k e)) d.

(** [d.pop(k, default)]: the value and the dictionary that is left. *)
Definition dict_pop (k : string) (default : yaml) (d : ydict) : yaml * ydict :=
  (match dict_get k d with Some v => v | None => default end, dict_del k d).

(** [d[k] = v] on a dictionary with [str] keys: an existing key keeps its
    place, a new key goes last. *)
Fixpoint sdict_set {A} (k : string) (v : A) (d : sdict A) : sdict A :=
  match d with
  | [] => [(k, v)]
  | (k', v') :: d' =>
      if String.eqb k' k then (k, v) :: d' else (k', v') :: sdict_set k v d'
  end.

Fixpoint sdict_get {A} (k : string) (d : sdict A) : option A :=
  match d with
  | [] => None
  | (k', v') :: d' => if String.eqb k' k then Some v' else sdict_get k d'
  end.

(** Modelled from the spec: [ssg.utils.required_key], whose source is not
    part of this file's input. A required field that is absent fails with
    a missing-key error; one that is present is returned. *)
Definition required_key (_dict : ydict) (_key : string) : result yaml :=
  match dict_get _key _dict with
  | Some v => Ok v
  | None => Raise (ValueError (MissingRequiredKey _key _dict))
  end.

(** ** XML elements (xml.etree.ElementTree) *)

Inductive element : Type :=
| Element (tag : string) (attrib : sdict yaml) (text : option yaml)
    (children : list element).

Definition tag (e : element) : string := let 'Element t _ _ _ := e in t.
Definition attrib (e : element) : sdict yaml := let 'Element _ a _ _ := e in a.
Definition text (e : element) : option yaml := let 'Element _ _ x _ := e in x.
Definition children (e : element) : list element :=
  let 'Element _ _ _ c := e in c.

(** [ET.Element(tag)]. *)
Definition ET_Element (t : string) : element := Element t [] None [].

(** [e.set(key, value)]. *)
Definition ET_set (key : string) (value : yaml) (e : element) : element :=
  let 'Element t a x c := e in Element t (sdict_set key value a) x c.

(** [e.text = value]. *)
Definition ET_set_text (value : yaml) (e : element) : element :=
  let 'Element t a _ c := e in Element t a (Some value) c.

(** [parent.append(child)]. *)
Definition ET_append (child : element) (parent : element) : element :=
  let 'Element t a x c := parent in Element t a x (c ++ [child]).

(** [ET.SubElement(parent, tag)]: the new child is the last child of
    [parent]; the name the source binds to it is an alias of that child. *)
Definition ET_SubElement (t : string) (parent : element) : element :=
  ET_append (ET_Element t) parent.

(** A mutation of the child most recently appended, through its alias. *)
Definition on_last (f : element → element) (parent : element) : element :=
  let 'Element t a x c := parent in
  match List.rev c with
  | [] => parent
  | l :: before => Element t a x (List.rev before ++ [f l])
  end.

(** ** What the source imports *)

(** What a call of [ElementTree.write] comes to. The file is opened for
    writing, which empties it, and the tree is serialised into it piece
    by piece; a text or an attribute that is not a string stops the
    serialisation with a [TypeError] when part of the tree is written. A
    file that cannot be opened is left as it was. *)
Inductive write_outcome : Type :=
| Written
| Broken (e : exn)
| Refused (e : exn).

(** What a file holds after a write of the tree [root]: all of it, or
    what was written when the write broke off. *)
Inductive file_content : Type :=
| Whole (root : element)
| Part (root : element).

(** The collaborators of [build_yaml.py] whose source is elsewhere: the
    YAML loaders of [ssg.yaml] (a mapping, or [None]), the CCE checker of
    [ssg.checks], the rule-directory helpers of [ssg.rules], the tables of
    [ssg.constants], the XML parser and writer, Python's [str()], and the
    file system. *)
Class Externals : Type := {
  open_and_expand : string → yaml → result (option ydict);
  open_and_macro_expand : string → yaml → result (option ydict);
  is_cce_valid : string → bool;
  get_rule_dir_id : string → string;
  get_rule_dir_yaml : string → string;
  is_rule_dir : string → bool;
  XCCDF_PLATFORM_TO_CPE : sdict string;
  PRODUCT_TO_CPE_MAPPING : sdict (list string);
  ET_fromstring : string → option element;
  ET_parse : string → result element;
  ET_write : string → element → write_outcome;
  str : yaml → string;
  os_listdir : string → result (list string);
  os_path_isdir : string → bool;
  os_path_isfile : string → bool;
  today : string;
}.

(** ** The entity model *)

Module Profile.
Record t : Type := mk {
  id_ : string;
  title : yaml;
  description : yaml;
  extends : yaml;
  selections : yaml;
}.
End Profile.

Module Value.
Record t : Type := mk {
  id_ : string;
  title : yaml;
  description : yaml;
  type_ : yaml;
  operator : yaml;
  interactive : bool;
  options : yaml;
  warnings : yaml;
}.

(** [Value.__init__]. *)
Definition init (id_ : string) : t :=
  mk id_ (YStr "") (YStr "") (YStr "string") (YStr "equals") false
    (YDict []) (YList []).
End Value.

Module Rule.
Record t : Type := mk {
  id_ : string;
  prodtype : yaml;
  title : yaml;
  description : yaml;
  rationale : yaml;
  severity : yaml;
  references : yaml;
  identifiers : yaml;
  ocil_clause : yaml;
  ocil : yaml;
  external_oval : yaml;
  warnings : yaml;
  platform : yaml;
}.

(** [rule.platform = p]. *)
Definition set_platform (p : yaml) (r : t) : t :=
  mk (id_ r) (prodtype r) (title r) (description r) (rationale r)
    (severity r) (references r) (identifiers r) (ocil_clause r) (ocil r)
    (external_oval r) (warnings r) p.
End Rule.

(** A reference to an object of the store. *)
Definition ref : Type := nat.

Module Group.
Record t : Type := mk {
  id_ : string;
  prodtype : yaml;
  title : yaml;
  description : yaml;
  warnings : yaml;
  values : sdict Value.t;
  groups : sdict ref;
  rules : sdict ref;
  platform : yaml;
}.

Definition set_platform (p : yaml) (g : t) : t :=
  mk (id_ g) (prodtype g) (title g) (description g) (warnings g)
    (values g) (groups g) (rules g) p.
Definition set_values (v : sdict Value.t) (g : t) : t :=
  mk (id_ g) (prodtype g) (title g) (description g) (warnings g)
    v (groups g) (rules g) (platform g).
Definition set_groups (v : sdict ref) (g : t) : t :=
  mk (id_ g) (prodtype g) (title g) (description g) (warnings g)
    (values g) v (rules g) (platform g).
Definition set_rules (v : sdict ref) (g : t) : t :=
  mk (id_ g) (prodtype g) (title g) (description g) (warnings g)
    (values g) (groups g) v (platform g).
End Group.

Module Benchmark.
Record t : Type := mk {
  id_ : string;
  title : yaml;
  status : yaml;
  description : yaml;
  notice_id : yaml;
  notice_description : yaml;
  front_matter : yaml;
  rear_matter : yaml;
  cpes : list string;
  version : yaml;
  profiles : list (option Profile.t);
  values : sdict Value.t;
  bash_remediation_fns_group : option element;
  groups : sdict ref;
  rules : sdict ref;
}.

Definition set_values (v : sdict Value.t) (b : t) : t :=
  mk (id_ b) (title b) (status b) (description b) (notice_id b)
    (notice_description b) (front_matter b) (rear_matter b) (cpes b)
    (version b) (profiles b) v (bash_remediation_fns_group b) (groups b)
    (rules b).
Definition set_groups (v : sdict ref) (b : t) : t :=
  mk (id_ b) (title b) (status b) (description b) (notice_id b)
    (notice_description b) (front_matter b) (rear_matter b) (cpes b)
    (version b) (profiles b) (values b) (bash_remediation_fns_group b) v
    (rules b).
Definition set_rules (v : sdict ref) (b : t) : t :=
  mk (id_ b) (title b) (status b) (description b) (notice_id b)
    (notice_description b) (front_matter b) (rear_matter b) (cpes b)
    (version b) (profiles b) (values b) (bash_remediation_fns_group b)
    (groups b) v.
Definition set_profiles (v : list (option Profile.t)) (b : t) : t :=
  mk (id_ b) (title b) (status b) (description b) (notice_id b)
    (notice_description b) (front_matter b) (rear_matter b) (cpes b)
    (version b) v (values b) (bash_remediation_fns_group b) (groups b)
    (rules b).
Definition set_bash_remediation_fns_group (v : option element) (b : t) : t :=
  mk (id_ b) (title b) (status b) (description b) (notice_id b)
    (notice_description b) (front_matter b) (rear_matter b) (cpes b)
    (version b) (profiles b) (values b) v (groups b) (rules b).
End Benchmark.

Section build_yaml.
Context {E : Externals}.

(** [PRODUCT_TO_CPE_MAPPING[v]] and [XCCDF_PLATFORM_TO_CPE[v]]: a lookup in
    a table with [str] keys; a key of another hashable type is not there,
    a list or a mapping cannot be hashed. *)
Definition table_lookup {A} (table : sdict A) (v : yaml) : result A :=
  match v with
  | YStr s =>
      match sdict_get s table with
      | Some a => Ok a
      | None => Raise (KeyError v)
      end
  | YList _ | YDict _ => Raise TypeError
  | _ => Raise (KeyError v)
  end.

(** [v[k]] for a string literal [k]. *)
Definition getitem (v : yaml) (k : string) : result yaml :=
  match v with
  | YDict d =>
      match dict_get k d with
      | Some x => Ok x
      | None => Raise (KeyError (YStr k))
      end
  | _ => Raise TypeError
  end.

(** [a, b = l]. *)
Definition unpack2 (l : list string) : result (string * string) :=
  match l with
  | [a; b] => Ok (a, b)
  | _ => Raise (ValueError (UnpackMismatch 2 (length l)))
  end.

(** [add_sub_element(parent, tag, data)]: the child is parsed from
    ["<tag>data</tag>"] and appended; the element returned by the source
    is the last child of the parent returned here. *)
Definition add_sub_element (parent : element) (tag_ : string) (data : yaml)
  : result element :=
  let ustr := "<" +:+ tag_ +:+ ">" +:+ str data +:+ "</" +:+ tag_ +:+ ">" in
  match ET_fromstring ustr with
  | None => Raise (RuntimeError (AddSubElementError (tag parent) ustr))
  | Some element => Ok (ET_append element parent)
  end.

(** [list(d.values())[0]] and [list(d.keys())[0]]. *)
Definition first_value (warning_dict : yaml) : result yaml :=
  match warning_dict with
  | YDict ((_, v) :: _) => Ok v
  | YDict [] => Raise IndexError
  | _ => Raise AttributeError
  end.

Definition first_key (warning_dict : yaml) : result yaml :=
  match warning_dict with
  | YDict ((k, _) :: _) => Ok k
  | YDict [] => Raise IndexError
  | _ => Raise AttributeError
  end.

(** [add_warning_elements(element, warnings)]. *)
Definition add_warning_elements (element_ : element) (warnings : yaml)
  : result element :=
  ws ← iter warnings;
  for_each (fun element_ warning_dict =>
      data ← first_value warning_dict;
      element_ ← add_sub_element element_ "warning" data;
      category ← first_key warning_dict;
      Ok (on_last (ET_set "category" category) element_))
    element_ ws.

(** The loop that [Value.from_yaml], [Group.from_yaml] and [Rule.from_yaml]
    each run over their warnings. *)
Definition check_warnings (warnings : yaml) : result unit :=
  ws ← iter warnings;
  for_each (fun _ warning_list =>
      n ← len warning_list;
      if negb (n =? 1)%nat then Raise (ValueError WarningNotOnePair)
      else Ok tt)
    tt ws.

(** ** Profile *)

(** [Profile.from_yaml(yaml_file, env_yaml)]. *)
Definition Profile_from_yaml (yaml_file : string) (env_yaml : yaml)
  : result (option Profile.t) :=
  yaml_contents ← open_and_expand yaml_file env_yaml;
  match yaml_contents with
  | None => Ok None
  | Some yaml_contents =>
      let basename := (os_path.splitext (os_path.basename yaml_file)).1 in
      title ← required_key yaml_contents "title";
      let yaml_contents := dict_del "title" yaml_contents in
      description ← required_key yaml_contents "description";
      let yaml_contents := dict_del "description" yaml_contents in
      let '(extends, yaml_contents) := dict_pop "extends" YNull yaml_contents in
      selections ← required_key yaml_contents "selections";
      let yaml_contents := dict_del "selections" yaml_contents in
      if truthy (YDict yaml_contents)
      then Raise (RuntimeError (UnparsedYAML yaml_file yaml_contents))
      else Ok (Some (Profile.mk basename title description extends selections))
  end.

(** The body of the loop of [Profile.to_xml_element]: the directive of
    one selection. *)
Definition selection_element (selection : yaml) : result element :=
  match selection with
  | YStr selection =>
      if Py.startswith selection "!" then
        let unselect := ET_Element "select" in
        let unselect := ET_set "idref" (YStr (Py.drop 1 selection)) unselect in
        let unselect := ET_set "selected" (YStr "false") unselect in
        Ok unselect
      else if Py.contains "=" selection then
        let refine_value := ET_Element "refine-value" in
        '(value_id, selector) ← unpack2 (Py.split_max "=" 1 selection);
        let refine_value := ET_set "idref" (YStr value_id) refine_value in
        let refine_value := ET_set "selector" (YStr selector) refine_value in
        Ok refine_value
      else
        let select := ET_Element "select" in
        let select := ET_set "idref" (YStr selection) select in
        let select := ET_set "selected" (YStr "true") select in
        Ok select
  | _ => Raise AttributeError
  end.

(** [Profile.to_xml_element(self)]. *)
Definition Profile_to_xml_element (self : Profile.t) : result element :=
  let element_ := ET_Element "Profile" in
  let element_ := ET_set "id" (YStr (Profile.id_ self)) element_ in
  let element_ :=
    if truthy (Profile.extends self)
    then ET_set "extends" (Profile.extends self) element_ else element_ in
  element_ ← add_sub_element element_ "title" (Profile.title self);
  let element_ := on_last (ET_set "override" (YStr "true")) element_ in
  element_ ← add_sub_element element_ "description" (Profile.description self);
  let element_ := on_last (ET_set "override" (YStr "true")) element_ in
  selections ← iter (Profile.selections self);
  for_each (fun element_ selection =>
      directive ← selection_element selection;
      Ok (ET_append directive element_))
    element_ selections.

(** ** Value *)

Definition possible_operators : list string :=
  ["equals"; "not equal"; "greater than"; "less than";
   "greater than or equal"; "less than or equal"; "pattern match"].

(** [Value.from_yaml(yaml_file, env_yaml)]. *)
Definition Value_from_yaml (yaml_file : string) (env_yaml : yaml)
  : result (option Value.t) :=
  yaml_contents ← open_and_expand yaml_file env_yaml;
  match yaml_contents with
  | None => Ok None
  | Some yaml_contents =>
      let value_id := (os_path.splitext (os_path.basename yaml_file)).1 in
      title ← required_key yaml_contents "title";
      let yaml_contents := dict_del "title" yaml_contents in
      description ← required_key yaml_contents "description";
      let yaml_contents := dict_del "description" yaml_contents in
      type_ ← required_key yaml_contents "type";
      let yaml_contents := dict_del "type" yaml_contents in
      let '(operator, yaml_contents) :=
        dict_pop "operator" (YStr "equals") yaml_contents in
      if negb (in_strs operator possible_operators)
      then Raise (ValueError (InvalidOperator operator yaml_file))
      else
        let '(interactive, yaml_contents) :=
          dict_pop "interactive" (YStr "false") yaml_contents in
        interactive ← lower interactive;
        let interactive := String.eqb interactive "true" in
        options ← required_key yaml_contents "options";
        let yaml_contents := dict_del "options" yaml_contents in
        let '(warnings, yaml_contents) :=
          dict_pop "warnings" (YList []) yaml_contents in
        _ ← check_warnings warnings;
        if truthy (YDict yaml_contents)
        then Raise (RuntimeError (UnparsedYAML yaml_file yaml_contents))
        else Ok (Some (Value.mk value_id title description type_ operator
                         interactive options warnings))
  end.

(** [Value.to_xml_element(self)]. *)
Definition Value_to_xml_element (self : Value.t) : result element :=
  let value := ET_Element "Value" in
  let value := ET_set "id" (YStr (Value.id_ self)) value in
  let value := ET_set "type" (Value.type_ self) value in
  let value :=
    if negb (eq_str (Value.operator self) "equals")
    then ET_set "operator" (Value.operator self) value else value in
  let value :=
    if Value.interactive self
    then ET_set "interactive" (YStr "true") value else value in
  let value := ET_SubElement "title" value in
  let value := on_last (ET_set_text (Value.title self)) value in
  value ← add_sub_element value "description" (Value.description self);
  value ← add_warning_elements value (Value.warnings self);
  options ← items (Value.options self);
  for_each (fun value '(selector, option_) =>
      let value := ET_SubElement "value" value in
      let value :=
        if negb (eq_str selector "default")
        then on_last (ET_set "selector" (YStr (str selector))) value
        else value in
      Ok (on_last (ET_set_text (YStr (str option_))) value))
    value options.

(** ** Rule *)

(** [Rule.validate_identifiers(self, yaml_file)]. *)
Definition Rule_validate_identifiers (self : Rule.t) (yaml_file : string)
  : result unit :=
  match Rule.identifiers self with
  | YNull => Raise (ValueError (EmptyIdentifierSection yaml_file))
  | identifiers =>
      identifiers ← items identifiers;
      for_each (fun _ '(ident_type, ident_val) =>
          match ident_type, ident_val with
          | YStr ident_type_s, YStr ident_val_s =>
              if String.eqb (Py.strip ident_val_s) ""
              then Raise (ValueError (IdentifierEmpty ident_type yaml_file))
              else if String.eqb (Py.take 3 ident_type_s) "cce"
                      && negb (is_cce_valid ("CCE-" +:+ ident_val_s))
              then Raise (ValueError
                            (InvalidCCE ident_val ident_type yaml_file))
              else Ok tt
          | _, _ =>
              Raise (ValueError (IdentifiersNotStrings ident_type yaml_file))
          end)
        tt identifiers
  end.

(** [Rule.validate_references(self, yaml_file)]. *)
Definition Rule_validate_references (self : Rule.t) (yaml_file : string)
  : result unit :=
  match Rule.references self with
  | YNull => Raise (ValueError (EmptyReferencesSection yaml_file))
  | references =>
      references ← items references;
      for_each (fun _ '(ref_type, ref_val) =>
          match ref_type, ref_val with
          | YStr _, YStr ref_val_s =>
              if String.eqb (Py.strip ref_val_s) ""
              then Raise (ValueError (ReferenceEmpty ref_type yaml_file))
              else Ok tt
          | _, _ =>
              Raise (ValueError (ReferencesNotStrings ref_type yaml_file))
          end)
        tt references
  end.

(** [Rule.from_yaml(yaml_file, env_yaml)]. *)
Definition Rule_from_yaml (yaml_file : string) (env_yaml : yaml)
  : result (option Rule.t) :=
  yaml_contents ← open_and_macro_expand yaml_file env_yaml;
  match yaml_contents with
  | None => Ok None
  | Some yaml_contents =>
      let '(rule_id, ext) := os_path.splitext (os_path.basename yaml_file) in
      let rule_id :=
        if String.eqb rule_id "rule" && String.eqb ext ".yml"
        then get_rule_dir_id yaml_file else rule_id in
      let '(prodtype, yaml_contents) :=
        dict_pop "prodtype" (YStr "all") yaml_contents in
      title ← required_key yaml_contents "title";
      let yaml_contents := dict_del "title" yaml_contents in
      description ← required_key yaml_contents "description";
      let yaml_contents := dict_del "description" yaml_contents in
      rationale ← required_key yaml_contents "rationale";
      let yaml_contents := dict_del "rationale" yaml_contents in
      severity ← required_key yaml_contents "severity";
      let yaml_contents := dict_del "severity" yaml_contents in
      let '(references, yaml_contents) :=
        dict_pop "references" (YDict []) yaml_contents in
      let '(identifiers, yaml_contents) :=
        dict_pop "identifiers" (YDict []) yaml_contents in
      let '(ocil_clause, yaml_contents) :=
        dict_pop "ocil_clause" YNull yaml_contents in
      let '(ocil, yaml_contents) := dict_pop "ocil" YNull yaml_contents in
      let '(external_oval, yaml_contents) :=
        dict_pop "oval_external_content" YNull yaml_contents in
      let '(warnings, yaml_contents) :=
        dict_pop "warnings" (YList []) yaml_contents in
      let '(platform, yaml_contents) :=
        dict_pop "platform" YNull yaml_contents in
      _ ← check_warnings warnings;
      if truthy (YDict yaml_contents)
      then Raise (RuntimeError (UnparsedYAML yaml_file yaml_contents))
      else
        let rule :=
          Rule.mk rule_id prodtype title description rationale severity
            references identifiers ocil_clause ocil external_oval warnings
            platform in
        _ ← Rule_validate_identifiers rule yaml_file;
        _ ← Rule_validate_references rule yaml_file;
        Ok (Some rule)
  end.

(** The two loops of [Rule.to_xml_element] over the identifiers and over
    the references are the same text up to the tag: one step of either,
    on the pair of the rule element and the shared element. *)
Definition keyed_step (tag_ : string) (acc : element * element)
    (entry : yaml * yaml) : result (element * element) :=
  let '(rule, main) := acc in
  let '(type_, val) := entry in
  match type_ with
  | YStr type_ =>
      if Py.contains "@" type_ then
        '(policy, product) ← unpack2 (Py.split "@" type_);
        let rule := ET_SubElement tag_ rule in
        let rule := on_last (ET_set policy val) rule in
        let rule := on_last (ET_set "prodtype" (YStr product)) rule in
        Ok (rule, main)
      else Ok (rule, ET_set type_ val main)
  | _ => Raise TypeError
  end.

Definition keyed_elements (tag_ : string) (rule : element) (entries : yaml)
  : result element :=
  let main := ET_Element tag_ in
  entries ← items entries;
  '(rule, main) ← for_each (keyed_step tag_) (rule, main) entries;
  match attrib main with
  | [] => Ok rule
  | _ :: _ => Ok (ET_append main rule)
  end.

(** The platform element of [Rule.to_xml_element] and of
    [Group.to_xml_element]. *)
Definition platform_element (el : element) (platform : yaml) (id_ : string)
  : result element :=
  if truthy platform then
    let el := ET_SubElement "platform" el in
    platform_cpe ←
      match table_lookup XCCDF_PLATFORM_TO_CPE platform with
      | Raise (KeyError _) =>
          Raise (ValueError (UnsupportedPlatform platform id_))
      | r => r
      end;
    Ok (on_last (ET_set "idref" (YStr platform_cpe)) el)
  else Ok el.

(** [Rule.to_xml_element(self)]. *)
Definition Rule_to_xml_element (self : Rule.t) : result element :=
  let rule := ET_Element "Rule" in
  let rule := ET_set "id" (YStr (Rule.id_ self)) rule in
  let rule :=
    if negb (eq_str (Rule.prodtype self) "all")
    then ET_set "prodtype" (Rule.prodtype self) rule else rule in
  let rule := ET_set "severity" (Rule.severity self) rule in
  rule ← add_sub_element rule "title" (Rule.title self);
  rule ← add_sub_element rule "description" (Rule.description self);
  rule ← add_sub_element rule "rationale" (Rule.rationale self);
  rule ← keyed_elements "ident" rule (Rule.identifiers self);
  rule ← keyed_elements "ref" rule (Rule.references self);
  let rule :=
    if truthy (Rule.external_oval self) then
      let rule := ET_SubElement "check" rule in
      let rule :=
        on_last (ET_set "system"
                   (YStr "http://oval.mitre.org/XMLSchema/oval-definitions-5"))
          rule in
      let rule := on_last (ET_SubElement "check-content-ref") rule in
      on_last (on_last (ET_set "href" (Rule.external_oval self))) rule
    else
      let rule := ET_SubElement "oval" rule in
      on_last (ET_set "id" (YStr (Rule.id_ self))) rule in
  rule ←
    (if truthy (Rule.ocil self) || truthy (Rule.ocil_clause self) then
       rule ← add_sub_element rule "ocil"
                (if truthy (Rule.ocil self) then Rule.ocil self else YStr "");
       if truthy (Rule.ocil_clause self)
       then Ok (on_last (ET_set "clause" (Rule.ocil_clause self)) rule)
       else Ok rule
     else Ok rule);
  rule ← add_warning_elements rule (Rule.warnings self);
  platform_element rule (Rule.platform self) (Rule.id_ self).

(** ** Group and Benchmark: construction *)

(** [Group.from_yaml(yaml_file, env_yaml)]. *)
Definition Group_from_yaml (yaml_file : string) (env_yaml : yaml)
  : result (option Group.t) :=
  yaml_contents ← open_and_macro_expand yaml_file env_yaml;
  match yaml_contents with
  | None => Ok None
  | Some yaml_contents =>
      let group_id := os_path.basename (os_path.dirname yaml_file) in
      let '(prodtype, yaml_contents) :=
        dict_pop "prodtype" (YStr "all") yaml_contents in
      title ← required_key yaml_contents "title";
      let yaml_contents := dict_del "title" yaml_contents in
      description ← required_key yaml_contents "description";
      let yaml_contents := dict_del "description" yaml_contents in
      let '(warnings, yaml_contents) :=
        dict_pop "warnings" (YList []) yaml_contents in
      let '(platform, yaml_contents) :=
        dict_pop "platform" YNull yaml_contents in
      _ ← check_warnings warnings;
      if truthy (YDict yaml_contents)
      then Raise (RuntimeError (UnparsedYAML yaml_file yaml_contents))
      else Ok (Some (Group.mk group_id prodtype title description warnings
                       [] [] [] platform))
  end.

(** [Benchmark.add_value(self, value)]: only [self] is touched. *)
Definition Benchmark_add_value (self : Benchmark.t) (value : option Value.t)
  : Benchmark.t :=
  match value with
  | None => self
  | Some value =>
      Benchmark.set_values
        (sdict_set (Value.id_ value) value (Benchmark.values self)) self
  end.

(** [Group.add_value(self, value)]. *)
Definition Group_add_value (self : Group.t) (value : option Value.t)
  : Group.t :=
  match value with
  | None => self
  | Some value =>
      Group.set_values
        (sdict_set (Value.id_ value) value (Group.values self)) self
  end.

(** [Benchmark.__init__(self, id_)]. *)
Definition Benchmark_init (id_ : string) : Benchmark.t :=
  let self :=
    Benchmark.mk id_ (YStr "") (YStr "") (YStr "") (YStr "") (YStr "")
      (YStr "") (YStr "") [] (YStr "0.1") [] [] None [] [] in
  let conditional_clause :=
    Value.mk "conditional_clause"
      (YStr "A conditional clause for check statements.")
      (YStr "A conditional clause for check statements.")
      (YStr "string") (YStr "equals") false
      (YDict [(YStr "", YStr "This is a placeholder")]) (YList []) in
  Benchmark_add_value self (Some conditional_clause).

(** [d[k] = v] for a key that is there: the entry keeps its place. *)
Definition dict_update (k : string) (v : yaml) (d : ydict) : ydict :=
  map (fun e => if key_is k e then (e.1, v) else e) d.

(** [Benchmark.from_yaml(yaml_file, id_, product_yaml)]. The notice is an
    object shared with the document: what is deleted from it is gone from
    the document's entry too. A notice that is not a mapping is a
    [TypeError]. *)
Definition Benchmark_from_yaml (yaml_file : string) (id_ : string)
    (product_yaml : yaml) : result (option Benchmark.t) :=
  yaml_contents ← open_and_macro_expand yaml_file product_yaml;
  match yaml_contents with
  | None => Ok None
  | Some yaml_contents =>
      let benchmark := Benchmark_init id_ in
      title ← required_key yaml_contents "title";
      let yaml_contents := dict_del "title" yaml_contents in
      status ← required_key yaml_contents "status";
      let yaml_contents := dict_del "status" yaml_contents in
      description ← required_key yaml_contents "description";
      let yaml_contents := dict_del "description" yaml_contents in
      notice_contents ← required_key yaml_contents "notice";
      notice_contents ←
        match notice_contents with
        | YDict d => Ok d
        | _ => Raise TypeError
        end;
      notice_id ← required_key notice_contents "id";
      let notice_contents := dict_del "id" notice_contents in
      notice_description ← required_key notice_contents "description";
      let notice_contents := dict_del "description" notice_contents in
      let yaml_contents :=
        if negb (truthy (YDict notice_contents))
        then dict_del "notice" yaml_contents
        else dict_update "notice" (YDict notice_contents) yaml_contents in
      front_matter ← required_key yaml_contents "front-matter";
      let yaml_contents := dict_del "front-matter" yaml_contents in
      rear_matter ← required_key yaml_contents "rear-matter";
      let yaml_contents := dict_del "rear-matter" yaml_contents in
      version ← required_key yaml_contents "version";
      let version := YStr (str version) in
      let yaml_contents := dict_del "version" yaml_contents in
      if truthy (YDict yaml_contents)
      then Raise (RuntimeError (UnparsedYAML yaml_file yaml_contents))
      else
        cpes ←
          (if truthy product_yaml then
             product ← getitem product_yaml "product";
             table_lookup PRODUCT_TO_CPE_MAPPING product
           else Ok (Benchmark.cpes benchmark));
        Ok (Some (Benchmark.mk id_ title status description notice_id
                    notice_description front_matter rear_matter cpes version
                    (Benchmark.profiles benchmark)
                    (Benchmark.values benchmark)
                    (Benchmark.bash_remediation_fns_group benchmark)
                    (Benchmark.groups benchmark)
                    (Benchmark.rules benchmark)))
  end.

(** ** The store, and the effects of a run *)

(** The objects that are linked into the tree and mutated through it.
    Values and profiles are not mutated once built: they are held by
    value. *)
Inductive obj : Type :=
| OBenchmark (b : Benchmark.t)
| OGroup (g : Group.t)
| ORule (r : Rule.t).

(** What a run changes: the objects, the two output streams, the
    directories read by [os.listdir] (in order), and the files written. *)
Record state : Type := mkState {
  heap : list obj;
  stdout : list string;
  stderr : list string;
  listed : list string;
  files : sdict file_content;
}.

Definition M (A : Type) : Type := state → state * result A.

#[global] Instance M_ret : MRet M := fun A a st => (st, Ok a).
#[global] Instance M_bind : MBind M := fun A B f m st =>
  match m st with
  | (st', Ok a) => f a st'
  | (st', Raise e) => (st', Raise e)
  end.

Definition raise {A} (e : exn) : M A := fun st => (st, Raise e).
Definition lift {A} (r : result A) : M A := fun st => (st, r).

Definition set_heap (h : list obj) (st : state) : state :=
  mkState h (stdout st) (stderr st) (listed st) (files st).

(** [print(line)]. *)
Definition print (line : string) : M unit := fun st =>
  (mkState (heap st) (stdout st ++ [line]) (stderr st) (listed st) (files st),
   Ok tt).

(** [sys.stderr.write(text)]. *)
Definition stderr_write (text_ : string) : M unit := fun st =>
  (mkState (heap st) (stdout st) (stderr st ++ [text_]) (listed st) (files st),
   Ok tt).

(** [os.listdir(path)]. *)
Definition listdir (path : string) : M (list string) := fun st =>
  (mkState (heap st) (stdout st) (stderr st) (listed st ++ [path]) (files st),
   os_listdir path).

(** [ET.ElementTree(root).write(file_name)]: the error of a write that
    breaks off is raised once the file has been emptied and written in
    part. *)
Definition tree_write (file_name : string) (root : element) : M unit :=
  fun st =>
  match ET_write file_name root with
  | Written =>
      (mkState (heap st) (stdout st) (stderr st) (listed st)
         (sdict_set file_name (Whole root) (files st)),
       Ok tt)
  | Broken e =>
      (mkState (heap st) (stdout st) (stderr st) (listed st)
         (sdict_set file_name (Part root) (files st)),
       Raise e)
  | Refused e => (st, Raise e)
  end.

(** A new object. *)
Definition alloc (o : obj) : M ref := fun st =>
  (set_heap (heap st ++ [o]) st, Ok (length (heap st))).

Definition get_obj (r : ref) : M obj := fun st =>
  match heap st !! r with
  | Some o => (st, Ok o)
  | None => (st, Raise (Dangling r))
  end.

Definition set_obj (r : ref) (o : obj) : M unit := fun st =>
  (set_heap (<[r := o]> (heap st)) st, Ok tt).

(** [o.id_]. *)
Definition obj_id_ (o : obj) : string :=
  match o with
  | OBenchmark b => Benchmark.id_ b
  | OGroup g => Group.id_ g
  | ORule r => Rule.id_ r
  end.

(** [o.platform]: a Benchmark has no such attribute. *)
Definition obj_platform (o : obj) : result yaml :=
  match o with
  | OBenchmark _ => Raise AttributeError
  | OGroup g => Ok (Group.platform g)
  | ORule r => Ok (Rule.platform r)
  end.

(** [o.platform = p]. *)
Definition obj_set_platform (p : yaml) (o : obj) : obj :=
  match o with
  | OBenchmark b => OBenchmark b
  | OGroup g => OGroup (Group.set_platform p g)
  | ORule r => ORule (Rule.set_platform p r)
  end.

Definition for_each_M {A S : Type} (body : S → A → M S)
  : S → list A → M S :=
  fix go (s : S) (l : list A) : M S :=
    match l with
    | [] => mret s
    | x :: l' => s' ← body s x; go s' l'
    end.

(** ** Linking: add_group, add_rule *)

(** [Benchmark.add_group(self, group)] and [Benchmark.add_rule(self, rule)]
    for a Benchmark [self]. *)
Definition Benchmark_add_group (self : ref) (group : option ref) : M unit :=
  match group with
  | None => mret tt
  | Some group =>
      child ← get_obj group;
      o ← get_obj self;
      match o with
      | OBenchmark b =>
          set_obj self
            (OBenchmark (Benchmark.set_groups
                           (sdict_set (obj_id_ child) group (Benchmark.groups b))
                           b))
      | _ => raise AttributeError
      end
  end.

Definition Benchmark_add_rule (self : ref) (rule : option ref) : M unit :=
  match rule with
  | None => mret tt
  | Some rule =>
      child ← get_obj rule;
      o ← get_obj self;
      match o with
      | OBenchmark b =>
          set_obj self
            (OBenchmark (Benchmark.set_rules
                           (sdict_set (obj_id_ child) rule (Benchmark.rules b))
                           b))
      | _ => raise AttributeError
      end
  end.

(** The push-down of [Group.add_group] and [Group.add_rule]:
    [if self.platform and not child.platform: child.platform = self.platform]. *)
Definition push_platform (self : Group.t) (child : ref) : M unit :=
  if truthy (Group.platform self) then
    o ← get_obj child;
    p ← lift (obj_platform o);
    if negb (truthy p)
    then set_obj child (obj_set_platform (Group.platform self) o)
    else mret tt
  else mret tt.

(** [Group.add_group(self, group)] for a Group [self]. *)
Definition Group_add_group (self : ref) (group : option ref) : M unit :=
  match group with
  | None => mret tt
  | Some group =>
      o ← get_obj self;
      match o with
      | OGroup g =>
          _ ← push_platform g group;
          child ← get_obj group;
          o ← get_obj self;
          match o with
          | OGroup g =>
              set_obj self
                (OGroup (Group.set_groups
                           (sdict_set (obj_id_ child) group (Group.groups g)) g))
          | _ => raise AttributeError
          end
      | _ => raise AttributeError
      end
  end.

(** [Group.add_rule(self, rule)] for a Group [self]. *)
Definition Group_add_rule (self : ref) (rule : option ref) : M unit :=
  match rule with
  | None => mret tt
  | Some rule =>
      o ← get_obj self;
      match o with
      | OGroup g =>
          _ ← push_platform g rule;
          child ← get_obj rule;
          o ← get_obj self;
          match o with
          | OGroup g =>
              set_obj self
                (OGroup (Group.set_rules
                           (sdict_set (obj_id_ child) rule (Group.rules g)) g))
          | _ => raise AttributeError
          end
      | _ => raise AttributeError
      end
  end.

(** [o.add_value(value)], [o.add_group(group)], [o.add_rule(rule)] on an
    object of the store: the method of its class. *)
Definition add_value (self : ref) (value : option Value.t) : M unit :=
  o ← get_obj self;
  match o with
  | OBenchmark b => set_obj self (OBenchmark (Benchmark_add_value b value))
  | OGroup g => set_obj self (OGroup (Group_add_value g value))
  | ORule _ => raise AttributeError
  end.

Definition add_group (self : ref) (group : option ref) : M unit :=
  o ← get_obj self;
  match o with
  | OBenchmark _ => Benchmark_add_group self group
  | OGroup _ => Group_add_group self group
  | ORule _ => raise AttributeError
  end.

Definition add_rule (self : ref) (rule : option ref) : M unit :=
  o ← get_obj self;
  match o with
  | OBenchmark _ => Benchmark_add_rule self rule
  | OGroup _ => Group_add_rule self rule
  | ORule _ => raise AttributeError
  end.

(** ** Rendering the tree *)

(** [Group.to_xml_element(self)]; [render] is [to_xml_element] of the
    objects the group links to. *)
Definition Group_to_xml_element (render : ref → result element)
    (self : Group.t) : result element :=
  let group := ET_Element "Group" in
  let group := ET_set "id" (YStr (Group.id_ self)) group in
  let group :=
    if negb (eq_str (Group.prodtype self) "all")
    then ET_set "prodtype" (Group.prodtype self) group else group in
  let group := ET_SubElement "title" group in
  let group := on_last (ET_set_text (Group.title self)) group in
  group ← add_sub_element group "description" (Group.description self);
  group ← add_warning_elements group (Group.warnings self);
  group ← platform_element group (Group.platform self) (Group.id_ self);
  group ← for_each (fun group _value =>
              e ← Value_to_xml_element _value.2; Ok (ET_append e group))
            group (Group.values self);
  group ← for_each (fun group _group =>
              e ← render _group.2; Ok (ET_append e group))
            group (Group.groups self);
  for_each (fun group _rule => e ← render _rule.2; Ok (ET_append e group))
    group (Group.rules self).

(** [Benchmark.to_xml_element(self)]. *)
Definition Benchmark_to_xml_element (render : ref → result element)
    (self : Benchmark.t) : result element :=
  let root := ET_Element "Benchmark" in
  let root :=
    ET_set "xmlns:xsi" (YStr "http://www.w3.org/2001/XMLSchema-instance") root in
  let root := ET_set "xmlns:xhtml" (YStr "http://www.w3.org/1999/xhtml") root in
  let root := ET_set "xmlns:dc" (YStr "http://purl.org/dc/elements/1.1/") root in
  let root := ET_set "id" (YStr "product-name") root in
  let root :=
    ET_set "xsi:schemaLocation"
      (YStr "http://checklists.nist.gov/xccdf/1.1 xccdf-1.1.4.xsd") root in
  let root := ET_set "style" (YStr "SCAP_1.1") root in
  let root := ET_set "resolved" (YStr "false") root in
  let root := ET_set "xml:lang" (YStr "en-US") root in
  let root := ET_SubElement "status" root in
  let root := on_last (ET_set "date" (YStr today)) root in
  let root := on_last (ET_set_text (Benchmark.status self)) root in
  root ← add_sub_element root "title" (Benchmark.title self);
  root ← add_sub_element root "description" (Benchmark.description self);
  root ← add_sub_element root "notice" (Benchmark.notice_description self);
  let root := on_last (ET_set "id" (Benchmark.notice_id self)) root in
  root ← add_sub_element root "front-matter" (Benchmark.front_matter self);
  root ← add_sub_element root "rear-matter" (Benchmark.rear_matter self);
  let root :=
    fold_left (fun root idref =>
        on_last (ET_set "idref" (YStr idref)) (ET_SubElement "platform" root))
      (Benchmark.cpes self) root in
  let root := ET_SubElement "version" root in
  let root := on_last (ET_set_text (Benchmark.version self)) root in
  let root := ET_SubElement "metadata" root in
  root ← for_each (fun root profile =>
             match profile with
             | Some profile =>
                 e ← Profile_to_xml_element profile; Ok (ET_append e root)
             | None => Ok root
             end)
           root (Benchmark.profiles self);
  root ← for_each (fun root value =>
             e ← Value_to_xml_element value.2; Ok (ET_append e root))
           root (Benchmark.values self);
  let root :=
    match Benchmark.bash_remediation_fns_group self with
    | Some g => ET_append g root
    | None => root
    end in
  root ← for_each (fun root group =>
             e ← render group.2; Ok (ET_append e root))
           root (Benchmark.groups self);
  for_each (fun root rule => e ← render rule.2; Ok (ET_append e root))
    root (Benchmark.rules self).

(** [o.to_xml_element()] on an object of the store. The depth of the
    calls is bounded by the interpreter's recursion limit, [depth]. *)
Fixpoint to_xml_element (depth : nat) (h : list obj) (r : ref)
  : result element :=
  match depth with
  | O => Raise RecursionError
  | S depth =>
      match h !! r with
      | None => Raise (Dangling r)
      | Some (ORule rule) => Rule_to_xml_element rule
      | Some (OGroup g) => Group_to_xml_element (to_xml_element depth h) g
      | Some (OBenchmark b) =>
          Benchmark_to_xml_element (to_xml_element depth h) b
      end
  end.

(** [o.to_file(file_name)]. *)
Definition to_file (depth : nat) (self : ref) (file_name : string) : M unit :=
  fun st =>
  match to_xml_element depth (heap st) self with
  | Ok root => tree_write file_name root st
  | Raise e => (st, Raise e)
  end.

(** ** Loading a directory *)

Definition nl : string := String (ascii_of_nat 10) EmptyString.

(** [Benchmark.add_profiles_from_dir(self, action, dir_, env_yaml)]. *)
Definition Benchmark_add_profiles_from_dir (self : ref) (action : string)
    (dir_ : string) (env_yaml : yaml) : M unit :=
  entries ← listdir dir_;
  for_each_M (fun _ dir_item =>
      let dir_item_path := os_path.join dir_ dir_item in
      if negb (os_path_isfile dir_item_path) then mret tt
      else
        let ext := (os_path.splitext (os_path.basename dir_item_path)).2 in
        if negb (String.eqb ext ".profile") then
          stderr_write
            ("Encountered file '" +:+ dir_item
             +:+ "' while looking for profiles, extension '" +:+ ext
             +:+ "' is unknown. Skipping.." +:+ nl)
        else
          profile ← lift (Profile_from_yaml dir_item_path env_yaml);
          o ← get_obj self;
          _ ← match o with
              | OBenchmark b =>
                  set_obj self
                    (OBenchmark
                       (Benchmark.set_profiles
                          (Benchmark.profiles b ++ [profile]) b))
              | _ => raise AttributeError
              end;
          if String.eqb action "list-inputs" then print dir_item_path
          else mret tt)
    tt entries.

(** [Benchmark.add_bash_remediation_fns_from_file(self, action, file_)];
    [file_] is a path or [None]. *)
Definition Benchmark_add_bash_remediation_fns_from_file (self : ref)
    (action : string) (file_ : option string) : M unit :=
  if String.eqb action "list-inputs" then
    print (match file_ with Some f => f | None => "None" end)
  else
    root ← lift (match file_ with
                 | Some f => ET_parse f
                 | None => Raise TypeError
                 end);
    o ← get_obj self;
    match o with
    | OBenchmark b =>
        set_obj self
          (OBenchmark (Benchmark.set_bash_remediation_fns_group (Some root) b))
    | _ => raise AttributeError
    end.

(** [if path:] for a path that is a string or [None]. *)
Definition path_truthy (path : option string) : bool :=
  match path with
  | Some s => negb (String.eqb s "")
  | None => false
  end.

(** [load_benchmark_or_group(group_file, benchmark_file, guide_directory,
    action, profiles_dir, env_yaml, bash_remediation_fns)]. *)
Definition load_benchmark_or_group (group_file benchmark_file : option string)
    (guide_directory action : string) (profiles_dir : option string)
    (env_yaml : yaml) (bash_remediation_fns : option string)
  : M (option ref) :=
  let group : option ref := None in
  if path_truthy group_file && path_truthy benchmark_file
  then raise (ValueError (BenchmarkAndGroup guide_directory))
  else
    group ←
      (match benchmark_file with
       | Some benchmark_file_ =>
           if path_truthy benchmark_file then
             b ← lift (Benchmark_from_yaml benchmark_file_ "product-name"
                         env_yaml);
             match b with
             | None => raise AttributeError
             | Some b =>
                 group ← alloc (OBenchmark b);
                 _ ← match profiles_dir with
                     | Some profiles_dir_ =>
                         if path_truthy profiles_dir
                         then Benchmark_add_profiles_from_dir group action
                                profiles_dir_ env_yaml
                         else mret tt
                     | None => mret tt
                     end;
                 _ ← Benchmark_add_bash_remediation_fns_from_file group
                       action bash_remediation_fns;
                 _ ← (if String.eqb action "list-inputs"
                      then print benchmark_file_ else mret tt);
                 mret (Some group)
             end
           else mret group
       | None => mret group
       end);
    match group_file with
    | Some group_file_ =>
        if path_truthy group_file then
          g ← lift (Group_from_yaml group_file_ env_yaml);
          group ← match g with
                  | Some g => r ← alloc (OGroup g); mret (Some r)
                  | None => mret None
                  end;
          _ ← (if String.eqb action "list-inputs"
               then print group_file_ else mret tt);
          mret group
        else mret group
    | None => mret group
    end.

(** The local variables that the first loop of [add_from_directory]
    fills. *)
Record buckets : Type := mkBuckets {
  benchmark_file : option string;
  group_file : option string;
  rules : list string;
  values : list string;
  subdirectories : list string;
}.

Definition no_buckets : buckets := mkBuckets None None [] [] [].

(** One round of the first loop of [add_from_directory]. *)
Definition classify (guide_directory : string) (b : buckets)
    (dir_item : string) : M buckets :=
  let dir_item_path := os_path.join guide_directory dir_item in
  let extension := (os_path.splitext dir_item).2 in
  if String.eqb extension ".var" then
    mret (mkBuckets (benchmark_file b) (group_file b) (rules b)
            (values b ++ [dir_item_path]) (subdirectories b))
  else if String.eqb dir_item "benchmark.yml" then
    if path_truthy (benchmark_file b)
    then raise (ValueError MultipleBenchmarks)
    else mret (mkBuckets (Some dir_item_path) (group_file b) (rules b)
                 (values b) (subdirectories b))
  else if String.eqb dir_item "group.yml" then
    if path_truthy (group_file b)
    then raise (ValueError MultipleGroups)
    else mret (mkBuckets (benchmark_file b) (Some dir_item_path) (rules b)
                 (values b) (subdirectories b))
  else if String.eqb extension ".rule" then
    mret (mkBuckets (benchmark_file b) (group_file b)
            (rules b ++ [dir_item_path]) (values b) (subdirectories b))
  else if is_rule_dir dir_item_path then
    mret (mkBuckets (benchmark_file b) (group_file b)
            (rules b ++ [get_rule_dir_yaml dir_item_path]) (values b)
            (subdirectories b))
  else if negb (String.eqb dir_item "tests") then
    if os_path_isdir dir_item_path then
      mret (mkBuckets (benchmark_file b) (group_file b) (rules b) (values b)
              (subdirectories b ++ [dir_item_path]))
    else
      _ ← stderr_write
            ("Encountered file '" +:+ dir_item
             +:+ "' while recursing, extension '" +:+ extension
             +:+ "' is unknown. Skipping.." +:+ nl);
      mret b
  else mret b.

(** [add_from_directory(action, parent_group, guide_directory,
    profiles_dir, bash_remediation_fns, output_file, env_yaml)]. The depth
    of the recursion is bounded by the interpreter's recursion limit,
    [depth]. *)
Fixpoint add_from_directory (depth : nat) (action : string)
    (parent_group : option ref) (guide_directory : string)
    (profiles_dir bash_remediation_fns : option string)
    (output_file : string) (env_yaml : yaml) : M unit :=
  match depth with
  | O => raise RecursionError
  | S depth =>
      entries ← listdir guide_directory;
      b ← for_each_M (classify guide_directory) no_buckets entries;
      group ← load_benchmark_or_group (group_file b) (benchmark_file b)
                guide_directory action profiles_dir env_yaml
                bash_remediation_fns;
      match group with
      | None => mret tt
      | Some group =>
          _ ← match parent_group with
              | Some parent_group => add_group parent_group (Some group)
              | None => mret tt
              end;
          _ ← for_each_M (fun _ value_yaml =>
                  if String.eqb action "list-inputs" then print value_yaml
                  else
                    value ← lift (Value_from_yaml value_yaml env_yaml);
                    add_value group value)
                tt (values b);
          _ ← for_each_M (fun _ subdir =>
                  add_from_directory depth action (Some group) subdir
                    profiles_dir bash_remediation_fns output_file env_yaml)
                tt (subdirectories b);
          _ ← for_each_M (fun _ rule_yaml =>
                  if String.eqb action "list-inputs" then print rule_yaml
                  else
                    rule ← lift (Rule_from_yaml rule_yaml env_yaml);
                    match rule with
                    | Some rule =>
                        r ← alloc (ORule rule); add_rule group (Some r)
                    | None => add_rule group None
                    end)
                tt (rules b);
          match parent_group with
          | Some _ => mret tt
          | None =>
              if String.eqb action "build"
              then to_file depth group output_file
              else mret tt
          end
      end
  end.

End build_yaml.

(** ** A sample content tree

    Concrete collaborators and a small file system, on which the model
    can be run. *)

Module Demo.

(** A parser for ["<tag>text</tag>"] with no markup inside. *)
Definition fromstring (s : string) : option element :=
  let i := Py.find ">" s in
  if Py.startswith s "<" && (0 <? i) then
    let t := Py.drop 1 (Py.take (Z.to_nat i) s) in
    let rest := Py.drop (Z.to_nat i + 1) s in
    let close := "</" +:+ t +:+ ">" in
    let body := Py.take (String.length rest - String.length close) rest in
    if Py.endswith rest close && negb (Py.contains "<" body)
    then Some (Element t [] (Some (YStr body)) [])
    else None
  else None.

Definition is_digit (c : ascii) : bool :=
  let n := nat_of_ascii c in ((48 <=? n) && (n <=? 57))%nat.

Fixpoint all_digits (s : string) : bool :=
  match s with
  | EmptyString => true
  | String c r => is_digit c && all_digits r
  end.

(** [CCE-dddd-d] or [CCE-ddddd-d]. *)
Definition cce_valid (s : string) : bool :=
  match Py.split "-" s with
  | [a; b; c] =>
      String.eqb a "CCE" && all_digits b && all_digits c
      && ((String.length b =? 4) || (String.length b =? 5))%nat
      && (String.length c =? 1)%nat
  | _ => false
  end.

Definition doc (l : list (string * yaml)) : ydict :=
  map (fun kv => (YStr kv.1, kv.2)) l.

Definition rule_doc : ydict :=
  doc [("title", YStr "Disable telnet");
       ("description", YStr "The telnet service is not to run.");
       ("rationale", YStr "Telnet is not encrypted.");
       ("severity", YStr "high");
       ("identifiers",
        YDict (doc [("cce", YStr "27401-6"); ("stigid@rhel7", YStr "RHEL-07-1")]));
       ("references", YDict (doc [("nist", YStr "CM-7")]))].

Definition bare_rule_doc : ydict :=
  doc [("title", YStr "Bare"); ("description", YStr "d");
       ("rationale", YStr "r"); ("severity", YStr "low")].

Definition shadow_rule_doc : ydict :=
  doc [("title", YStr "Shadow"); ("description", YStr "d");
       ("rationale", YStr "r"); ("severity", YStr "low");
       ("identifiers", YDict (doc [("prodtype@rhel7", YStr "RHEL-07-1")]))].

Definition twice_rule_doc : ydict :=
  doc [("title", YStr "Twice"); ("description", YStr "d");
       ("rationale", YStr "r"); ("severity", YStr "low");
       ("identifiers",
        YDict (doc [("stigid@rhel7@x", YStr "RHEL-07-1")]))].

Definition value_doc : ydict :=
  doc [("title", YStr "Minimum length");
       ("description", YStr "Length of a password.");
       ("type", YStr "number");
       ("operator", YStr "greater than or equal");
       ("options", YDict (doc [("default", YInt 12); ("strict", YInt 15)]))].

Definition bad_operator_doc : ydict :=
  doc [("title", YStr "Minimum length");
       ("description", YStr "Length of a password.");
       ("type", YStr "number");
       ("operator", YStr "at least");
       ("options", YDict (doc [("default", YInt 12)]))].

Definition profile_doc : ydict :=
  doc [("title", YStr "Standard"); ("description", YStr "A profile.");
       ("selections",
        YList [YStr "service_telnet_disabled"; YStr "!bare";
               YStr "var_length=strict"])].

Definition group_doc : ydict :=
  doc [("title", YStr "Services"); ("description", YStr "Services.");
       ("platform", YStr "machine")].

(** A title that YAML reads as a number. *)
Definition dated_group_doc : ydict :=
  doc [("title", YInt 2018); ("description", YStr "The year.")].

(** A group descriptor with a misspelt field. *)
Definition typo_group_doc : ydict :=
  doc [("title", YStr "Typo"); ("description", YStr "A slip of the pen.");
       ("platfrom", YStr "machine")].

Definition benchmark_doc : ydict :=
  doc [("title", YStr "Guide"); ("status", YStr "draft");
       ("description", YStr "A guide.");
       ("notice", YDict (doc [("id", YStr "terms"); ("description", YStr "Free.")]));
       ("front-matter", YStr "Front."); ("rear-matter", YStr "Rear.");
       ("version", YStr "0.1.40")].

Definition documents : sdict ydict :=
  [("guide/benchmark.yml", benchmark_doc);
   ("guide/services/group.yml", group_doc);
   ("guide/services/var_length.var", value_doc);
   ("guide/services/bad.var", bad_operator_doc);
   ("guide/services/service_telnet_disabled.rule", rule_doc);
   ("guide/services/bare/rule.yml", bare_rule_doc);
   ("guide/services/shadow.rule", shadow_rule_doc);
   ("guide/services/twice.rule", twice_rule_doc);
   ("profiles/standard.profile", profile_doc);
   ("dated/group.yml", dated_group_doc);
   ("typo/group.yml", typo_group_doc)].

Definition load (path : string) (env : yaml) : result (option ydict) :=
  match sdict_get path documents with
  | Some d => Ok (Some d)
  | None => Raise (ExternalError path)
  end.

Definition directories : sdict (list string) :=
  [("guide", ["benchmark.yml"; "services"; "README"]);
   ("guide/services",
    ["group.yml"; "var_length.var"; "service_telnet_disabled.rule"; "bare";
     "tests"]);
   ("clash", ["notes.txt"; "benchmark.yml"; "sub"; "group.yml"]);
   ("clash/sub", ["group.yml"]);
   ("profiles", ["standard.profile"]);
   ("dated", ["group.yml"])].

Definition rule_dirs : list string := ["guide/services/bare"].

(** The trees that the writer serialises to the end: every attribute and
    every text is a string (or no text at all). *)
Fixpoint serialisable (e : element) : bool :=
  let 'Element _ a x c := e in
  forallb (fun kv => match kv.2 with YStr _ => true | _ => false end) a
  && match x with
     | None | Some YNull | Some (YStr _) => true
     | Some _ => false
     end
  && forallb serialisable c.

Definition str_of (v : yaml) : string :=
  match v with
  | YStr s => s
  | YNull => "None"
  | YBool true => "True"
  | YBool false => "False"
  | YInt n => pretty n
  | YList _ => "[...]"
  | YDict _ => "{...}"
  end.

#[export] Instance externals : Externals := {|
  open_and_expand := load;
  open_and_macro_expand := load;
  is_cce_valid := cce_valid;
  get_rule_dir_id := fun p =>
    os_path.basename
      (if Py.endswith p "rule.yml" then os_path.dirname p else p);
  get_rule_dir_yaml := fun p => os_path.join p "rule.yml";
  is_rule_dir := fun p => existsb (String.eqb p) rule_dirs;
  XCCDF_PLATFORM_TO_CPE := [("machine", "cpe:/a:machine")];
  PRODUCT_TO_CPE_MAPPING := [("rhel7", ["cpe:/o:redhat:enterprise_linux:7"])];
  ET_fromstring := fromstring;
  ET_parse := fun _ => Ok (Element "Group" [("id", YStr "remediation_functions")] None []);
  ET_write := fun _ root =>
    if serialisable root then Written else Broken TypeError;
  str := str_of;
  os_listdir := fun p =>
    match sdict_get p directories with
    | Some l => Ok l
    | None => Raise (ExternalError p)
    end;
  os_path_isdir := fun p =>
    match sdict_get p directories with Some _ => true | None => false end;
  os_path_isfile := fun p =>
    match sdict_get p documents with Some _ => true | None => false end;
  today := "2020-01-01";
|}.

Definition empty_state : state := mkState [] [] [] [] [].

End Demo.
(** ** Notions used to state the properties *)

(** Appending a list of children, one [append] at a time. *)
Definition append_all (cs : list element) (p : element) : element :=
  Element (tag p) (attrib p) (text p) (children p ++ cs).

(** The entries of a document whose key is none of the names [ks]. *)
Definition leftover (ks : list string) (d : ydict) : ydict :=
  List.filter (fun e => negb (existsb (fun k => key_is k e) ks)) d.

(** [d.get(k, default)]. *)
Definition get_default (k : string) (default : yaml) (d : ydict) : yaml :=
  match dict_get k d with
  | Some v => v
  | None => default
  end.

(** The fields each parser knows. *)
Definition Profile_keys : list string :=
  ["title"; "description"; "extends"; "selections"].

Definition Value_keys : list string :=
  ["title"; "description"; "type"; "operator"; "interactive"; "options";
   "warnings"].

Definition Group_keys : list string :=
  ["prodtype"; "title"; "description"; "warnings"; "platform"].

Definition Rule_keys : list string :=
  ["prodtype"; "title"; "description"; "rationale"; "severity"; "references";
   "identifiers"; "ocil_clause"; "ocil"; "oval_external_content"; "warnings";
   "platform"].

Definition Benchmark_keys : list string :=
  ["title"; "status"; "description"; "notice"; "front-matter"; "rear-matter";
   "version"].

Definition notice_keys : list string := ["id"; "description"].

(** Two states of an element under construction with the same tag,
    attributes and text: they differ in their children only. *)
Definition same_root (a b : element) : Prop :=
  tag a = tag b ∧ attrib a = attrib b ∧ text a = text b.

(** A key cut at its first [c]: what is before, what is after. *)
Fixpoint cut_at (c : ascii) (s : string) : option (string * string) :=
  match s with
  | EmptyString => None
  | String x r =>
      if Py.chr_eqb x c then Some (EmptyString, r)
      else match cut_at c r with
           | Some (a, b) => Some (String x a, b)
           | None => None
           end
  end.

(** The element of its own that an entry with a key [policy@product]
    gets. *)
Definition qualified_element (tag_ policy product : string) (val : yaml)
  : element :=
  Element tag_ (sdict_set "prodtype" (YStr product) [(policy, val)]) None [].

(** The elements of the entries with a qualified key, in their order. *)
Definition qualified_elements (tag_ : string) (entries : ydict)
  : list element :=
  flat_map (fun entry =>
      match entry.1 with
      | YStr key =>
          match cut_at "@" key with
          | Some (policy, product) =>
              [qualified_element tag_ policy product entry.2]
          | None => []
          end
      | _ => []
      end)
    entries.

(** The attributes that the entries with a key without [@] leave on the
    shared element. *)
Definition shared_attrib (entries : ydict) : sdict yaml :=
  fold_left (fun a entry =>
      match entry.1 with
      | YStr key => if Py.contains "@" key then a else sdict_set key entry.2 a
      | _ => a
      end)
    entries [].

(** The shared element, when it has an attribute. *)
Definition shared_part (tag_ : string) (entries : ydict) : list element :=
  match shared_attrib entries with
  | [] => []
  | a => [Element tag_ a None []]
  end.

(** What a rule renders in place of its check: a reference to external
    OVAL content, or a pointer to the OVAL definition of its own id. *)
Definition oval_part (r : Rule.t) : list element :=
  if truthy (Rule.external_oval r) then
    [Element "check"
       [("system", YStr "http://oval.mitre.org/XMLSchema/oval-definitions-5")]
       None
       [Element "check-content-ref" [("href", Rule.external_oval r)] None []]]
  else [Element "oval" [("id", YStr (Rule.id_ r))] None []].

(** The attributes of the element of a rule. *)
Definition Rule_root (r : Rule.t) : element :=
  let rule := ET_set "id" (YStr (Rule.id_ r)) (ET_Element "Rule") in
  let rule :=
    if negb (eq_str (Rule.prodtype r) "all")
    then ET_set "prodtype" (Rule.prodtype r) rule else rule in
  ET_set "severity" (Rule.severity r) rule.

(** The platform element of a platform that is in the table. *)
Definition platform_part (table : sdict string) (platform : yaml)
  : list element :=
  if truthy platform then
    match platform with
    | YStr s =>
        match sdict_get s table with
        | Some cpe => [Element "platform" [("idref", YStr cpe)] None []]
        | None => []
        end
    | _ => []
    end
  else [].

(** The text that the first loop of [add_from_directory] writes for an
    entry of a directory that it puts in no bucket. *)
Definition stray_warning (dir_item : string) : string :=
  "Encountered file '" +:+ dir_item +:+ "' while recursing, extension '"
  +:+ (os_path.splitext dir_item).2 +:+ "' is unknown. Skipping.." +:+ nl.

(** An entry of a directory that is no value, no benchmark or group
    descriptor, no rule, no rule directory, not [tests] and no
    directory. *)
Definition is_stray {E : Externals} (guide_directory dir_item : string)
  : bool :=
  negb (String.eqb (os_path.splitext dir_item).2 ".var")
  && negb (String.eqb dir_item "benchmark.yml")
  && negb (String.eqb dir_item "group.yml")
  && negb (String.eqb (os_path.splitext dir_item).2 ".rule")
  && negb (is_rule_dir (os_path.join guide_directory dir_item))
  && negb (String.eqb dir_item "tests")
  && negb (os_path_isdir (os_path.join guide_directory dir_item)).

Definition stray_warnings {E : Externals} (guide_directory : string)
    (entries : list string) : list string :=
  map stray_warning (List.filter (is_stray guide_directory) entries).

(** The state after more text went to the error stream. *)
Definition add_stderr (lines : list string) (st : state) : state :=
  mkState (heap st) (stdout st) (stderr st ++ lines) (listed st) (files st).

(** An identifier entry in order: a string key, a string value that is
    not blank once stripped, and for a key that begins with [cce] a value
    that the checker accepts after [CCE-]. *)
Definition valid_identifier {E : Externals} (entry : yaml * yaml) : Prop :=
  ∃ ident_type ident_val,
    entry = (YStr ident_type, YStr ident_val)
    ∧ Py.strip ident_val ≠ ""
    ∧ (Py.startswith ident_type "cce" = true →
       is_cce_valid ("CCE-" +:+ ident_val) = true).

(** A reference entry in order: a string key and a string value that is
    not blank once stripped. *)
Definition valid_reference (entry : yaml * yaml) : Prop :=
  ∃ ref_type ref_val,
    entry = (YStr ref_type, YStr ref_val) ∧ Py.strip ref_val ≠ "".

(** The keys of a dictionary, in its order. *)
Definition sdict_keys {A} (d : sdict A) : list string := map fst d.

(** How many times a character occurs in a string. *)
Fixpoint count_chr (c : ascii) (s : string) : nat :=
  match s with
  | EmptyString => O
  | String x r => (if Py.chr_eqb x c then 1 else 0) + count_chr c r
  end.

(** The [value] element that [Value.to_xml_element] makes of one option:
    the selector is an attribute unless it is [default]. *)
Definition value_small {E : Externals} (entry : yaml * yaml) : element :=
  Element "value"
    (if eq_str entry.1 "default" then []
     else [("selector", YStr (str entry.1))])
    (Some (YStr (str entry.2))) [].

(** The attributes of the element of a value. *)
Definition Value_root_element (self : Value.t) : element :=
  let value := ET_set "id" (YStr (Value.id_ self)) (ET_Element "Value") in
  let value := ET_set "type" (Value.type_ self) value in
  let value :=
    if negb (eq_str (Value.operator self) "equals")
    then ET_set "operator" (Value.operator self) value else value in
  if Value.interactive self
  then ET_set "interactive" (YStr "true") value else value.

(** What is left of a benchmark document once its fields are taken out:
    the notice stays, cut down to its unknown entries, unless it has
    none. *)
Definition Benchmark_residual (doc notice : ydict) : ydict :=
  match leftover notice_keys notice with
  | [] => leftover Benchmark_keys doc
  | rest =>
      dict_update "notice" (YDict rest)
        (leftover ["title"; "status"; "description"; "front-matter";
                   "rear-matter"; "version"] doc)
  end.

(** A step of a run that writes no file. *)
Definition keeps_files {A : Type} (m : M A) : Prop :=
  ∀ st, files (m st).1 = files st.

(** The text that [add_sub_element] parses for a warning. *)
Definition warning_markup {E : Externals} (data : yaml) : string :=
  "<warning>" +:+ str data +:+ "</warning>".

(** A warning element: the parsed text, with its category. *)
Definition is_warning_of {E : Externals} (pair : yaml * yaml) (c : element)
  : Prop :=
  ∃ c0, ET_fromstring (warning_markup pair.2) = Some c0
        ∧ c = ET_set "category" pair.1 c0.

Definition is_mapping (v : yaml) : Prop :=
  match v with YDict _ => True | _ => False end.

(** The attributes of the element of a group. *)
Definition Group_root (g : Group.t) : element :=
  let group := ET_set "id" (YStr (Group.id_ g)) (ET_Element "Group") in
  if negb (eq_str (Group.prodtype g) "all")
  then ET_set "prodtype" (Group.prodtype g) group else group.

(** The attributes of the element of a benchmark: none of them comes from
    the benchmark. *)
Definition Benchmark_root : element :=
  Element "Benchmark"
    [("xmlns:xsi", YStr "http://www.w3.org/2001/XMLSchema-instance");
     ("xmlns:xhtml", YStr "http://www.w3.org/1999/xhtml");
     ("xmlns:dc", YStr "http://purl.org/dc/elements/1.1/");
     ("id", YStr "product-name");
     ("xsi:schemaLocation",
      YStr "http://checklists.nist.gov/xccdf/1.1 xccdf-1.1.4.xsd");
     ("style", YStr "SCAP_1.1");
     ("resolved", YStr "false");
     ("xml:lang", YStr "en-US")]
    None [].

(** The platform elements of the CPEs of a benchmark. *)
Definition platform_elements (cpes : list string) : list element :=
  map (fun idref => Element "platform" [("idref", YStr idref)] None []) cpes.

(** The profiles of a benchmark that are there. *)
Definition loaded_profiles (ps : list (option Profile.t)) : list Profile.t :=
  omap id ps.

(** [rendered f xs es]: the elements [es] are the renderings of [xs], one
    each, in order. *)
Definition rendered {A : Type} (f : A → result element) (xs : list A)
    (es : list element) : Prop :=
  Forall2 (fun x e => f x = Ok e) xs es.

(** [after] is [before] with [child] under [id]: the other ids are as
    they were. *)
Definition links_under (id : string) (child : ref) (before after : sdict ref)
  : Prop :=
  sdict_get id after = Some child
  ∧ ∀ k, k ≠ id → sdict_get k after = sdict_get k before.

(** Two states that differ in the objects of the store at most: as many
    objects, the same streams, listings and files. *)
Definition same_but_objects (st st' : state) : Prop :=
  length (heap st') = length (heap st)
  ∧ stdout st' = stdout st ∧ stderr st' = stderr st
  ∧ listed st' = listed st ∧ files st' = files st.

(** The text that [add_sub_element] parses for a child [tag_]. *)
Definition markup {E : Externals} (tag_ : string) (data : yaml) : string :=
  "<" +:+ tag_ +:+ ">" +:+ str data +:+ "</" +:+ tag_ +:+ ">".

(** A key that the loops over identifiers and references can take: a
    string with one [@] at most. *)
Definition simple_key (entry : yaml * yaml) : Prop :=
  ∃ key, entry.1 = YStr key ∧ (count_chr "@" key ≤ 1)%nat.

(** The OCIL element of a rule: there is one when the rule has an OCIL
    text or an OCIL clause; it is parsed from the text, and the clause
    is an attribute of it. *)
Definition ocil_part {E : Externals} (r : Rule.t) (cs : list element)
  : Prop :=
  if truthy (Rule.ocil r) || truthy (Rule.ocil_clause r) then
    ∃ c0,
      ET_fromstring
        (markup "ocil"
           (if truthy (Rule.ocil r) then Rule.ocil r else YStr ""))
      = Some c0
      ∧ cs = [if truthy (Rule.ocil_clause r)
              then ET_set "clause" (Rule.ocil_clause r) c0 else c0]
  else cs = [].

(** The element of one warning: the text of its first entry, parsed,
    with the key of that entry as its category. *)
Definition is_warning_element {E : Externals} (w : yaml) (c : element)
  : Prop :=
  ∃ k v c0,
    first_key w = Ok k ∧ first_value w = Ok v
    ∧ ET_fromstring (markup "warning" v) = Some c0
    ∧ c = ET_set "category" k c0.

(** The warning elements of the warnings of an entity. *)
Definition warning_part {E : Externals} (warnings : yaml)
    (cs : list element) : Prop :=
  ∃ ws, iter warnings = Ok ws ∧ Forall2 is_warning_element ws cs.

(** What has to be there for a rule to render: the three texts parse,
    the identifiers and the references are mappings with keys that the
    loops can take, the OCIL text and the warnings parse, and the
    platform, if there is one, is in the table. *)
Definition Rule_pieces {E : Externals} (r : Rule.t)
    (title description rationale : element) (ids refs : ydict)
    (ocil ws : list element) : Prop :=
  ET_fromstring (markup "title" (Rule.title r)) = Some title
  ∧ ET_fromstring (markup "description" (Rule.description r))
    = Some description
  ∧ ET_fromstring (markup "rationale" (Rule.rationale r)) = Some rationale
  ∧ Rule.identifiers r = YDict ids ∧ Forall simple_key ids
  ∧ Rule.references r = YDict refs ∧ Forall simple_key refs
  ∧ ocil_part r ocil
  ∧ warning_part (Rule.warnings r) ws
  ∧ (truthy (Rule.platform r) = true →
     ∃ name cpe, Rule.platform r = YStr name
                 ∧ sdict_get name XCCDF_PLATFORM_TO_CPE = Some cpe).

(** The element of a rule, put together from its pieces; [checks] is
    what stands between the references and the OCIL. *)
Definition Rule_element {E : Externals} (r : Rule.t)
    (title description rationale : element) (ids refs : ydict)
    (checks ocil ws : list element) : element :=
  append_all
    ([title; description; rationale]
     ++ (qualified_elements "ident" ids ++ shared_part "ident" ids)
     ++ (qualified_elements "ref" refs ++ shared_part "ref" refs)
     ++ checks ++ ocil ++ ws
     ++ platform_part XCCDF_PLATFORM_TO_CPE (Rule.platform r))
    (Rule_root r).

(** * Properties *)

(** ** Strings and paths *)

#[local] Arguments String.append !_ _ / : assert.

Lemma append_assoc (a b c : string) : (a +:+ b) +:+ c = a +:+ (b +:+ c).
Proof. induction a; simpl; congruence. Qed.

Lemma append_nil_r (a : string) : a +:+ "" = a.
Proof. induction a; simpl; congruence. Qed.

Lemma append_length (a b : string) :
  String.length (a +:+ b) = (String.length a + String.length b)%nat.
Proof. induction a; simpl; congruence. Qed.

Lemma chr_eqb_eq (a b : ascii) : Py.chr_eqb a b = true ↔ a = b.
Proof. apply Ascii.eqb_eq. Qed.

Lemma chr_eqb_refl (a : ascii) : Py.chr_eqb a a = true.
Proof. by apply chr_eqb_eq. Qed.

Lemma chr_eqb_neq (a b : ascii) : Py.chr_eqb a b = false ↔ a ≠ b.
Proof. apply Ascii.eqb_neq. Qed.

Lemma contains_app c a b :
  Py.contains c (a +:+ b) = Py.contains c a || Py.contains c b.
Proof. induction a; simpl; [done|]. by rewrite IHa, orb_assoc. Qed.

Lemma rfind_lower c s : -1 ≤ Py.rfind c s.
Proof.
  induction s; simpl; [lia|].
  destruct (0 <=? Py.rfind c s) eqn:E; [lia|]. destruct Py.chr_eqb; lia.
Qed.

Lemma rfind_absent c s : Py.contains c s = false → Py.rfind c s = -1.
Proof.
  induction s; simpl; [done|].
  intros [Ha Hs]%orb_false_elim. rewrite (IHs Hs), Ha. done.
Qed.

Lemma rfind_last c a b :
  Py.contains c b = false →
  Py.rfind c (a +:+ String c b) = Z.of_nat (String.length a).
Proof.
  intros Hb. induction a; simpl.
  - by rewrite (rfind_absent _ _ Hb), chr_eqb_refl.
  - rewrite IHa. destruct (0 <=? _) eqn:E; lia.
Qed.

Lemma drop_app a s : Py.drop (String.length a) (a +:+ s) = s.
Proof. induction a; simpl; [by destruct s|done]. Qed.

Lemma take_app a s : Py.take (String.length a) (a +:+ s) = a.
Proof. induction a; simpl; [by destruct s|congruence]. Qed.

Lemma drop_0 s : Py.drop 0 s = s.
Proof. by destruct s. Qed.

(** The base name of [a/b] is [b] when [b] has no separator. *)
Lemma basename_last a b :
  Py.contains "/" b = false → os_path.basename (a +:+ "/" +:+ b) = b.
Proof.
  intros Hb. unfold os_path.basename, os_path.sep. simpl.
  rewrite (rfind_last _ a b Hb).
  replace (Z.to_nat (Z.of_nat (String.length a) + 1))
    with (String.length (a +:+ "/")) by (rewrite append_length; simpl; lia).
  change (String "/" b) with ("/" +:+ b).
  by rewrite <-append_assoc, drop_app.
Qed.

Lemma basename_plain b : Py.contains "/" b = false → os_path.basename b = b.
Proof.
  intros Hb. unfold os_path.basename, os_path.sep.
  rewrite (rfind_absent _ _ Hb). simpl. apply drop_0.
Qed.

Lemma has_non_dot_first p i n c t :
  Py.drop i p = String c t → c ≠ "."%char →
  os_path.has_non_dot p i (S n) = true.
Proof.
  intros Hd Hc. simpl. rewrite Hd. simpl.
  destruct (Ascii.eqb c ".") eqn:E; [by apply Ascii.eqb_eq in E|done].
Qed.

(** [name.ext] splits at its last dot when the name does not begin with a
    dot. *)
Lemma splitext_last c stem ext :
  c ≠ "."%char →
  Py.contains "/" (String c stem +:+ "." +:+ ext) = false →
  Py.contains "." ext = false →
  os_path.splitext (String c stem +:+ "." +:+ ext)
  = (String c stem, "." +:+ ext).
Proof.
  intros Hc Hsep Hext. unfold os_path.splitext, os_path.sep.
  rewrite (rfind_absent _ _ Hsep).
  unfold os_path.extsep. change ("." +:+ ext) with (String "." ext).
  rewrite (rfind_last _ (String c stem) ext Hext).
  replace (Z.to_nat (Z.of_nat (String.length (String c stem)) - (-1 + 1)))
    with (S (String.length stem)) by (simpl; lia).
  rewrite (has_non_dot_first _ _ _ c (stem +:+ String "." ext)); [|done|done].
  assert (E : (-1 <? Z.of_nat (String.length (String c stem))) = true)
    by (apply Z.ltb_lt; lia).
  rewrite E. simpl andb. cbv iota.
  rewrite Nat2Z.id. by rewrite take_app, drop_app.
Qed.

Lemma rstrip_chr_last c s :
  Py.contains c s = false → Py.rstrip_chr c (s +:+ String c "") = s.
Proof.
  induction s as [|x s IH]; simpl.
  - by rewrite chr_eqb_refl.
  - intros [Hx Hs]%orb_false_elim. rewrite (IH Hs).
    destruct s; [by rewrite Hx|done].
Qed.

Lemma rstrip_chr_app c a s :
  Py.rstrip_chr c s ≠ "" → Py.rstrip_chr c (a +:+ s) = a +:+ Py.rstrip_chr c s.
Proof.
  intros Hs. induction a as [|x a IH]; simpl; [done|].
  rewrite IH. destruct a; simpl; [|done]. by destruct (Py.rstrip_chr c s).
Qed.

Lemma repeat_chr_inv c n a x b :
  Py.repeat_chr c n = a +:+ String x b → x = c.
Proof.
  revert a. induction n; intros [|y a]; simpl; try done.
  - by intros [= -> _].
  - intros [= _ Hr]. eauto.
Qed.

(** The directory of [a/name/file] is [a/name]. *)
Lemma dirname_last a x name file :
  Py.contains "/" (String x name) = false →
  Py.contains "/" file = false →
  os_path.dirname (a +:+ "/" +:+ String x name +:+ "/" +:+ file)
  = a +:+ "/" +:+ String x name.
Proof.
  intros Hname Hfile. unfold os_path.dirname, os_path.sep.
  set (d := a +:+ "/" +:+ String x name).
  assert (Hp : a +:+ "/" +:+ String x name +:+ "/" +:+ file
               = d +:+ String "/" file).
  { unfold d. rewrite ?append_assoc. simpl. by rewrite ?append_assoc. }
  assert (Hd : d +:+ "/" = (a +:+ "/") +:+ (String x name +:+ String "/" "")).
  { unfold d. rewrite ?append_assoc. simpl. by rewrite ?append_assoc. }
  rewrite Hp, (rfind_last _ d file Hfile).
  replace (Z.to_nat (Z.of_nat (String.length d) + 1))
    with (String.length (d +:+ "/")) by (rewrite append_length; simpl; lia).
  change (String "/" file) with ("/" +:+ file).
  rewrite <-append_assoc, take_app.
  assert (Hne : String.eqb (d +:+ "/") "" = false).
  { rewrite Hd. by destruct a. }
  assert (Hrep : String.eqb (d +:+ "/")
                   (Py.repeat_chr "/" (String.length (d +:+ "/"))) = false).
  { apply String.eqb_neq. intros Heq. symmetry in Heq.
    rewrite Hd in Heq. simpl in Heq.
    apply repeat_chr_inv in Heq. simpl in Hname.
    apply orb_false_elim in Hname as [Hx _].
    apply chr_eqb_neq in Hx. done. }
  rewrite Hne, Hrep. simpl negb. simpl andb. cbv iota.
  rewrite Hd, rstrip_chr_app; rewrite (rstrip_chr_last _ _ Hname); [|done].
  unfold d. rewrite ?append_assoc. simpl. by rewrite ?append_assoc.
Qed.

Lemma take_drop n s : Py.take n s +:+ Py.drop n s = s.
Proof. revert s. induction n; intros [|c s]; simpl; try done. by rewrite IHn. Qed.

Lemma splitext_concat p :
  (os_path.splitext p).1 +:+ (os_path.splitext p).2 = p.
Proof.
  unfold os_path.splitext. destruct (_ && _); simpl.
  - apply take_drop.
  - apply append_nil_r.
Qed.

(** The test of [Rule.from_yaml] on the two halves of the file name is a
    test on the file name. *)
Lemma rule_yml_test b :
  String.eqb (os_path.splitext b).1 "rule" && String.eqb (os_path.splitext b).2 ".yml"
  = String.eqb b "rule.yml".
Proof.
  destruct (String.eqb b "rule.yml") eqn:E.
  - apply String.eqb_eq in E. by subst.
  - apply andb_false_iff. apply String.eqb_neq in E.
    destruct (String.eqb (os_path.splitext b).1 "rule") eqn:E1; [|by left].
    destruct (String.eqb (os_path.splitext b).2 ".yml") eqn:E2; [|by right].
    apply String.eqb_eq in E1, E2. destruct E.
    by rewrite <-(splitext_concat b), E1, E2.
Qed.

(** ** Results and the store *)

Lemma result_bind_Ok {A B} (m : result A) (f : A → result B) b :
  m ≫= f = Ok b ↔ ∃ a, m = Ok a ∧ f a = Ok b.
Proof.
  destruct m; simpl; split.
  - eauto.
  - by intros (? & [= ->] & ?).
  - done.
  - by intros (? & ? & ?).
Qed.

(** Inversion of a successful run of a function written with binds,
    destructuring lets and conditionals. *)
Ltac inv_ok H :=
  repeat match type of H with
  | (_ ≫= _) = Ok _ =>
      let a := fresh "a" in let Ha := fresh "Ha" in
      apply result_bind_Ok in H; destruct H as (a & Ha & H)
  | (let '(_, _) := ?p in _) = Ok _ => destruct p eqn:?
  | (if ?c then _ else _) = Ok _ => destruct c eqn:?; try discriminate H
  | match ?o with Some _ => _ | None => _ end = Ok _ =>
      destruct o eqn:?; try discriminate H
  | Ok ?x = Ok ?y =>
      let H' := fresh in
      assert (H' : x = y) by congruence; clear H; rename H' into H
  | Some ?x = Some ?y =>
      let H' := fresh in
      assert (H' : x = y) by congruence; clear H; rename H' into H
  end.

Lemma bind_run {A B} (m : M A) (f : A → M B) st :
  (m ≫= f) st = match m st with
                | (st', Ok a) => f a st'
                | (st', Raise e) => (st', Raise e)
                end.
Proof. reflexivity. Qed.

Lemma set_heap_id st : set_heap (heap st) st = st.
Proof. by destruct st. Qed.

Lemma set_obj_same self o st :
  heap st !! self = Some o → set_obj self o st = (st, Ok tt).
Proof.
  intros Hl. unfold set_obj. by rewrite list_insert_id, set_heap_id.
Qed.

Lemma get_obj_run self o st :
  heap st !! self = Some o → get_obj self st = (st, Ok o).
Proof. intros Hl. unfold get_obj. by rewrite Hl. Qed.

(** ** Adding nothing *)

(** C9. Calling [add_value], [add_group] or [add_rule] of a Benchmark or of
    a Group with [None] returns normally and changes nothing: not the
    container, not any other object of the store (so not the platform of
    any child), not the output. *)
Theorem add_None_is_noop :
  (∀ b, Benchmark_add_value b None = b) ∧
  (∀ g, Group_add_value g None = g) ∧
  (∀ self st, Benchmark_add_group self None st = (st, Ok tt)) ∧
  (∀ self st, Benchmark_add_rule self None st = (st, Ok tt)) ∧
  (∀ self st, Group_add_group self None st = (st, Ok tt)) ∧
  (∀ self st, Group_add_rule self None st = (st, Ok tt)) ∧
  (∀ self st o,
     heap st !! self = Some o → (∀ r, o ≠ ORule r) →
     add_value self None st = (st, Ok tt)
     ∧ add_group self None st = (st, Ok tt)
     ∧ add_rule self None st = (st, Ok tt)).
Proof.
  do 6 (split; [done|]).
  intros self st o Hself Hcontainer. repeat split.
  - unfold add_value. rewrite bind_run, (get_obj_run _ _ _ Hself).
    destruct o as [b|g|r]; simpl;
      [by apply set_obj_same..|by destruct (Hcontainer r)].
  - unfold add_group. rewrite bind_run, (get_obj_run _ _ _ Hself).
    destruct o as [b|g|r]; simpl; [done..|by destruct (Hcontainer r)].
  - unfold add_rule. rewrite bind_run, (get_obj_run _ _ _ Hself).
    destruct o as [b|g|r]; simpl; [done..|by destruct (Hcontainer r)].
Qed.

Lemma add_None_is_noop_witness :
  let st := mkState [OBenchmark (Benchmark_init "product-name")] [] [] [] [] in
  add_value 0%nat None st = (st, Ok tt)
  ∧ add_group 0%nat None st = (st, Ok tt)
  ∧ add_rule 0%nat None st = (st, Ok tt).
Proof.
  intros st.
  apply (proj2 (proj2 (proj2 (proj2 (proj2 (proj2 add_None_is_noop)))))
           0%nat st (OBenchmark (Benchmark_init "product-name"))).
  - reflexivity.
  - discriminate.
Defined.

(** ** Elements *)

Lemma on_last_append f c p : on_last f (ET_append c p) = ET_append (f c) p.
Proof.
  destruct p as [t a x cs]. simpl.
  by rewrite rev_app_distr; simpl; rewrite rev_involutive.
Qed.

Lemma on_last_SubElement f t p :
  on_last f (ET_SubElement t p) = ET_append (f (ET_Element t)) p.
Proof. apply on_last_append. Qed.

Lemma children_append c p : children (ET_append c p) = children p ++ [c].
Proof. by destruct p. Qed.

Lemma attrib_append c p : attrib (ET_append c p) = attrib p.
Proof. by destruct p. Qed.

Lemma tag_append c p : tag (ET_append c p) = tag p.
Proof. by destruct p. Qed.

Lemma ET_append_append c d p :
  ET_append d (ET_append c p)
  = Element (tag p) (attrib p) (text p) (children p ++ [c; d]).
Proof. destruct p. simpl. by rewrite <-app_assoc. Qed.

Lemma element_eta p : Element (tag p) (attrib p) (text p) (children p) = p.
Proof. by destruct p. Qed.

Lemma append_all_nil p : append_all [] p = p.
Proof. destruct p. unfold append_all. simpl. by rewrite app_nil_r. Qed.

Lemma append_all_cons c cs p :
  append_all (c :: cs) p = append_all cs (ET_append c p).
Proof. destruct p. unfold append_all. simpl. by rewrite <-app_assoc. Qed.

Lemma append_all_app cs ds p :
  append_all ds (append_all cs p) = append_all (cs ++ ds) p.
Proof. destruct p. unfold append_all. simpl. by rewrite <-app_assoc. Qed.

Lemma append_all_one c p : append_all [c] p = ET_append c p.
Proof. by destruct p. Qed.

(** A loop that appends to the element what its body makes of each
    item: the children made, in the order of the items. *)
Lemma for_each_append {A} (f : A → result element) xs el0 el :
  for_each (fun el x => d ← f x; Ok (ET_append d el)) el0 xs = Ok el →
  ∃ ds, Forall2 (fun x d => f x = Ok d) xs ds ∧ el = append_all ds el0.
Proof.
  revert el0. induction xs as [|x xs IH]; simpl; intros el0 Hl.
  - injection Hl as <-. exists []. by rewrite append_all_nil.
  - inv_ok Hl. apply result_bind_Ok in Ha as (d & Hd & [= <-]).
    destruct (IH _ Hl) as (ds & Hds & ->).
    exists (d :: ds). split; [by constructor|].
    by rewrite append_all_cons.
Qed.

Lemma for_each_append_total {A} (f : A → result element) xs el0 :
  Forall (fun x => is_ok (f x) = true) xs →
  is_ok (for_each (fun el x => d ← f x; Ok (ET_append d el)) el0 xs) = true.
Proof.
  intros Hxs. revert el0. induction Hxs as [|x xs Hx _ IH]; intros el0; simpl.
  - done.
  - destruct (f x); [|done]. simpl. apply IH.
Qed.

Section elements.
Context {E : Externals}.

Lemma add_sub_element_Ok parent tag_ data el :
  add_sub_element parent tag_ data = Ok el →
  ∃ c, el = ET_append c parent.
Proof.
  unfold add_sub_element. destruct ET_fromstring; [|done].
  intros [= <-]. eauto.
Qed.

End elements.

(** ** Selections of a profile *)

Lemma split_max_first c a b :
  Py.contains c a = false → Py.split_max c 1 (a +:+ String c b) = [a; b].
Proof.
  induction a as [|x a IH]; simpl.
  - intros _. rewrite chr_eqb_refl. by destruct b.
  - intros [Hx Ha]%orb_false_elim. by rewrite Hx, (IH Ha).
Qed.

Lemma contains_split c s :
  Py.contains c s = true →
  ∃ a b, s = a +:+ String c b ∧ Py.contains c a = false.
Proof.
  induction s as [|x s IH]; simpl; [done|].
  destruct (Py.chr_eqb x c) eqn:Hx; simpl.
  - intros _. apply chr_eqb_eq in Hx as ->. by exists "", s.
  - intros (a & b & -> & Ha)%IH. exists (String x a), b. simpl.
    by rewrite Hx, Ha.
Qed.

Lemma prefix_nil s : String.prefix "" s = true.
Proof. by destruct s. Qed.

Lemma startswith_chr_app x a c b :
  c ≠ x → Py.startswith a (String x "") = false →
  Py.startswith (a +:+ String c b) (String x "") = false.
Proof.
  intros Hc. unfold Py.startswith. destruct a as [|y a]; simpl.
  - intros _. destruct ascii_dec; [by subst|done].
  - destruct ascii_dec; [|done]. by rewrite !prefix_nil.
Qed.

Lemma selection_element_total s : is_ok (selection_element (YStr s)) = true.
Proof.
  unfold selection_element. destruct (Py.startswith s "!"); [done|].
  destruct (Py.contains "=" s) eqn:Hc; [|done].
  apply contains_split in Hc as (a & b & -> & Ha).
  by rewrite (split_max_first _ _ _ Ha).
Qed.

Section selections.
Context {E : Externals}.

(** C4. Rendering a profile appends, after the title and the description,
    one directive per selection string, in the order of the selections,
    and no selection string makes the rendering fail. The directive of a
    string is decided by these tests in this order: a string [!r] gives
    an unselect of [r]; otherwise a string with an [=] is cut at its first
    [=] into a value id and a selector and gives a refine-value; any other
    string gives a select of that rule. *)
Theorem selections_render_in_order :
  (∀ r,
     selection_element (YStr ("!" +:+ r))
     = Ok (Element "select"
             [("idref", YStr r); ("selected", YStr "false")] None [])) ∧
  (∀ value_id selector,
     Py.startswith value_id "!" = false →
     Py.contains "=" value_id = false →
     selection_element (YStr (value_id +:+ "=" +:+ selector))
     = Ok (Element "refine-value"
             [("idref", YStr value_id); ("selector", YStr selector)] None [])) ∧
  (∀ rule_id,
     Py.startswith rule_id "!" = false →
     Py.contains "=" rule_id = false →
     selection_element (YStr rule_id)
     = Ok (Element "select"
             [("idref", YStr rule_id); ("selected", YStr "true")] None [])) ∧
  (∀ p sels el,
     Profile.selections p = YList (map YStr sels) →
     Profile_to_xml_element p = Ok el →
     ∃ title description directives,
       children el = title :: description :: directives
       ∧ Forall2 (fun s d => selection_element (YStr s) = Ok d)
           sels directives) ∧
  (∀ p sels,
     Profile.selections p = YList (map YStr sels) →
     is_ok (Profile_to_xml_element p)
     = is_ok (Profile_to_xml_element
                (Profile.mk (Profile.id_ p) (Profile.title p)
                   (Profile.description p) (Profile.extends p) (YList [])))).
Proof.
  split; [|split; [|split; [|split]]].
  - intros r. by destruct r.
  - intros value_id selector Hbang Heq. unfold selection_element.
    change ("=" +:+ selector) with (String "=" selector).
    rewrite (startswith_chr_app "!" value_id "=" selector); [|done|done].
    rewrite contains_app. simpl Py.contains at 2.
    rewrite orb_true_r.
    by rewrite (split_max_first _ _ _ Heq).
  - intros rule_id Hbang Heq. unfold selection_element.
    by rewrite Hbang, Heq.
  - intros p sels el Hsels Hel. unfold Profile_to_xml_element in Hel.
    rewrite Hsels in Hel. inv_ok Hel. injection Ha1 as <-.
    apply add_sub_element_Ok in Ha as [title ->].
    rewrite on_last_append in Ha0.
    apply add_sub_element_Ok in Ha0 as [description ->].
    rewrite on_last_append in Hel.
    apply for_each_append in Hel as (ds & Hds & ->).
    exists (ET_set "override" (YStr "true") title),
      (ET_set "override" (YStr "true") description), ds.
    split.
    + unfold append_all. simpl. by destruct (truthy (Profile.extends p)).
    + clear -Hds. revert ds Hds. induction sels as [|s sels IH];
        intros ds Hds; inversion Hds; subst; constructor; eauto.
  - intros p sels Hsels. unfold Profile_to_xml_element. rewrite Hsels. simpl.
    destruct (add_sub_element _ "title" _) as [e1|]; [|done]. simpl.
    destruct (add_sub_element _ "description" _) as [e2|]; [|done]. simpl.
    apply for_each_append_total.
    apply List.Forall_forall. intros x (s & <- & _)%in_map_iff.
    apply selection_element_total.
Qed.

End selections.

Lemma selections_render_in_order_witness :
  ∃ el title description,
    Profile_to_xml_element (E := Demo.externals)
      (Profile.mk "standard" (YStr "Standard") (YStr "A profile.") YNull
         (YList (map YStr ["telnet_off"; "!bare"; "var_length=strict"])))
    = Ok el
    ∧ children el =
        [title; description;
         Element "select"
           [("idref", YStr "telnet_off"); ("selected", YStr "true")] None [];
         Element "select"
           [("idref", YStr "bare"); ("selected", YStr "false")] None [];
         Element "refine-value"
           [("idref", YStr "var_length"); ("selector", YStr "strict")] None []].
Proof.
  destruct (proj1 (proj2 (proj2 (proj2
              (@selections_render_in_order Demo.externals))))
              (Profile.mk "standard" (YStr "Standard") (YStr "A profile.")
                 YNull
                 (YList (map YStr ["telnet_off"; "!bare"; "var_length=strict"])))
              ["telnet_off"; "!bare"; "var_length=strict"]
              _ eq_refl eq_refl)
    as (title & description & directives & Hch & Hds).
  eexists _, title, description. split; [reflexivity|].
  rewrite Hch. do 2 f_equal.
  repeat match goal with
         | Hds : Forall2 _ _ _ |- _ => inversion Hds; subst; clear Hds
         end.
  repeat match goal with
         | Hs : selection_element _ = Ok _ |- _ =>
             injection Hs as <-
         end.
  reflexivity.
Defined.

(** ** Dictionaries and leftovers *)

Lemma leftover_cons ks e d :
  leftover ks (e :: d)
  = if negb (existsb (fun k => key_is k e) ks)
    then e :: leftover ks d else leftover ks d.
Proof. reflexivity. Qed.

Lemma leftover_nil d : leftover [] d = d.
Proof.
  induction d as [|e d IH]; [done|]. rewrite leftover_cons.
  cbn [existsb negb]. by rewrite IH.
Qed.

Lemma dict_del_leftover k d : dict_del k d = leftover [k] d.
Proof.
  unfold dict_del, leftover. apply filter_ext. intros e. simpl.
  by rewrite orb_false_r.
Qed.

Lemma leftover_leftover ks ks' d :
  leftover ks (leftover ks' d) = leftover (ks' ++ ks) d.
Proof.
  induction d as [|e d IH]; [done|]. rewrite !leftover_cons.
  rewrite existsb_app.
  destruct (existsb _ ks') eqn:E1; cbn [negb orb]; [done|].
  rewrite leftover_cons.
  destruct (existsb _ ks) eqn:E2; cbn [negb]; by rewrite IH.
Qed.

Lemma key_is_eqb k k' v : key_is k (YStr k', v) = String.eqb k' k.
Proof. done. Qed.

Lemma dict_get_cons k e d :
  dict_get k (e :: d) = if key_is k e then Some e.2 else dict_get k d.
Proof. unfold dict_get. simpl. by destruct (key_is k e). Qed.

Lemma existsb_key_is k v ks :
  existsb (fun k0 => key_is k0 (YStr k, v)) ks = existsb (String.eqb k) ks.
Proof. induction ks as [|k' ks IH]; simpl; [done|]. by rewrite IH. Qed.

Lemma dict_get_leftover k ks d :
  dict_get k (leftover ks d)
  = if existsb (String.eqb k) ks then None else dict_get k d.
Proof.
  induction d as [|[k' v] d IH].
  - by destruct existsb.
  - rewrite leftover_cons, dict_get_cons.
    destruct (key_is k (k', v)) eqn:Hk.
    + destruct k' as [| | |s| |]; try done. simpl in Hk.
      apply String.eqb_eq in Hk as ->. rewrite existsb_key_is.
      destruct (existsb (String.eqb k) ks) eqn:Hks; cbn [negb].
      * exact IH.
      * rewrite dict_get_cons. cbn [key_is eq_str fst].
        by rewrite String.eqb_refl.
    + destruct (existsb (fun k0 => key_is k0 (k', v)) ks); cbn [negb].
      * exact IH.
      * by rewrite dict_get_cons, Hk, IH.
Qed.

Lemma dict_get_In k d v : dict_get k d = Some v → In (YStr k, v) d.
Proof.
  unfold dict_get. induction d as [|[k' v'] d IH]; simpl; [done|].
  destruct (key_is k (k', v')) eqn:Hk; simpl.
  - intros [= ->]. left. destruct k'; try done. simpl in Hk.
    by apply String.eqb_eq in Hk as ->.
  - eauto.
Qed.

Lemma truthy_dict d : truthy (YDict d) = false ↔ d = [].
Proof. by destruct d. Qed.

(** The normal form of a document from which keys were deleted. *)
Ltac norm_dict :=
  unfold required_key, dict_pop in *;
  rewrite ?dict_del_leftover, ?leftover_leftover in *;
  simpl app in *;
  rewrite ?dict_get_leftover in *;
  simpl existsb in *; cbv iota in *.

(** One step of a parser: the bind is run, the document is put back in
    normal form. *)
Ltac step := cbn [mbind result_bind mret result_ret]; norm_dict.

(** ** Loops *)

Lemma for_each_inv {A S} (P : S → Prop) (body : S → A → result S) s l r :
  P s → (∀ s x s', P s → body s x = Ok s' → P s') →
  for_each body s l = Ok r → P r.
Proof.
  intros Hs Hbody. revert s Hs. induction l as [|x l IH]; simpl; intros s Hs.
  - by intros [= <-].
  - intros Hr. inv_ok Hr. eauto.
Qed.

(** ** The root of an element under construction *)

Lemma same_root_refl a : same_root a a.
Proof. done. Qed.

Lemma same_root_trans a b c : same_root a b → same_root b c → same_root a c.
Proof. intros (?&?&?) (?&?&?). repeat split; congruence. Qed.

Lemma same_root_append c p : same_root p (ET_append c p).
Proof. by destruct p. Qed.

Lemma same_root_on_last f p : same_root p (on_last f p).
Proof. destruct p as [t a x cs]. simpl. by destruct (rev cs). Qed.

Lemma same_root_SubElement t p : same_root p (ET_SubElement t p).
Proof. apply same_root_append. Qed.

Lemma same_root_for_each {A} (body : element → A → result element) s l r :
  (∀ s x s', body s x = Ok s' → same_root s s') →
  for_each body s l = Ok r → same_root s r.
Proof.
  intros Hbody. apply (for_each_inv (same_root s)); [apply same_root_refl|].
  intros s1 x s2 Hs1 Hb. eapply same_root_trans; eauto.
Qed.

Section roots.
Context {E : Externals}.

Lemma same_root_add_sub_element p tag_ data el :
  add_sub_element p tag_ data = Ok el → same_root p el.
Proof. intros [c ->]%add_sub_element_Ok. apply same_root_append. Qed.

Lemma same_root_add_warning_elements p warnings el :
  add_warning_elements p warnings = Ok el → same_root p el.
Proof.
  unfold add_warning_elements. intros Hel. inv_ok Hel.
  revert Hel. apply same_root_for_each.
  intros s x s' Hbody. inv_ok Hbody. subst s'.
  eapply same_root_trans; [by eapply same_root_add_sub_element|].
  apply same_root_on_last.
Qed.

End roots.

(** ** The layout of a rendered rule *)

Lemma for_each_layout {A} (body : element → A → result element) s l r :
  (∀ s x s', body s x = Ok s' → ∃ cs, s' = append_all cs s) →
  for_each body s l = Ok r → ∃ cs, r = append_all cs s.
Proof.
  intros Hbody.
  apply (for_each_inv (fun r => ∃ cs, r = append_all cs s)).
  - exists []. by rewrite append_all_nil.
  - intros s1 x s2 (cs & ->) Hb. apply Hbody in Hb as (ds & ->).
    exists (cs ++ ds). by rewrite append_all_app.
Qed.

Lemma split_nonempty c s : Py.split c s ≠ [].
Proof.
  destruct s as [|x s]; simpl; [done|].
  destruct (Py.chr_eqb x c); [done|]. by destruct (Py.split c s).
Qed.

Lemma split_single c s b : Py.split c s = [b] → b = s.
Proof.
  revert b. induction s as [|x s IH]; intros b; simpl.
  - by intros [= <-].
  - destruct (Py.chr_eqb x c).
    + intros [= _ Hs]. by destruct (split_nonempty c s).
    + destruct (Py.split c s) as [|h t] eqn:Hs;
        [by destruct (split_nonempty c s)|].
      intros [= <- ->]. by rewrite (IH h eq_refl).
Qed.

Lemma split_cut c s a b :
  Py.split c s = [a; b] → cut_at c s = Some (a, b).
Proof.
  revert a. induction s as [|x s IH]; intros a; simpl; [done|].
  destruct (Py.chr_eqb x c) eqn:Hx.
  - intros [= <- Hs]. by rewrite (split_single _ _ _ Hs).
  - destruct (Py.split c s) as [|h [|b' [|? ?]]] eqn:Hs; try done.
    intros [= <- <-]. by rewrite (IH h eq_refl).
Qed.

Lemma cut_at_contains c s : Py.contains c s = false → cut_at c s = None.
Proof.
  induction s as [|x s IH]; simpl; [done|].
  intros [Hx Hs]%orb_false_elim. by rewrite Hx, (IH Hs).
Qed.

Lemma cut_at_app c a b :
  Py.contains c a = false → cut_at c (a +:+ String c b) = Some (a, b).
Proof.
  induction a as [|x a IH]; simpl.
  - by rewrite chr_eqb_refl.
  - intros [Hx Ha]%orb_false_elim. by rewrite Hx, (IH Ha).
Qed.

Lemma sdict_get_set_eq {A} k (v : A) d : sdict_get k (sdict_set k v d) = Some v.
Proof.
  induction d as [|[k' v'] d IH]; simpl.
  - by rewrite String.eqb_refl.
  - destruct (String.eqb k' k) eqn:Hk; simpl.
    + by rewrite String.eqb_refl.
    + by rewrite Hk.
Qed.

Lemma sdict_get_set_ne {A} k k' (v : A) d :
  k ≠ k' → sdict_get k (sdict_set k' v d) = sdict_get k d.
Proof.
  intros Hne.
  assert (Hkk : String.eqb k' k = false) by (by apply String.eqb_neq).
  induction d as [|[k0 v0] d IH]; simpl.
  - by rewrite Hkk.
  - destruct (String.eqb k0 k') eqn:Hk; simpl.
    + apply String.eqb_eq in Hk as ->. by rewrite Hkk.
    + by rewrite IH.
Qed.

Lemma sdict_set_nonempty {A} k (v : A) d : sdict_set k v d ≠ [].
Proof. destruct d as [|[k' v'] d]; simpl; [done|]. by destruct String.eqb. Qed.

Lemma split_length c s : length (Py.split c s) = S (count_chr c s).
Proof.
  induction s as [|x s IH]; simpl; [done|].
  destruct (Py.chr_eqb x c); simpl.
  - by rewrite IH.
  - destruct (Py.split c s) as [|h t] eqn:Hs; simpl in *; congruence.
Qed.

Lemma count_chr_app c a b :
  count_chr c (a +:+ b) = (count_chr c a + count_chr c b)%nat.
Proof. induction a as [|x a IH]; simpl; [done|]. rewrite IH. lia. Qed.

Lemma count_chr_contains c s :
  Py.contains c s = negb (count_chr c s =? 0)%nat.
Proof.
  induction s as [|x s IH]; simpl; [done|].
  destruct (Py.chr_eqb x c); simpl; [done|exact IH].
Qed.

Lemma for_each_In {A S} (body : S → A → result S) s l r x :
  for_each body s l = Ok r → In x l → ∃ s1 s2, body s1 x = Ok s2.
Proof.
  revert s. induction l as [|y l IH]; intros s Hl Hin; [done|].
  simpl in Hl. inv_ok Hl. destruct Hin as [->|Hin]; eauto.
Qed.

Section layout.
Context {E : Externals}.

Lemma keyed_step_Ok_count tag_ acc key val acc' :
  keyed_step tag_ acc (YStr key, val) = Ok acc' →
  (count_chr "@" key ≤ 1)%nat.
Proof.
  unfold keyed_step. destruct acc as [rule main].
  rewrite count_chr_contains.
  destruct (count_chr "@" key =? 0)%nat eqn:Hc; simpl.
  - apply Nat.eqb_eq in Hc. lia.
  - intros Hs. inv_ok Hs. unfold unpack2 in Ha.
    pose proof (split_length "@" key) as Hlen.
    destruct (Py.split "@" key) as [|a' [|b' [|? ?]]]; try done.
    simpl in Hlen. lia.
Qed.


Lemma add_sub_element_layout p tag_ data el :
  add_sub_element p tag_ data = Ok el → ∃ c, el = append_all [c] p.
Proof.
  intros [c ->]%add_sub_element_Ok. exists c. by rewrite append_all_one.
Qed.

Lemma add_warning_elements_layout p warnings el :
  add_warning_elements p warnings = Ok el → ∃ cs, el = append_all cs p.
Proof.
  unfold add_warning_elements. intros Hel. inv_ok Hel.
  revert Hel. apply for_each_layout.
  intros s x s' Hbody. inv_ok Hbody. subst s'.
  apply add_sub_element_Ok in Ha1 as [c ->].
  exists [ET_set "category" a2 c].
  by rewrite on_last_append, append_all_one.
Qed.

(** The loop of [keyed_elements]: the rule element gets the qualified
    elements, the shared element gets the other entries. *)
Lemma keyed_loop tag_ entries rule main rule' main' :
  for_each (keyed_step tag_) (rule, main) entries = Ok (rule', main') →
  rule' = append_all (qualified_elements tag_ entries) rule
  ∧ main' =
      Element (tag main)
        (fold_left (fun a entry =>
             match entry.1 with
             | YStr key =>
                 if Py.contains "@" key then a else sdict_set key entry.2 a
             | _ => a
             end)
           entries (attrib main))
        (text main) (children main).
Proof.
  revert rule main. induction entries as [|[k v] es IH]; intros rule main.
  - simpl. intros [= <- <-]. by rewrite append_all_nil, element_eta.
  - simpl for_each. intros Hl. inv_ok Hl. destruct a as [rule1 main1].
    destruct (IH _ _ Hl) as [Hr Hm]. clear IH Hl. unfold keyed_step in Ha.
    destruct k as [| | |key| |]; try done.
    destruct (Py.contains "@" key) eqn:Hat.
    + inv_ok Ha. injection Ha as <- <-.
      unfold unpack2 in Ha0.
      destruct (Py.split "@" key) as [|a' [|b' [|? ?]]] eqn:Hs; try done.
      injection Ha0 as -> ->. apply split_cut in Hs.
      split.
      * rewrite Hr. unfold qualified_elements. simpl flat_map. rewrite Hs.
        rewrite on_last_SubElement, on_last_append.
        by rewrite <-append_all_app, append_all_one.
      * rewrite Hm. simpl. by rewrite Hat.
    + injection Ha as <- <-. split.
      * rewrite Hr. unfold qualified_elements. simpl flat_map.
        by rewrite (cut_at_contains _ _ Hat).
      * rewrite Hm. simpl. rewrite Hat. by destruct main.
Qed.

Lemma keyed_elements_layout tag_ rule entries el :
  keyed_elements tag_ rule entries = Ok el →
  ∃ es, entries = YDict es
        ∧ el = append_all (qualified_elements tag_ es ++ shared_part tag_ es)
                 rule.
Proof.
  unfold keyed_elements. intros Hel.
  inv_ok Hel; subst el;
    (destruct entries; try done; simpl in Ha; injection Ha as <-;
     exists d; split; [done|];
     apply keyed_loop in Ha0 as [-> Hm];
     rewrite <-append_all_app; unfold shared_part, shared_attrib;
     rewrite Hm in *; simpl in *).
  - rewrite Heql. by rewrite append_all_nil.
  - rewrite Heql. by rewrite append_all_one.
Qed.

Lemma platform_element_layout el platform id_ el' :
  platform_element el platform id_ = Ok el' →
  el' = append_all (platform_part XCCDF_PLATFORM_TO_CPE platform) el
  ∧ (truthy platform = true → platform_part XCCDF_PLATFORM_TO_CPE platform ≠ []).
Proof.
  unfold platform_element, platform_part.
  destruct (truthy platform) eqn:Ht.
  - intros Hel. inv_ok Hel. subst el'.
    destruct platform as [| | |s| |]; try done. simpl in Ha.
    destruct (sdict_get s XCCDF_PLATFORM_TO_CPE); [|done].
    injection Ha as <-.
    by rewrite on_last_SubElement, append_all_one.
  - intros [= <-]. by rewrite append_all_nil.
Qed.

Lemma add_sub_element_markup parent tag_ data :
  add_sub_element parent tag_ data
  = match ET_fromstring (markup tag_ data) with
    | Some c => Ok (ET_append c parent)
    | None =>
        Raise (RuntimeError
                 (AddSubElementError (tag parent) (markup tag_ data)))
    end.
Proof. done. Qed.

(** The loop over identifiers or references goes through when every key
    is one that it can take, and only then. *)
Lemma keyed_loop_total tag_ es : ∀ acc,
  Forall simple_key es → is_ok (for_each (keyed_step tag_) acc es) = true.
Proof.
  induction es as [|[k v] es IH]; intros [rule main] Hes; [done|].
  apply Forall_cons in Hes as [(key & Hk & Hcount) Hes].
  cbn [fst] in Hk. subst k. cbn [for_each].
  assert (Hstep : ∃ acc', keyed_step tag_ (rule, main) (YStr key, v) = Ok acc').
  { unfold keyed_step. rewrite count_chr_contains.
    pose proof (split_length "@" key) as Hlen.
    destruct (count_chr "@" key =? 0)%nat eqn:Hc; cbn [negb]; [eauto|].
    apply Nat.eqb_neq in Hc.
    destruct (Py.split "@" key) as [|a [|b [|? ?]]]; simpl in Hlen;
      try lia.
    cbn [unpack2 mbind result_bind]. eauto. }
  destruct Hstep as [acc' ->]. cbn [mbind result_bind]. by apply IH.
Qed.

Lemma keyed_elements_total tag_ rule es :
  Forall simple_key es →
  keyed_elements tag_ rule (YDict es)
  = Ok (append_all (qualified_elements tag_ es ++ shared_part tag_ es) rule).
Proof.
  intros Hes.
  destruct (keyed_elements tag_ rule (YDict es)) as [el|e] eqn:Hel.
  - by apply keyed_elements_layout in Hel as (es' & [= <-] & ->).
  - exfalso. unfold keyed_elements in Hel. cbn [items mbind result_bind] in Hel.
    pose proof (keyed_loop_total tag_ es (rule, ET_Element tag_) Hes) as Hok.
    destruct (for_each _ _ es) as [[rule' main']|e']; [|done].
    cbn [mbind result_bind] in Hel. by destruct (attrib main').
Qed.

Lemma keyed_elements_simple tag_ rule entries el :
  keyed_elements tag_ rule entries = Ok el →
  ∃ es, entries = YDict es ∧ Forall simple_key es.
Proof.
  unfold keyed_elements. intros Hel.
  destruct entries as [| | | | |es]; try done. exists es. split; [done|].
  cbn [items mbind result_bind] in Hel.
  destruct (for_each _ _ es) as [acc|] eqn:Hloop; [|done].
  apply List.Forall_forall. intros [k v] Hin.
  destruct (for_each_In _ _ _ _ _ Hloop Hin) as (s1 & s2 & Hstep).
  destruct k as [| | |key| |];
    try (by unfold keyed_step in Hstep; destruct s1).
  exists key. split; [done|]. by eapply keyed_step_Ok_count.
Qed.

(** The warnings of an entity render when each of them has a first
    entry whose text parses, and to one element each. *)
Lemma warnings_exact el warnings el' :
  add_warning_elements el warnings = Ok el'
  ↔ ∃ cs, warning_part warnings cs ∧ el' = append_all cs el.
Proof.
  unfold add_warning_elements, warning_part.
  destruct (iter warnings) as [ws|e]; cbn [mbind result_bind]; cycle 1.
  { split; [done|]. by intros (cs & (ws & [=] & _) & _). }
  revert el el'. induction ws as [|w ws IH]; intros el el'; cbn [for_each].
  - split.
    + intros [= <-]. exists []. split; [|by rewrite append_all_nil].
      exists []. split; [done|constructor].
    + intros (cs & (ws & [= <-] & Hcs) & ->). inversion Hcs.
      by rewrite append_all_nil.
  - split.
    + intros Hl. inv_ok Hl. inv_ok Ha. subst a.
      rewrite add_sub_element_markup in Ha1.
      destruct (ET_fromstring (markup "warning" a0)) as [c0|] eqn:Hparse;
        [|done].
      injection Ha1 as <-. rewrite on_last_append in Hl.
      apply IH in Hl as (cs & (ws' & [= <-] & Hcs) & ->).
      exists (ET_set "category" a2 c0 :: cs). split.
      * exists (w :: ws). split; [done|]. constructor; [|done].
        by exists a2, a0, c0.
      * by rewrite append_all_cons.
    + intros (cs & (ws' & [= <-] & Hcs) & ->).
      inversion Hcs as [|w' c ws' cs' (k & v & c0 & Hk & Hv & Hparse & ->) Hrest];
        subst.
      rewrite Hv. cbn [mbind result_bind].
      rewrite add_sub_element_markup, Hparse. cbn [mbind result_bind].
      rewrite Hk. cbn [mbind result_bind]. rewrite on_last_append.
      rewrite append_all_cons. apply IH. exists cs'. split; [|done].
      by exists ws.
Qed.

(** A rule renders exactly when its pieces are there, and to the
    element made of them. *)
Lemma Rule_layout_exact r el :
  Rule_to_xml_element r = Ok el
  ↔ ∃ title description rationale ids refs ocil ws,
      Rule_pieces r title description rationale ids refs ocil ws
      ∧ el = Rule_element r title description rationale ids refs
               (oval_part r) ocil ws.
Proof.
  assert (Hoval : ∀ e,
    (if truthy (Rule.external_oval r) then
       on_last (on_last (ET_set "href" (Rule.external_oval r)))
         (on_last (ET_SubElement "check-content-ref")
            (on_last
               (ET_set "system"
                  (YStr "http://oval.mitre.org/XMLSchema/oval-definitions-5"))
               (ET_SubElement "check" e)))
     else on_last (ET_set "id" (YStr (Rule.id_ r))) (ET_SubElement "oval" e))
    = append_all (oval_part r) e).
  { intros e. unfold oval_part. destruct (truthy (Rule.external_oval r)).
    - by rewrite !on_last_SubElement, !on_last_append, append_all_one.
    - by rewrite on_last_SubElement, append_all_one. }
  assert (Hocil : ∀ e e',
    (if truthy (Rule.ocil r) || truthy (Rule.ocil_clause r) then
       rule ← add_sub_element e "ocil"
                (if truthy (Rule.ocil r) then Rule.ocil r else YStr "");
       if truthy (Rule.ocil_clause r)
       then Ok (on_last (ET_set "clause" (Rule.ocil_clause r)) rule)
       else Ok rule
     else Ok e) = Ok e'
    ↔ ∃ oc, ocil_part r oc ∧ e' = append_all oc e).
  { intros e e'. unfold ocil_part.
    destruct (truthy (Rule.ocil r) || truthy (Rule.ocil_clause r)).
    - rewrite add_sub_element_markup.
      destruct (ET_fromstring _) as [c0|]; cbn [mbind result_bind].
      + split.
        * intros He'. eexists. split; [by exists c0|].
          rewrite append_all_one.
          destruct (truthy (Rule.ocil_clause r)); injection He' as <-;
            by rewrite ?on_last_append.
        * intros (oc & (c1 & [= <-] & ->) & ->). rewrite append_all_one.
          destruct (truthy (Rule.ocil_clause r)); by rewrite ?on_last_append.
      + split; [done|]. by intros (oc & (c1 & [=] & _) & _).
    - split.
      + intros [= <-]. exists []. by rewrite append_all_nil.
      + intros (oc & -> & ->). by rewrite append_all_nil. }
  unfold Rule_to_xml_element. fold (Rule_root r).
  split.
  - intros Hel. inv_ok Hel.
    rewrite add_sub_element_markup in Ha, Ha0, Ha1.
    destruct (ET_fromstring (markup "title" _)) as [t|] eqn:Ht; [|done].
    injection Ha as <-.
    destruct (ET_fromstring (markup "description" _)) as [d|] eqn:Hd; [|done].
    injection Ha0 as <-.
    destruct (ET_fromstring (markup "rationale" _)) as [ra|] eqn:Hra; [|done].
    injection Ha1 as <-.
    pose proof (keyed_elements_simple _ _ _ _ Ha2) as (ids & Hids & Hsi).
    pose proof (keyed_elements_simple _ _ _ _ Ha3) as (refs & Hrefs & Hsr).
    rewrite Hids in Ha2. rewrite Hrefs in Ha3.
    rewrite keyed_elements_total in Ha2 by done. injection Ha2 as <-.
    rewrite keyed_elements_total in Ha3 by done. injection Ha3 as <-.
    rewrite Hoval in Ha4. apply Hocil in Ha4 as (oc & Hoc & ->).
    apply warnings_exact in Ha5 as (ws & Hws & ->).
    pose proof (platform_element_layout _ _ _ _ Hel) as [-> Hplat].
    exists t, d, ra, ids, refs, oc, ws. split.
    + repeat split; try done.
      intros Hp. specialize (Hplat Hp). unfold platform_part in Hplat.
      rewrite Hp in Hplat.
      destruct (Rule.platform r) as [| | |name| |]; try done.
      destruct (sdict_get name XCCDF_PLATFORM_TO_CPE) as [cpe|] eqn:Hcpe;
        [|done].
      by exists name, cpe.
    + unfold Rule_element.
      rewrite <-!append_all_one, !append_all_app.
      f_equal; simpl; rewrite <-?app_assoc; done.
  - intros (t & d & ra & ids & refs & oc & ws
            & (Ht & Hd & Hra & Hids & Hsi & Hrefs & Hsr & Hoc & Hws & Hplat)
            & ->).
    rewrite add_sub_element_markup, Ht. cbn [mbind result_bind].
    rewrite add_sub_element_markup, Hd. cbn [mbind result_bind].
    rewrite add_sub_element_markup, Hra. cbn [mbind result_bind].
    rewrite Hids, keyed_elements_total by done. cbn [mbind result_bind].
    rewrite Hrefs, keyed_elements_total by done. cbn [mbind result_bind].
    rewrite Hoval.
    match goal with
    | |- (?m ≫= _) = _ =>
        assert (Hm : m = Ok (append_all oc
                               (append_all (oval_part r)
                                  (append_all
                                     (qualified_elements "ref" refs
                                      ++ shared_part "ref" refs)
                                     (append_all
                                        (qualified_elements "ident" ids
                                         ++ shared_part "ident" ids)
                                        (ET_append ra
                                           (ET_append d
                                              (ET_append t (Rule_root r)))))))))
          by (apply Hocil; by exists oc);
        rewrite Hm
    end.
    cbn [mbind result_bind].
    match goal with
    | |- (add_warning_elements ?e _ ≫= _) = _ =>
        assert (Hw : add_warning_elements e (Rule.warnings r)
                     = Ok (append_all ws e))
          by (apply warnings_exact; by exists ws);
        rewrite Hw
    end.
    cbn [mbind result_bind]. unfold platform_element, platform_part.
    destruct (truthy (Rule.platform r)) eqn:Hp.
    + destruct (Hplat eq_refl) as (name & cpe & Hname & Hcpe).
      rewrite Hname. cbn [table_lookup]. rewrite Hcpe.
      cbn [mbind result_bind]. rewrite on_last_SubElement.
      unfold Rule_element, platform_part. rewrite Hp, Hname, Hcpe.
      rewrite <-!append_all_one, !append_all_app.
      f_equal; f_equal; simpl; rewrite <-?app_assoc; done.
    + unfold Rule_element, platform_part. rewrite Hp.
      rewrite <-!append_all_one, !append_all_app.
      f_equal; f_equal; simpl; rewrite <-?app_assoc, ?app_nil_r; done.
Qed.

End layout.

(** ** The operator of a value *)

Lemma in_strs_In op l : in_strs (YStr op) l = true ↔ In op l.
Proof.
  unfold in_strs. rewrite existsb_exists. split.
  - intros (s & Hs & Heq). simpl in Heq. by apply String.eqb_eq in Heq as ->.
  - intros Hop. exists op. split; [done|]. simpl. apply String.eqb_refl.
Qed.

Lemma in_strs_false v l :
  (∀ s, In s l → v ≠ YStr s) → in_strs v l = false.
Proof.
  intros Hv. unfold in_strs. apply not_true_is_false.
  rewrite existsb_exists. intros (s & Hs & Heq).
  destruct v; try done. simpl in Heq. apply String.eqb_eq in Heq as ->.
  by apply (Hv s).
Qed.

Section operator.
Context {E : Externals}.

Lemma Value_root v el :
  Value_to_xml_element v = Ok el →
  same_root
    (let value := ET_set "type" (Value.type_ v)
                    (ET_set "id" (YStr (Value.id_ v)) (ET_Element "Value")) in
     let value :=
       if negb (eq_str (Value.operator v) "equals")
       then ET_set "operator" (Value.operator v) value else value in
     if Value.interactive v
     then ET_set "interactive" (YStr "true") value else value)
    el.
Proof.
  unfold Value_to_xml_element. intros Hel. inv_ok Hel.
  eapply same_root_trans; [apply same_root_SubElement|].
  eapply same_root_trans; [apply same_root_on_last|].
  eapply same_root_trans; [by eapply same_root_add_sub_element|].
  eapply same_root_trans; [by eapply same_root_add_warning_elements|].
  revert Hel. apply same_root_for_each.
  intros s [selector option_] s' [= <-].
  eapply same_root_trans; [apply same_root_SubElement|].
  destruct (negb (eq_str selector "default")).
  - eapply same_root_trans; apply same_root_on_last.
  - apply same_root_on_last.
Qed.

Lemma options_loop_total os : ∀ value,
  for_each (fun value '(selector, option_) =>
      let value := ET_SubElement "value" value in
      let value :=
        if negb (eq_str selector "default")
        then on_last (ET_set "selector" (YStr (str selector))) value
        else value in
      Ok (on_last (ET_set_text (YStr (str option_))) value))
    value os
  = Ok (append_all (map value_small os) value).
Proof.
  induction os as [|[selector option_] os IH]; intros value; simpl.
  - by rewrite append_all_nil.
  - rewrite IH, append_all_cons. do 2 f_equal. unfold value_small. simpl.
    destruct (eq_str selector "default"); simpl.
    + by rewrite on_last_SubElement.
    + by rewrite on_last_SubElement, on_last_append.
Qed.

(** A value renders exactly when its options are a mapping and its
    description and its warnings parse, and to the element made of
    them. *)
Lemma Value_layout_exact v el :
  Value_to_xml_element v = Ok el
  ↔ ∃ os description ws,
      Value.options v = YDict os
      ∧ ET_fromstring (markup "description" (Value.description v))
        = Some description
      ∧ warning_part (Value.warnings v) ws
      ∧ el = append_all
               ([Element "title" [] (Some (Value.title v)) []; description]
                ++ ws ++ map value_small os)
               (Value_root_element v).
Proof.
  unfold Value_to_xml_element. fold (Value_root_element v).
  rewrite on_last_SubElement, add_sub_element_markup.
  split.
  - intros Hel.
    destruct (ET_fromstring _) as [d|] eqn:Hd; [|done].
    cbn [mbind result_bind] in Hel. inv_ok Hel.
    apply warnings_exact in Ha as (ws & Hws & ->).
    destruct (Value.options v) as [| | | | |os]; try done.
    injection Ha0 as <-. rewrite options_loop_total in Hel.
    injection Hel as <-.
    exists os, d, ws. repeat split; try done.
    rewrite <-!append_all_one, !append_all_app.
    f_equal; simpl; rewrite <-?app_assoc; done.
  - intros (os & d & ws & Hos & Hd & Hws & ->).
    rewrite Hd. cbn [mbind result_bind].
    match goal with
    | |- (add_warning_elements ?e _ ≫= _) = _ =>
        assert (Hw : add_warning_elements e (Value.warnings v)
                     = Ok (append_all ws e))
          by (apply warnings_exact; by exists ws);
        rewrite Hw
    end.
    cbn [mbind result_bind]. rewrite Hos. cbn [items mbind result_bind].
    rewrite options_loop_total.
    rewrite <-!append_all_one, !append_all_app.
    do 2 f_equal; simpl; rewrite <-?app_assoc; done.
Qed.

(** C7. A value descriptor whose [operator] is anything but one of the
    seven enumerated strings does not parse: the parse raises, and once
    title, description and type are there it raises the invalid-operator
    error. With any of the seven a descriptor that is otherwise in order
    parses, and the value carries that operator. A value renders exactly
    when its options are a mapping and its description and warnings
    parse; the rendered element has an [operator] attribute, which holds
    the operator, exactly when the operator is not [equals]. *)
Theorem value_operator_enumerated :
  possible_operators =
    ["equals"; "not equal"; "greater than"; "less than";
     "greater than or equal"; "less than or equal"; "pattern match"] ∧
  (∀ yaml_file env doc operator,
     open_and_expand yaml_file env = Ok (Some doc) →
     dict_get "operator" doc = Some operator →
     (∀ s, In s possible_operators → operator ≠ YStr s) →
     (∃ e, Value_from_yaml yaml_file env = Raise e)
     ∧ (is_Some (dict_get "title" doc) →
        is_Some (dict_get "description" doc) →
        is_Some (dict_get "type" doc) →
        Value_from_yaml yaml_file env
        = Raise (ValueError (InvalidOperator operator yaml_file)))) ∧
  (∀ yaml_file env doc operator title description type_ interactive options,
     open_and_expand yaml_file env = Ok (Some doc) →
     In operator possible_operators →
     dict_get "operator" doc = Some (YStr operator) →
     dict_get "title" doc = Some title →
     dict_get "description" doc = Some description →
     dict_get "type" doc = Some type_ →
     lower (get_default "interactive" (YStr "false") doc) = Ok interactive →
     dict_get "options" doc = Some options →
     check_warnings (get_default "warnings" (YList []) doc) = Ok tt →
     leftover Value_keys doc = [] →
     Value_from_yaml yaml_file env
     = Ok (Some (Value.mk
                   (os_path.splitext (os_path.basename yaml_file)).1
                   title description type_ (YStr operator)
                   (String.eqb interactive "true") options
                   (get_default "warnings" (YList []) doc)))) ∧
  (∀ v el,
     Value_to_xml_element v = Ok el →
     sdict_get "operator" (attrib el)
     = if eq_str (Value.operator v) "equals" then None
       else Some (Value.operator v)) ∧
  (∀ v el,
     Value_to_xml_element v = Ok el
     ↔ ∃ os description ws,
         Value.options v = YDict os
         ∧ ET_fromstring (markup "description" (Value.description v))
           = Some description
         ∧ warning_part (Value.warnings v) ws
         ∧ el = append_all
                  ([Element "title" [] (Some (Value.title v)) [];
                    description]
                   ++ ws ++ map value_small os)
                  (Value_root_element v)) ∧
  (∀ v,
     sdict_get "operator" (attrib (Value_root_element v))
     = if eq_str (Value.operator v) "equals" then None
       else Some (Value.operator v)).
Proof.
  split; [done|]. split; [|split; [|split; [|split]]];
    [| | |apply Value_layout_exact|
     intros v; unfold Value_root_element; simpl;
     by destruct (eq_str (Value.operator v) "equals"),
          (Value.interactive v)].
  - intros yaml_file env doc operator Hload Hop Hnot.
    apply in_strs_false in Hnot.
    assert (Hgen : is_Some (dict_get "title" doc) →
        is_Some (dict_get "description" doc) →
        is_Some (dict_get "type" doc) →
        Value_from_yaml yaml_file env
        = Raise (ValueError (InvalidOperator operator yaml_file))).
    { intros [t Ht] [d Hd] [ty Hty]. unfold Value_from_yaml.
      rewrite Hload. step. rewrite Ht. step. rewrite Hd. step.
      rewrite Hty. step. by rewrite Hop, Hnot. }
    split; [|done].
    destruct (dict_get "title" doc) as [t|] eqn:Ht; cycle 1.
    { unfold Value_from_yaml. rewrite Hload. step.
      rewrite Ht. step. eauto. }
    destruct (dict_get "description" doc) as [d|] eqn:Hd; cycle 1.
    { unfold Value_from_yaml. rewrite Hload. step.
      rewrite Ht. step. rewrite Hd. step. eauto. }
    destruct (dict_get "type" doc) as [ty|] eqn:Hty; cycle 1.
    { unfold Value_from_yaml. rewrite Hload. step.
      rewrite Ht. step. rewrite Hd. step.
      rewrite Hty. step. eauto. }
    rewrite Hgen; eauto.
  - intros yaml_file env doc operator title description type_ interactive
      options Hload Hin Hop Ht Hd Hty Hi Ho Hw Hleft.
    apply in_strs_In in Hin. unfold get_default in *.
    unfold Value_from_yaml. rewrite Hload. step.
    rewrite Ht. step. rewrite Hd. step.
    rewrite Hty. step. rewrite Hop, Hin. step.
    rewrite Hi. step. rewrite Ho. step.
    rewrite Hw. step.
    unfold Value_keys in Hleft. rewrite Hleft. done.
  - intros v el Hel.
    destruct (Value_root v el Hel) as (_ & <- & _). simpl.
    destruct (eq_str (Value.operator v) "equals"), (Value.interactive v);
      done.
Qed.

End operator.

Lemma value_operator_enumerated_witness :
  let E : Externals := Demo.externals in
  let plain := Value.mk "plain" (YStr "Plain") (YStr "A plain value.")
                 (YStr "string") (YStr "equals") false
                 (YDict [(YStr "default", YStr "x")]) (YList []) in
  Value_from_yaml "guide/services/bad.var" YNull
  = Raise (ValueError (InvalidOperator (YStr "at least")
                         "guide/services/bad.var"))
  ∧ (∃ v el,
       Value_from_yaml "guide/services/var_length.var" YNull = Ok (Some v)
       ∧ Value.operator v = YStr "greater than or equal"
       ∧ Value_to_xml_element v = Ok el
       ∧ attrib el
         = [("id", YStr "var_length"); ("type", YStr "number");
            ("operator", YStr "greater than or equal")]
       ∧ sdict_get "operator" (attrib el)
         = Some (YStr "greater than or equal"))
  ∧ (∃ el,
       Value_to_xml_element plain = Ok el
       ∧ attrib el = [("id", YStr "plain"); ("type", YStr "string")]
       ∧ sdict_get "operator" (attrib el) = None).
Proof.
  intros E plain.
  pose proof (@value_operator_enumerated E)
    as (_ & Hbad & Hgood & Hattr & Hrender & _).
  split; [|split].
  - apply (proj2 (Hbad "guide/services/bad.var" YNull Demo.bad_operator_doc
                    (YStr "at least") eq_refl eq_refl
                    ltac:(intros s Hin; simpl in Hin;
                          repeat destruct Hin as [<-|Hin]; done)));
      eexists; reflexivity.
  - assert (Hv : ∃ v, Value_from_yaml "guide/services/var_length.var" YNull
                      = Ok (Some v)
                      ∧ Value.operator v = YStr "greater than or equal").
    { eexists. split.
      + eapply (Hgood "guide/services/var_length.var" YNull Demo.value_doc
                  "greater than or equal");
          [reflexivity|simpl; tauto|reflexivity..].
      + reflexivity. }
    destruct Hv as (v & Hv & Hop).
    assert (Hel : ∃ el, Value_to_xml_element v = Ok el
                        ∧ attrib el
                          = [("id", YStr "var_length");
                             ("type", YStr "number");
                             ("operator", YStr "greater than or equal")]).
    { assert (Hv' : Some v = Some (Value.mk "var_length"
                (YStr "Minimum length") (YStr "Length of a password.")
                (YStr "number") (YStr "greater than or equal") false
                (YDict [(YStr "default", YInt 12); (YStr "strict", YInt 15)])
                (YList []))).
      { assert (Hinj : ∀ a b : option Value.t, Ok a = Ok b → a = b)
          by (by intros a b [= ->]).
        apply Hinj. rewrite <-Hv. vm_compute. reflexivity. }
      injection Hv' as ->.
      eexists. split.
      + apply Hrender.
        exists [(YStr "default", YInt 12); (YStr "strict", YInt 15)],
          (Element "description" [] (Some (YStr "Length of a password.")) []),
          [].
        split; [reflexivity|]. split; [vm_compute; reflexivity|].
        split; [exists []; split; [reflexivity|constructor]|reflexivity].
      + vm_compute. reflexivity. }
    destruct Hel as (el & Hel & Hattrib).
    exists v, el. split; [exact Hv|]. split; [exact Hop|].
    split; [exact Hel|]. split; [exact Hattrib|].
    rewrite (Hattr v el Hel), Hop. reflexivity.
  - eexists. split; [|split].
    + apply Hrender.
      exists [(YStr "default", YStr "x")],
        (Element "description" [] (Some (YStr "A plain value.")) []), [].
      split; [reflexivity|]. split; [vm_compute; reflexivity|].
      split; [exists []; split; [reflexivity|constructor]|reflexivity].
    + vm_compute. reflexivity.
    + vm_compute. reflexivity.
Defined.


(** ** Qualified identifiers and references *)

Lemma shared_attrib_skip (es : ydict) k a :
  (∀ v, ¬ In (YStr k, v) es) →
  sdict_get k
    (fold_left (fun a entry =>
         match entry.1 with
         | YStr key =>
             if Py.contains "@" key then a else sdict_set key entry.2 a
         | _ => a
         end)
       es a)
  = sdict_get k a.
Proof.
  revert a. induction es as [|[k' v'] es IH]; intros a Hk; simpl; [done|].
  rewrite IH; [|intros v Hv; apply (Hk v); by right].
  destruct k' as [| | |key| |]; try done.
  destruct (Py.contains "@" key); [done|].
  apply sdict_get_set_ne. intros ->. apply (Hk v'). by left.
Qed.

Lemma shared_attrib_get es k v :
  NoDup (map fst es) → In (YStr k, v) es → Py.contains "@" k = false →
  sdict_get k (shared_attrib es) = Some v.
Proof.
  unfold shared_attrib. generalize (@nil (string * yaml)).
  induction es as [|[k' v'] es IH]; intros a Hnd Hin Hat; [done|].
  simpl in Hnd. apply NoDup_cons in Hnd as [Hk' Hnd].
  destruct Hin as [[= -> ->]|Hin]; simpl.
  - rewrite Hat, shared_attrib_skip; [apply sdict_get_set_eq|].
    intros v0 Hv0. apply Hk'. apply list_elem_of_In.
    by apply (in_map fst) in Hv0.
  - by apply IH.
Qed.

Lemma shared_attrib_none es :
  (∀ k v, In (YStr k, v) es → Py.contains "@" k = true) →
  shared_attrib es = [].
Proof.
  unfold shared_attrib. generalize (@nil (string * yaml)) as a.
  induction es as [|[k v] es IH]; intros a Hall; simpl; [done|].
  rewrite IH; [|intros k' v' Hin; apply (Hall k' v'); by right].
  destruct k as [| | |key| |]; try done.
  by rewrite (Hall key v (or_introl eq_refl)).
Qed.

Section qualified.
Context {E : Externals}.

(** C5, as amended. The loop over the identifiers (or the references) of
    a rule goes through exactly when every key is a string with one [@]
    at most, and then it appends, in the order of the entries, one
    element for every entry whose key has an [@], and after them one
    shared element for the other entries, which is there only when it
    has an attribute. In a rendered rule the identifiers come right
    after the three texts and the references right after the
    identifiers. The element of an entry [policy@product], the policy
    not being called [prodtype], has the value of the entry under the
    name of the policy and the product under [prodtype], and nothing
    else. The entries whose key has no [@] are the attributes of the
    shared element. *)
Theorem qualified_keys_render_apart :
  (∀ tag_ rule es,
     Forall simple_key es →
     keyed_elements tag_ rule (YDict es)
     = Ok (append_all (qualified_elements tag_ es ++ shared_part tag_ es)
             rule)) ∧
  (∀ tag_ rule entries el,
     keyed_elements tag_ rule entries = Ok el →
     ∃ es, entries = YDict es ∧ Forall simple_key es) ∧
  (∀ r el,
     Rule_to_xml_element r = Ok el →
     ∃ ids refs title description rationale rest,
       Rule.identifiers r = YDict ids ∧ Forall simple_key ids
       ∧ Rule.references r = YDict refs ∧ Forall simple_key refs
       ∧ children el =
           [title; description; rationale]
           ++ qualified_elements "ident" ids ++ shared_part "ident" ids
           ++ qualified_elements "ref" refs ++ shared_part "ref" refs
           ++ rest) ∧
  (∀ tag_ es,
     Forall simple_key es →
     length (qualified_elements tag_ es)
     = length (List.filter
                 (fun e => match e.1 with
                           | YStr key => Py.contains "@" key
                           | _ => false
                           end) es)) ∧
  (∀ tag_ es policy product val,
     In (YStr (policy +:+ "@" +:+ product), val) es →
     Py.contains "@" policy = false →
     Py.contains "@" product = false →
     In (qualified_element tag_ policy product val)
       (qualified_elements tag_ es)) ∧
  (∀ tag_ policy product val,
     policy ≠ "prodtype" →
     qualified_element tag_ policy product val
     = Element tag_ [(policy, val); ("prodtype", YStr product)] None []) ∧
  (∀ tag_ es,
     (shared_attrib es = [] ∧ shared_part tag_ es = [])
     ∨ (shared_attrib es ≠ []
        ∧ shared_part tag_ es = [Element tag_ (shared_attrib es) None []])) ∧
  (∀ es key val,
     NoDup (map fst es) → In (YStr key, val) es →
     Py.contains "@" key = false →
     sdict_get key (shared_attrib es) = Some val) ∧
  (∀ es,
     (∀ key val, In (YStr key, val) es → Py.contains "@" key = true) →
     shared_attrib es = []).
Proof.
  split; [|split; [|split; [|split; [|split; [|split; [|split; [|split]]]]]]].
  - apply keyed_elements_total.
  - apply keyed_elements_simple.
  - intros r el Hel.
    apply Rule_layout_exact in Hel
      as (title & description & rationale & ids & refs & ocil & ws
          & (_ & _ & _ & Hids & Hsi & Hrefs & Hsr & _) & ->).
    exists ids, refs, title, description, rationale,
      (oval_part r ++ ocil ++ ws
       ++ platform_part XCCDF_PLATFORM_TO_CPE (Rule.platform r)).
    repeat split; try done.
    unfold Rule_element, append_all, Rule_root. simpl children.
    destruct (negb (eq_str (Rule.prodtype r) "all")); simpl;
      by rewrite <-!app_assoc.
  - intros tag_ es Hes. unfold qualified_elements.
    induction Hes as [|[k v] es (key & Hk & Hcount) _ IH]; [done|].
    cbn [fst] in Hk. subst k. cbn [flat_map List.filter fst snd].
    rewrite length_app, IH.
    destruct (Py.contains "@" key) eqn:Hat.
    + pose proof (split_length "@" key) as Hlen.
      rewrite count_chr_contains in Hat.
      apply negb_true_iff, Nat.eqb_neq in Hat.
      destruct (Py.split "@" key) as [|a [|b [|? ?]]] eqn:Hs;
        simpl in Hlen; try lia.
      by rewrite (split_cut _ _ _ _ Hs).
    + by rewrite (cut_at_contains _ _ Hat).
  - intros tag_ es policy product val Hin Hat _.
    unfold qualified_elements. apply in_flat_map.
    eexists. split; [exact Hin|]. simpl.
    change ("@" +:+ product) with (String "@" product).
    rewrite (cut_at_app _ _ _ Hat). by left.
  - intros tag_ policy product val Hne. unfold qualified_element. simpl.
    by apply String.eqb_neq in Hne as ->.
  - intros tag_ es. unfold shared_part.
    destruct (shared_attrib es); [by left|by right].
  - apply shared_attrib_get.
  - apply shared_attrib_none.
Qed.

End qualified.

Lemma qualified_keys_render_apart_witness :
  let E : Externals := Demo.externals in
  let ids := [(YStr "cce", YStr "27401-6");
              (YStr "stigid@rhel7", YStr "RHEL-07-1")] in
  let r := Rule.mk "service_telnet_disabled" (YStr "all")
             (YStr "Disable telnet")
             (YStr "The telnet service is not to run.")
             (YStr "Telnet is not encrypted.") (YStr "high")
             (YDict [(YStr "nist", YStr "CM-7")]) (YDict ids) YNull YNull
             YNull (YList []) YNull in
  Rule_from_yaml "guide/services/service_telnet_disabled.rule" YNull
  = Ok (Some r)
  ∧ keyed_elements "ident" (ET_Element "Rule") (YDict ids)
    = Ok (Element "Rule" [] None
            [Element "ident"
               [("stigid", YStr "RHEL-07-1"); ("prodtype", YStr "rhel7")]
               None [];
             Element "ident" [("cce", YStr "27401-6")] None []])
  ∧ (∃ el title description rationale rest,
       Rule_to_xml_element r = Ok el
       ∧ children el
         = [title; description; rationale;
            Element "ident"
              [("stigid", YStr "RHEL-07-1"); ("prodtype", YStr "rhel7")]
              None [];
            Element "ident" [("cce", YStr "27401-6")] None [];
            Element "ref" [("nist", YStr "CM-7")] None []]
           ++ rest).
Proof.
  intros E ids r.
  pose proof (@qualified_keys_render_apart E) as (Hloop & _ & Hrule & _).
  split; [vm_compute; reflexivity|]. split.
  - rewrite Hloop; [vm_compute; reflexivity|].
    repeat constructor; eexists; (split; [reflexivity|vm_compute; lia]).
  - assert (Hel : ∃ el, Rule_to_xml_element r = Ok el)
      by (eexists; vm_compute; reflexivity).
    destruct Hel as [el Hel].
    destruct (Hrule r el Hel)
      as (ids' & refs' & title & description & rationale & rest
          & [= <-] & _ & [= <-] & _ & Hch).
    exists el, title, description, rationale, rest.
    split; [exact Hel|exact Hch].
Defined.

(** C5, as stated, fails twice. A key with two [@] is split in three and
    cannot be unpacked into a policy and a product: the descriptor
    parses, its identifiers pass the validation, and the rule does not
    render, so that the entry gets no element. And on a key whose policy
    is called [prodtype] the product takes the place of the value: the
    descriptor parses, the rule renders, and no child of the rendered
    rule has an attribute [prodtype] that holds the value of the
    entry. *)
Lemma qualified_key_counterexample :
  (∃ r,
     Rule_from_yaml (E := Demo.externals) "guide/services/twice.rule" YNull
     = Ok (Some r)
     ∧ Rule.identifiers r
       = YDict [(YStr "stigid@rhel7@x", YStr "RHEL-07-1")]
     ∧ Rule_to_xml_element (E := Demo.externals) r
       = Raise (ValueError (UnpackMismatch 2 3)))
  ∧ (∃ r el,
       Rule_from_yaml (E := Demo.externals) "guide/services/shadow.rule" YNull
       = Ok (Some r)
       ∧ Rule.identifiers r
         = YDict [(YStr "prodtype@rhel7", YStr "RHEL-07-1")]
       ∧ Rule_to_xml_element (E := Demo.externals) r = Ok el
       ∧ ¬ ∃ child,
             In child (children el)
             ∧ sdict_get "prodtype" (attrib child)
               = Some (YStr "RHEL-07-1")).
Proof.
  split.
  - eexists. split; [vm_compute; reflexivity|].
    split; vm_compute; reflexivity.
  - eexists _, _. split; [vm_compute; reflexivity|].
    split; [vm_compute; reflexivity|].
    split; [vm_compute; reflexivity|].
    intros (child & Hin & Hget). cbn [children In] in Hin.
    repeat destruct Hin as [<-|Hin]; try discriminate Hget. done.
Qed.

(** ** The check of a rule *)

(** The fields of a parsed rule, read off the document. *)
Ltac inv_pops :=
  repeat match goal with
  | H : dict_pop _ _ _ = (_, _) |- _ =>
      unfold dict_pop in H; injection H as ? ?; subst
  end.

Section oval.
Context {E : Externals}.

Lemma Rule_from_yaml_external_oval yaml_file env doc r :
  open_and_macro_expand yaml_file env = Ok (Some doc) →
  Rule_from_yaml yaml_file env = Ok (Some r) →
  Rule.external_oval r = get_default "oval_external_content" YNull doc.
Proof.
  intros Hload Hr. unfold Rule_from_yaml in Hr. rewrite Hload in Hr.
  cbn [mbind result_bind] in Hr.
  destruct (os_path.splitext (os_path.basename yaml_file)) as [rule_id ext].
  inv_ok Hr. inv_pops. cbn [Rule.external_oval].
  unfold get_default. norm_dict. done.
Qed.

(** C6. A descriptor without [oval_external_content] gives a rule with
    no external OVAL reference, and one with it gives a rule with that
    reference. A rule renders exactly when its pieces are there, and then
    to the element made of them: the three texts, the identifiers, the
    references, then one element for the check, then the OCIL, the
    warnings and the platform, and nothing else. For a rule with no
    external OVAL reference the one element is an [oval] element whose
    [id] is the id of the rule; for a rule with one it is, instead, a
    [check] element with a [check-content-ref] whose [href] is that
    reference. *)
Theorem oval_pointer_or_check :
  (∀ yaml_file env doc r,
     open_and_macro_expand yaml_file env = Ok (Some doc) →
     Rule_from_yaml yaml_file env = Ok (Some r) →
     (dict_get "oval_external_content" doc = None →
      Rule.external_oval r = YNull)
     ∧ (∀ href, dict_get "oval_external_content" doc = Some href →
        Rule.external_oval r = href)) ∧
  (∀ r el,
     Rule_to_xml_element r = Ok el
     ↔ ∃ title description rationale ids refs ocil ws,
         Rule_pieces r title description rationale ids refs ocil ws
         ∧ el = Rule_element r title description rationale ids refs
                  (if truthy (Rule.external_oval r) then
                     [Element "check"
                        [("system",
                          YStr "http://oval.mitre.org/XMLSchema/oval-definitions-5")]
                        None
                        [Element "check-content-ref"
                           [("href", Rule.external_oval r)] None []]]
                   else [Element "oval" [("id", YStr (Rule.id_ r))] None []])
                  ocil ws) ∧
  (∀ r title description rationale ids refs checks ocil ws,
     children
       (Rule_element r title description rationale ids refs checks ocil ws)
     = [title; description; rationale]
       ++ (qualified_elements "ident" ids ++ shared_part "ident" ids)
       ++ (qualified_elements "ref" refs ++ shared_part "ref" refs)
       ++ checks ++ ocil ++ ws
       ++ platform_part XCCDF_PLATFORM_TO_CPE (Rule.platform r)).
Proof.
  split; [|split].
  - intros yaml_file env doc r Hload Hr.
    rewrite (Rule_from_yaml_external_oval _ _ _ _ Hload Hr).
    unfold get_default. split.
    + by intros ->.
    + by intros href ->.
  - intros r el. apply Rule_layout_exact.
  - intros r title description rationale ids refs checks ocil ws.
    unfold Rule_element, append_all, Rule_root.
    by destruct (negb (eq_str (Rule.prodtype r) "all")).
Qed.

End oval.

Lemma oval_pointer_or_check_witness :
  let E : Externals := Demo.externals in
  let local := Rule.mk "bare" (YStr "all") (YStr "Bare") (YStr "d")
                 (YStr "r") (YStr "low") (YDict []) (YDict []) YNull YNull
                 YNull (YList []) YNull in
  let remote := Rule.mk "far" (YStr "all") (YStr "Far") (YStr "d")
                  (YStr "r") (YStr "low") (YDict []) (YDict []) YNull YNull
                  (YStr "remote.xml") (YList []) YNull in
  Rule_from_yaml "guide/services/bare/rule.yml" YNull = Ok (Some local)
  ∧ Rule.external_oval local = YNull
  ∧ Rule_to_xml_element local
    = Ok (Element "Rule" [("id", YStr "bare"); ("severity", YStr "low")] None
            [Element "title" [] (Some (YStr "Bare")) [];
             Element "description" [] (Some (YStr "d")) [];
             Element "rationale" [] (Some (YStr "r")) [];
             Element "oval" [("id", YStr "bare")] None []])
  ∧ Rule_to_xml_element remote
    = Ok (Element "Rule" [("id", YStr "far"); ("severity", YStr "low")] None
            [Element "title" [] (Some (YStr "Far")) [];
             Element "description" [] (Some (YStr "d")) [];
             Element "rationale" [] (Some (YStr "r")) [];
             Element "check"
               [("system",
                 YStr "http://oval.mitre.org/XMLSchema/oval-definitions-5")]
               None
               [Element "check-content-ref" [("href", YStr "remote.xml")]
                  None []]]).
Proof.
  intros E local remote.
  pose proof (@oval_pointer_or_check E) as (Hparse & Hrender & _).
  assert (Hlocal : Rule_from_yaml "guide/services/bare/rule.yml" YNull
                   = Ok (Some local)) by (vm_compute; reflexivity).
  split; [exact Hlocal|]. split.
  { exact (proj1 (Hparse "guide/services/bare/rule.yml" YNull
                    Demo.bare_rule_doc local eq_refl Hlocal) eq_refl). }
  split.
  - apply Hrender.
    exists (Element "title" [] (Some (YStr "Bare")) []),
      (Element "description" [] (Some (YStr "d")) []),
      (Element "rationale" [] (Some (YStr "r")) []), [], [], [], [].
    split; [|vm_compute; reflexivity].
    repeat split; try (vm_compute; reflexivity); try constructor.
    + exists []. split; [reflexivity|constructor].
    + intros Hp. vm_compute in Hp. discriminate Hp.
  - apply Hrender.
    exists (Element "title" [] (Some (YStr "Far")) []),
      (Element "description" [] (Some (YStr "d")) []),
      (Element "rationale" [] (Some (YStr "r")) []), [], [], [], [].
    split; [|vm_compute; reflexivity].
    repeat split; try (vm_compute; reflexivity); try constructor.
    + exists []. split; [reflexivity|constructor].
    + intros Hp. vm_compute in Hp. discriminate Hp.
Defined.

(** ** Push-down of the platform *)

Lemma lookup_set_heap_eq (h : list obj) i o o' :
  h !! i = Some o → <[i := o']> h !! i = Some o'.
Proof.
  intros Hi. apply list_lookup_insert_eq. by eapply lookup_lt_Some.
Qed.

Section platform.
Context {E : Externals}.

(** The platform is the last thing a rule renders, and the only thing in
    which its platform is looked at. *)
Lemma Rule_render_set_platform r p :
  Rule_to_xml_element (Rule.set_platform p r)
  = Rule_to_xml_element (Rule.set_platform YNull r)
    ≫= fun e => platform_element e p (Rule.id_ r).
Proof.
  unfold Rule_to_xml_element.
  cbn [Rule.set_platform Rule.id_ Rule.prodtype Rule.title Rule.description
       Rule.rationale Rule.severity Rule.references Rule.identifiers
       Rule.ocil_clause Rule.ocil Rule.external_oval Rule.warnings
       Rule.platform].
  repeat match goal with
  | |- (?m ≫= _) = (?m ≫= _) ≫= _ =>
      destruct m; cbn [mbind result_bind]; [|done]
  end.
  done.
Qed.

Lemma Rule_set_platform_id r : Rule.set_platform (Rule.platform r) r = r.
Proof. by destruct r. Qed.

Lemma Rule_render_without_platform r el0 :
  truthy (Rule.platform r) = false →
  Rule_to_xml_element r = Ok el0 →
  Rule_to_xml_element (Rule.set_platform YNull r) = Ok el0.
Proof.
  intros Hp Hel. rewrite <-(Rule_set_platform_id r) in Hel.
  rewrite Rule_render_set_platform in Hel.
  destruct (Rule_to_xml_element (Rule.set_platform YNull r)); [|done].
  cbn [mbind result_bind] in Hel. unfold platform_element in Hel.
  by rewrite Hp in Hel.
Qed.

Lemma push_platform_run g child o st :
  heap st !! child = Some o →
  truthy (Group.platform g) = true →
  (∀ b, o ≠ OBenchmark b) →
  ∃ p, obj_platform o = Ok p
       ∧ push_platform g child st
         = (if truthy p then st
            else set_heap (<[child := obj_set_platform (Group.platform g) o]>
                             (heap st)) st,
            Ok tt).
Proof.
  intros Hc Hg Hnb. unfold push_platform. rewrite Hg.
  rewrite bind_run, (get_obj_run _ _ _ Hc).
  destruct o as [b|c|r]; [by destruct (Hnb b)|..];
    (eexists; split; [reflexivity|]); rewrite bind_run; unfold lift;
    cbn [obj_platform];
    match goal with
    | |- context [negb (truthy ?p)] => destruct (truthy p)
    end; done.
Qed.

End platform.

Lemma set_heap_set_heap h1 h2 st : set_heap h2 (set_heap h1 st) = set_heap h2 st.
Proof. done. Qed.

Lemma heap_set_heap h st : heap (set_heap h st) = h.
Proof. done. Qed.

Lemma obj_id_set_platform p o : obj_id_ (obj_set_platform p o) = obj_id_ o.
Proof. by destruct o. Qed.

(** Linking a child into a group that has a platform: the child gets the
    platform unless it has one, then the group gets the child. *)
Lemma link_run self child g o st :
  heap st !! self = Some (OGroup g) →
  heap st !! child = Some o →
  child ≠ self →
  (∀ b, o ≠ OBenchmark b) →
  truthy (Group.platform g) = true →
  ∃ p, obj_platform o = Ok p ∧
    let o' := if truthy p then o
              else obj_set_platform (Group.platform g) o in
    Group_add_rule self (Some child) st
    = (set_heap
         (<[self := OGroup (Group.set_rules
                              (sdict_set (obj_id_ o) child (Group.rules g)) g)]>
            (<[child := o']> (heap st))) st, Ok tt)
    ∧ Group_add_group self (Some child) st
      = (set_heap
           (<[self := OGroup (Group.set_groups
                                (sdict_set (obj_id_ o) child (Group.groups g))
                                g)]>
              (<[child := o']> (heap st))) st, Ok tt).
Proof.
  intros Hself Hchild Hne Hnb Hg.
  destruct (push_platform_run g child o st Hchild Hg Hnb) as (p & Hp & Hpush).
  exists p. split; [done|]. intros o'.
  set (st1 := set_heap (<[child := o']> (heap st)) st).
  assert (Hpush' : push_platform g child st = (st1, Ok tt)).
  { rewrite Hpush. unfold st1, o'. destruct (truthy p); [|done].
    by rewrite list_insert_id, set_heap_id. }
  assert (Hc1 : heap st1 !! child = Some o').
  { unfold st1. rewrite heap_set_heap. by eapply lookup_set_heap_eq. }
  assert (Hs1 : heap st1 !! self = Some (OGroup g)).
  { unfold st1. rewrite heap_set_heap. by rewrite list_lookup_insert_ne. }
  assert (Hid : obj_id_ o' = obj_id_ o).
  { unfold o'. destruct (truthy p); [done|apply obj_id_set_platform]. }
  split.
  - unfold Group_add_rule.
    rewrite bind_run, (get_obj_run _ _ _ Hself).
    rewrite bind_run, Hpush'.
    rewrite bind_run, (get_obj_run _ _ _ Hc1).
    rewrite bind_run, (get_obj_run _ _ _ Hs1).
    unfold set_obj. by rewrite Hid.
  - unfold Group_add_group.
    rewrite bind_run, (get_obj_run _ _ _ Hself).
    rewrite bind_run, Hpush'.
    rewrite bind_run, (get_obj_run _ _ _ Hc1).
    rewrite bind_run, (get_obj_run _ _ _ Hs1).
    unfold set_obj. by rewrite Hid.
Qed.

Section push_down.
Context {E : Externals}.

(** The children of the element of a group, by kind. *)
Lemma Group_children depth h g el :
  Group_to_xml_element (to_xml_element depth h) g = Ok el →
  ∃ description ws vs gs rs,
    children el
    = [Element "title" [] (Some (Group.title g)) []; description] ++ ws
      ++ platform_part XCCDF_PLATFORM_TO_CPE (Group.platform g)
      ++ vs ++ gs ++ rs.
Proof.
  unfold Group_to_xml_element. rewrite on_last_SubElement.
  intros Hel. inv_ok Hel.
  apply add_sub_element_layout in Ha as [description ->].
  apply add_warning_elements_layout in Ha0 as (ws & ->).
  apply platform_element_layout in Ha1 as [-> _].
  apply (for_each_append (fun v => Value_to_xml_element v.2))
    in Ha2 as (vs & _ & ->).
  apply (for_each_append (fun c => to_xml_element depth h c.2))
    in Ha3 as (gs & _ & ->).
  apply (for_each_append (fun c => to_xml_element depth h c.2))
    in Hel as (rs & _ & ->).
  exists description, ws, vs, gs, rs.
  destruct (negb (eq_str (Group.prodtype g) "all")); simpl;
    by rewrite <-?app_assoc.
Qed.

(** C3. Let a group of the store have a platform. Adding a rule to it
    leaves the rule as it is but for its platform: the rule keeps a
    platform of its own and gets the platform of the group otherwise.
    The group is as before but for its rules, in which the rule is now
    found under its id, the other ids being as before; no other object
    and nothing else of the state is touched. The same holds for adding
    a group. If the rule had no platform and rendered to an element,
    then after the insertion it renders to that element with one more
    child: a [platform] element whose [idref] is the CPE that the table
    gives for the platform of the group; a group that had no platform
    has that element among its children when it renders. *)
Theorem platform_pushed_on_insert :
  ∀ st self g child,
    heap st !! self = Some (OGroup g) →
    truthy (Group.platform g) = true →
    (∀ r,
       heap st !! child = Some (ORule r) →
       ∃ st' r' g',
         Group_add_rule self (Some child) st = (st', Ok tt)
         ∧ heap st' !! child = Some (ORule r')
         ∧ r' = Rule.mk (Rule.id_ r) (Rule.prodtype r) (Rule.title r)
                  (Rule.description r) (Rule.rationale r) (Rule.severity r)
                  (Rule.references r) (Rule.identifiers r)
                  (Rule.ocil_clause r) (Rule.ocil r) (Rule.external_oval r)
                  (Rule.warnings r)
                  (if truthy (Rule.platform r) then Rule.platform r
                   else Group.platform g)
         ∧ heap st' !! self = Some (OGroup g')
         ∧ g' = Group.mk (Group.id_ g) (Group.prodtype g) (Group.title g)
                  (Group.description g) (Group.warnings g) (Group.values g)
                  (Group.groups g)
                  (sdict_set (Rule.id_ r) child (Group.rules g))
                  (Group.platform g)
         ∧ sdict_get (Rule.id_ r) (Group.rules g') = Some child
         ∧ (∀ k, k ≠ Rule.id_ r →
                 sdict_get k (Group.rules g') = sdict_get k (Group.rules g))
         ∧ (∀ i, i ≠ self → i ≠ child → heap st' !! i = heap st !! i)
         ∧ length (heap st') = length (heap st)
         ∧ (stdout st', stderr st', listed st', files st')
           = (stdout st, stderr st, listed st, files st)
         ∧ (∀ el0 name cpe depth,
              truthy (Rule.platform r) = false →
              Rule_to_xml_element r = Ok el0 →
              Group.platform g = YStr name →
              sdict_get name XCCDF_PLATFORM_TO_CPE = Some cpe →
              to_xml_element (S depth) (heap st') child
              = Ok (ET_append
                      (Element "platform" [("idref", YStr cpe)] None [])
                      el0))) ∧
    (∀ c,
       heap st !! child = Some (OGroup c) → child ≠ self →
       ∃ st' c' g',
         Group_add_group self (Some child) st = (st', Ok tt)
         ∧ heap st' !! child = Some (OGroup c')
         ∧ c' = Group.mk (Group.id_ c) (Group.prodtype c) (Group.title c)
                  (Group.description c) (Group.warnings c) (Group.values c)
                  (Group.groups c) (Group.rules c)
                  (if truthy (Group.platform c) then Group.platform c
                   else Group.platform g)
         ∧ heap st' !! self = Some (OGroup g')
         ∧ g' = Group.mk (Group.id_ g) (Group.prodtype g) (Group.title g)
                  (Group.description g) (Group.warnings g) (Group.values g)
                  (sdict_set (Group.id_ c) child (Group.groups g))
                  (Group.rules g) (Group.platform g)
         ∧ sdict_get (Group.id_ c) (Group.groups g') = Some child
         ∧ (∀ k, k ≠ Group.id_ c →
                 sdict_get k (Group.groups g') = sdict_get k (Group.groups g))
         ∧ (∀ i, i ≠ self → i ≠ child → heap st' !! i = heap st !! i)
         ∧ length (heap st') = length (heap st)
         ∧ (stdout st', stderr st', listed st', files st')
           = (stdout st, stderr st, listed st, files st)
         ∧ (∀ el name cpe depth,
              truthy (Group.platform c) = false →
              Group.platform g = YStr name →
              sdict_get name XCCDF_PLATFORM_TO_CPE = Some cpe →
              to_xml_element (S depth) (heap st') child = Ok el →
              In (Element "platform" [("idref", YStr cpe)] None [])
                (children el))).
Proof.
  intros st self g child Hself Hg. split.
  - intros r Hchild.
    assert (Hne : child ≠ self) by (intros ->; congruence).
    destruct (link_run self child g (ORule r) st Hself Hchild Hne
                ltac:(done) Hg) as (p & [= <-] & Hrule & _).
    cbn [obj_id_] in Hrule. cbv zeta in Hrule.
    eexists _, _, _. split; [exact Hrule|]. rewrite heap_set_heap.
    assert (Hchild' :
      <[self:=OGroup (Group.set_rules
                        (sdict_set (Rule.id_ r) child (Group.rules g)) g)]>
        (<[child:=if truthy (Rule.platform r) then ORule r
                  else obj_set_platform (Group.platform g) (ORule r)]>
           (heap st)) !! child
      = Some (ORule (if truthy (Rule.platform r) then r
                     else Rule.set_platform (Group.platform g) r))).
    { rewrite list_lookup_insert_ne by done.
      erewrite lookup_set_heap_eq by done.
      by destruct (truthy (Rule.platform r)). }
    split; [exact Hchild'|].
    split; [by destruct (truthy (Rule.platform r)), r|].
    split.
    { apply list_lookup_insert_eq. rewrite length_insert.
      by eapply lookup_lt_Some. }
    split; [done|]. cbn [Group.rules].
    split; [apply sdict_get_set_eq|].
    split; [intros k Hk; by apply sdict_get_set_ne|].
    split; [intros i Hi1 Hi2; by rewrite !list_lookup_insert_ne|].
    split; [by rewrite !length_insert|].
    split; [done|].
    intros el0 name cpe depth Hp Hel0 Hname Hcpe.
    cbn [to_xml_element]. rewrite Hchild', Hp.
    rewrite Rule_render_set_platform.
    rewrite (Rule_render_without_platform r el0 Hp Hel0).
    cbn [mbind result_bind]. unfold platform_element.
    rewrite Hg, Hname. cbn [table_lookup]. rewrite Hcpe.
    cbn [mbind result_bind].
    by rewrite on_last_SubElement.
  - intros c Hchild Hne.
    destruct (link_run self child g (OGroup c) st Hself Hchild Hne
                ltac:(done) Hg) as (p & [= <-] & _ & Hgroup).
    cbn [obj_id_] in Hgroup. cbv zeta in Hgroup.
    eexists _, _, _. split; [exact Hgroup|]. rewrite heap_set_heap.
    assert (Hchild' :
      <[self:=OGroup (Group.set_groups
                        (sdict_set (Group.id_ c) child (Group.groups g)) g)]>
        (<[child:=if truthy (Group.platform c) then OGroup c
                  else obj_set_platform (Group.platform g) (OGroup c)]>
           (heap st)) !! child
      = Some (OGroup (if truthy (Group.platform c) then c
                      else Group.set_platform (Group.platform g) c))).
    { rewrite list_lookup_insert_ne by done.
      erewrite lookup_set_heap_eq by done.
      by destruct (truthy (Group.platform c)). }
    split; [exact Hchild'|].
    split; [by destruct (truthy (Group.platform c)), c|].
    split.
    { apply list_lookup_insert_eq. rewrite length_insert.
      by eapply lookup_lt_Some. }
    split; [done|]. cbn [Group.groups].
    split; [apply sdict_get_set_eq|].
    split; [intros k Hk; by apply sdict_get_set_ne|].
    split; [intros i Hi1 Hi2; by rewrite !list_lookup_insert_ne|].
    split; [by rewrite !length_insert|].
    split; [done|].
    intros el name cpe depth Hp Hname Hcpe.
    cbn [to_xml_element]. rewrite Hchild', Hp.
    intros (description & ws & vs & gs & rs & ->)%Group_children.
    cbn [Group.set_platform Group.platform]. unfold platform_part.
    rewrite Hg, Hname, Hcpe.
    rewrite !in_app_iff. right. right. left. by left.
Qed.

End push_down.

Lemma platform_pushed_on_insert_witness :
  let E : Externals := Demo.externals in
  let g := Group.mk "services" (YStr "all") (YStr "Services")
             (YStr "Services.") (YList []) [] [] [] (YStr "machine") in
  let r := Rule.mk "bare" (YStr "all") (YStr "Bare") (YStr "d") (YStr "r")
             (YStr "low") (YDict []) (YDict []) YNull YNull YNull (YList [])
             YNull in
  let c := Group.mk "daemons" (YStr "all") (YStr "Daemons")
             (YStr "Daemons.") (YList []) [] [] [] YNull in
  let st := mkState [OGroup g; ORule r; OGroup c] [] [] [] [] in
  (∃ st' r' g',
     Group_add_rule 0%nat (Some 1%nat) st = (st', Ok tt)
     ∧ heap st' !! 1%nat = Some (ORule r')
     ∧ Rule.platform r' = YStr "machine"
     ∧ heap st' !! 0%nat = Some (OGroup g')
     ∧ Group.rules g' = [("bare", 1%nat)]
     ∧ to_xml_element 2 (heap st') 1%nat
       = Ok (Element "Rule"
               [("id", YStr "bare"); ("severity", YStr "low")] None
               [Element "title" [] (Some (YStr "Bare")) [];
                Element "description" [] (Some (YStr "d")) [];
                Element "rationale" [] (Some (YStr "r")) [];
                Element "oval" [("id", YStr "bare")] None [];
                Element "platform" [("idref", YStr "cpe:/a:machine")]
                  None []]))
  ∧ (∃ st' c' g',
       Group_add_group 0%nat (Some 2%nat) st = (st', Ok tt)
       ∧ heap st' !! 2%nat = Some (OGroup c')
       ∧ Group.platform c' = YStr "machine"
       ∧ heap st' !! 0%nat = Some (OGroup g')
       ∧ Group.groups g' = [("daemons", 2%nat)]
       ∧ to_xml_element 2 (heap st') 2%nat
         = Ok (Element "Group" [("id", YStr "daemons")] None
                 [Element "title" [] (Some (YStr "Daemons")) [];
                  Element "description" [] (Some (YStr "Daemons.")) [];
                  Element "platform" [("idref", YStr "cpe:/a:machine")]
                    None []])).
Proof.
  intros E g r c st. split.
  - destruct (proj1 (@platform_pushed_on_insert E st 0%nat g 1%nat
                       eq_refl eq_refl) r eq_refl)
      as (st' & r' & g' & Hrun & Hchild & Hr' & Hself & Hg' & _ & _ & _ & _
          & _ & Hrender).
    exists st', r', g'. split; [exact Hrun|]. split; [exact Hchild|].
    split; [by rewrite Hr'|]. split; [exact Hself|].
    split; [by rewrite Hg'|].
    by apply (Hrender
               (Element "Rule"
                  [("id", YStr "bare"); ("severity", YStr "low")] None
                  [Element "title" [] (Some (YStr "Bare")) [];
                   Element "description" [] (Some (YStr "d")) [];
                   Element "rationale" [] (Some (YStr "r")) [];
                   Element "oval" [("id", YStr "bare")] None []])
               "machine" "cpe:/a:machine" 1%nat);
      vm_compute; reflexivity.
  - destruct (proj2 (@platform_pushed_on_insert E st 0%nat g 2%nat
                       eq_refl eq_refl) c eq_refl)
      as (st' & c' & g' & Hrun & Hchild & Hc' & Hself & Hg' & _);
      [done|].
    exists st', c', g'. split; [exact Hrun|]. split; [exact Hchild|].
    split; [by rewrite Hc'|]. split; [exact Hself|].
    split; [by rewrite Hg'|].
    apply (f_equal fst) in Hrun. cbn [fst] in Hrun. subst st'.
    vm_compute. reflexivity.
Defined.

(** ** One descriptor per directory *)

Lemma add_stderr_nil st : add_stderr [] st = st.
Proof. destruct st. unfold add_stderr. simpl. by rewrite app_nil_r. Qed.

Lemma add_stderr_app l1 l2 st :
  add_stderr l2 (add_stderr l1 st) = add_stderr (l1 ++ l2) st.
Proof. unfold add_stderr. simpl. by rewrite app_assoc. Qed.

Lemma join_truthy a b :
  b ≠ "" → path_truthy (Some (os_path.join a b)) = true.
Proof.
  intros Hb. unfold path_truthy, os_path.join.
  apply negb_true_iff, String.eqb_neq.
  destruct (Py.startswith b "/"); [done|].
  destruct (_ || _); destruct a; simpl; try done.
Qed.

Lemma for_each_M_cons {A S} (body : S → A → M S) s x l :
  for_each_M body s (x :: l) = (body s x ≫= fun s' => for_each_M body s' l).
Proof. done. Qed.

Section assembler.
Context {E : Externals}.

(** One round of the first loop, when it does not meet a second
    benchmark or a second group. *)
Lemma classify_step guide_directory b dir_item st :
  (dir_item = "benchmark.yml" → path_truthy (benchmark_file b) = false) →
  (dir_item = "group.yml" → path_truthy (group_file b) = false) →
  ∃ b',
    classify guide_directory b dir_item st
    = (add_stderr (if is_stray guide_directory dir_item
                   then [stray_warning dir_item] else []) st, Ok b')
    ∧ benchmark_file b'
      = (if String.eqb dir_item "benchmark.yml"
         then Some (os_path.join guide_directory dir_item)
         else benchmark_file b)
    ∧ group_file b'
      = (if String.eqb dir_item "group.yml"
         then Some (os_path.join guide_directory dir_item)
         else group_file b).
Proof.
  intros Hb Hg. unfold classify, is_stray.
  destruct (String.eqb dir_item "benchmark.yml") eqn:Eb.
  { apply String.eqb_eq in Eb as ->. simpl. rewrite (Hb eq_refl).
    eexists. rewrite add_stderr_nil. by repeat split. }
  destruct (String.eqb dir_item "group.yml") eqn:Eg.
  { apply String.eqb_eq in Eg as ->. simpl. rewrite (Hg eq_refl).
    eexists. rewrite add_stderr_nil. by repeat split. }
  destruct (String.eqb (os_path.splitext dir_item).2 ".var");
    [eexists; rewrite add_stderr_nil; by repeat split|].
  destruct (String.eqb (os_path.splitext dir_item).2 ".rule");
    [eexists; rewrite add_stderr_nil; by repeat split|].
  destruct (is_rule_dir _);
    [eexists; rewrite add_stderr_nil; by repeat split|].
  destruct (String.eqb dir_item "tests");
    [eexists; rewrite add_stderr_nil; by repeat split|].
  destruct (os_path_isdir _);
    [eexists; rewrite add_stderr_nil; by repeat split|].
  simpl. eexists. by repeat split.
Qed.

(** The first loop over the entries of a directory, none of them twice:
    the strays are reported, and a benchmark or group descriptor among
    the entries is in its variable at the end. *)
Lemma classify_loop guide_directory entries : ∀ b st,
  NoDup entries →
  (path_truthy (benchmark_file b) = true → ¬ In "benchmark.yml" entries) →
  (path_truthy (group_file b) = true → ¬ In "group.yml" entries) →
  ∃ b',
    for_each_M (classify guide_directory) b entries st
    = (add_stderr (stray_warnings guide_directory entries) st, Ok b')
    ∧ (In "benchmark.yml" entries →
       benchmark_file b'
       = Some (os_path.join guide_directory "benchmark.yml"))
    ∧ (¬ In "benchmark.yml" entries → benchmark_file b' = benchmark_file b)
    ∧ (In "group.yml" entries →
       group_file b' = Some (os_path.join guide_directory "group.yml"))
    ∧ (¬ In "group.yml" entries → group_file b' = group_file b).
Proof.
  induction entries as [|x entries IH]; intros b st Hnd Hb Hg.
  - exists b. unfold stray_warnings. simpl. rewrite add_stderr_nil.
    repeat split; tauto.
  - apply NoDup_cons in Hnd as [Hx Hnd]. rewrite list_elem_of_In in Hx.
    destruct (classify_step guide_directory b x st) as (b1 & Hrun & Hb1 & Hg1).
    { intros ->. destruct (path_truthy (benchmark_file b)); [|done].
      destruct Hb; [done|by left]. }
    { intros ->. destruct (path_truthy (group_file b)); [|done].
      destruct Hg; [done|by left]. }
    destruct (IH b1 (add_stderr (if is_stray guide_directory x
                                 then [stray_warning x] else []) st) Hnd)
      as (b' & Hloop & Hb' & Hnb' & Hg' & Hng').
    { rewrite Hb1. destruct (String.eqb x "benchmark.yml") eqn:Ex.
      - apply String.eqb_eq in Ex as ->. done.
      - intros Ht Hin. apply Hb; [done|by right]. }
    { rewrite Hg1. destruct (String.eqb x "group.yml") eqn:Ex.
      - apply String.eqb_eq in Ex as ->. done.
      - intros Ht Hin. apply Hg; [done|by right]. }
    exists b'. split; [|split; [|split; [|split]]].
    + rewrite for_each_M_cons, bind_run, Hrun, Hloop, add_stderr_app.
      unfold stray_warnings. simpl List.filter.
      by destruct (is_stray guide_directory x).
    + intros [->|Hin]; [|by apply Hb'].
      by rewrite (Hnb' Hx), Hb1.
    + intros Hnin. rewrite Hnb' by (intros ?; apply Hnin; by right).
      rewrite Hb1. destruct (String.eqb x "benchmark.yml") eqn:Ex; [|done].
      apply String.eqb_eq in Ex as ->. destruct Hnin. by left.
    + intros [->|Hin]; [|by apply Hg'].
      by rewrite (Hng' Hx), Hg1.
    + intros Hnin. rewrite Hng' by (intros ?; apply Hnin; by right).
      rewrite Hg1. destruct (String.eqb x "group.yml") eqn:Ex; [|done].
      apply String.eqb_eq in Ex as ->. destruct Hnin. by left.
Qed.

(** C8. In a directory whose entries include both [benchmark.yml] and
    [group.yml] the assembler fails with the error that names the
    directory. It does so after the first loop has gone through all the
    entries (the strays are reported on the error stream) and before
    anything else happens: no object is made or linked, nothing is
    printed or written, and no other directory is listed. *)
Theorem both_descriptors_is_an_error :
  ∀ depth action parent_group guide_directory profiles_dir
    bash_remediation_fns output_file env_yaml st entries,
    os_listdir guide_directory = Ok entries →
    NoDup entries →
    In "benchmark.yml" entries →
    In "group.yml" entries →
    add_from_directory (S depth) action parent_group guide_directory
      profiles_dir bash_remediation_fns output_file env_yaml st
    = (mkState (heap st) (stdout st)
         (stderr st ++ stray_warnings guide_directory entries)
         (listed st ++ [guide_directory]) (files st),
       Raise (ValueError (BenchmarkAndGroup guide_directory))).
Proof.
  intros depth action parent_group guide_directory profiles_dir
    bash_remediation_fns output_file env_yaml st entries
    Hlist Hnd Hbench Hgroup.
  cbn [add_from_directory]. rewrite bind_run.
  unfold listdir at 1. rewrite Hlist.
  set (st1 := mkState (heap st) (stdout st) (stderr st)
                (listed st ++ [guide_directory]) (files st)).
  destruct (classify_loop guide_directory entries no_buckets st1 Hnd)
    as (b & Hloop & Hb & _ & Hg & _); [done..|].
  rewrite bind_run, Hloop, bind_run.
  unfold load_benchmark_or_group.
  rewrite (Hb Hbench), (Hg Hgroup), !join_truthy by done.
  done.
Qed.

End assembler.

Lemma both_descriptors_is_an_error_witness :
  add_from_directory (E := Demo.externals) 10 "build" None "clash"
    (Some "profiles") (Some "fns.xml") "out.xml" YNull Demo.empty_state
  = (mkState [] []
       ["Encountered file 'notes.txt' while recursing, extension '.txt' is unknown. Skipping.."
        +:+ nl]
       ["clash"] [],
     Raise (ValueError (BenchmarkAndGroup "clash"))).
Proof.
  apply (@both_descriptors_is_an_error Demo.externals 9 "build" None "clash"
           (Some "profiles") (Some "fns.xml") "out.xml" YNull
           Demo.empty_state
           ["notes.txt"; "benchmark.yml"; "sub"; "group.yml"] eq_refl).
  - repeat constructor; rewrite ?list_elem_of_In; simpl; intuition discriminate.
  - simpl. tauto.
  - simpl. tauto.
Defined.

(** ** The identifiers of a rule *)

Lemma for_each_unit {A} (check : A → result unit) l u :
  for_each (fun _ x => check x) tt l = Ok u →
  Forall (fun x => check x = Ok tt) l.
Proof.
  induction l as [|x l IH]; simpl; [by constructor|].
  intros Hl. inv_ok Hl. destruct a. constructor; eauto.
Qed.

Lemma ascii_dec_eqb {T} x y (A B : T) :
  (if ascii_dec x y then A else B) = (if Ascii.eqb y x then A else B).
Proof.
  destruct (ascii_dec x y) as [->|Hne].
  - by rewrite Ascii.eqb_refl.
  - destruct (Ascii.eqb y x) eqn:Eq; [|done].
    apply Ascii.eqb_eq in Eq. by subst.
Qed.

Lemma take3_cce s :
  String.eqb (Py.take 3 s) "cce" = Py.startswith s "cce".
Proof.
  unfold Py.startswith.
  destruct s as [|a [|b [|c r]]];
    cbn [Py.take String.eqb String.prefix];
    rewrite ?ascii_dec_eqb, ?prefix_nil;
    repeat match goal with
           | |- context [Ascii.eqb ?x ?y] => destruct (Ascii.eqb x y)
           end; done.
Qed.

Section identifiers.
Context {E : Externals}.

Lemma validate_identifiers_Ok r yaml_file :
  Rule_validate_identifiers r yaml_file = Ok tt →
  ∃ ids, Rule.identifiers r = YDict ids ∧ Forall valid_identifier ids.
Proof.
  unfold Rule_validate_identifiers.
  destruct (Rule.identifiers r) as [| | | | |ids]; try done.
  intros Hv. cbn [items mbind result_bind] in Hv.
  exists ids. split; [done|].
  apply (for_each_unit
           (fun entry : yaml * yaml =>
              let '(ident_type, ident_val) := entry in
              match ident_type, ident_val with
              | YStr ident_type_s, YStr ident_val_s =>
                  if String.eqb (Py.strip ident_val_s) ""
                  then Raise (ValueError
                                (IdentifierEmpty ident_type yaml_file))
                  else if String.eqb (Py.take 3 ident_type_s) "cce"
                          && negb (is_cce_valid ("CCE-" +:+ ident_val_s))
                  then Raise (ValueError
                                (InvalidCCE ident_val ident_type yaml_file))
                  else Ok tt
              | _, _ =>
                  Raise (ValueError
                           (IdentifiersNotStrings ident_type yaml_file))
              end)) in Hv.
  eapply Forall_impl; [exact Hv|].
  intros [k v] Hkv. cbv beta iota in Hkv.
  destruct k as [| | |ks| |]; try done.
  destruct v as [| | |vs| |]; try done.
  exists ks, vs. split; [done|].
  destruct (String.eqb (Py.strip vs) "") eqn:Hs; [done|].
  apply String.eqb_neq in Hs. split; [done|].
  rewrite take3_cce in Hkv. intros Hcce. rewrite Hcce in Hkv.
  by destruct (is_cce_valid _).
Qed.

(** C2, as amended. A parsed rule has a mapping of identifiers, which may
    be empty (it is empty when the descriptor has no [identifiers] key):
    each entry has a string key and a string value that is not blank
    once stripped, and for each key that begins with [cce] the checker
    accepts [CCE-] followed by the value. A group has no identifiers: a
    group descriptor with an [identifiers] key does not parse. *)
Theorem parsed_identifiers_are_valid :
  (∀ yaml_file env r,
     Rule_from_yaml yaml_file env = Ok (Some r) →
     ∃ ids, Rule.identifiers r = YDict ids ∧ Forall valid_identifier ids) ∧
  (∀ yaml_file env doc r,
     open_and_macro_expand yaml_file env = Ok (Some doc) →
     Rule_from_yaml yaml_file env = Ok (Some r) →
     Rule.identifiers r = get_default "identifiers" (YDict []) doc) ∧
  (∀ yaml_file env doc,
     open_and_macro_expand yaml_file env = Ok (Some doc) →
     is_Some (dict_get "identifiers" doc) →
     ∃ e, Group_from_yaml yaml_file env = Raise e).
Proof.
  split; [|split].
  - intros yaml_file env r Hr. unfold Rule_from_yaml in Hr.
    destruct (os_path.splitext (os_path.basename yaml_file)) as [rule_id ext].
    inv_ok Hr. subst r. destruct a5.
    by apply validate_identifiers_Ok in Ha5.
  - intros yaml_file env doc r Hload Hr. unfold Rule_from_yaml in Hr.
    rewrite Hload in Hr. cbn [mbind result_bind] in Hr.
    destruct (os_path.splitext (os_path.basename yaml_file)) as [rule_id ext].
    inv_ok Hr. inv_pops. cbn [Rule.identifiers].
    unfold get_default. by norm_dict.
  - intros yaml_file env doc Hload [v Hv].
    destruct (Group_from_yaml yaml_file env) as [g|e] eqn:Hg; [|eauto].
    exfalso. unfold Group_from_yaml in Hg. rewrite Hload in Hg.
    cbn [mbind result_bind] in Hg. inv_ok Hg. inv_pops. norm_dict.
    apply truthy_dict in Heqb.
    apply dict_get_In in Hv.
    assert (Hin : In (YStr "identifiers", v)
                    (leftover ["prodtype"; "title"; "description"; "warnings";
                               "platform"] doc)).
    { unfold leftover. apply filter_In. by split. }
    by rewrite Heqb in Hin.
Qed.

End identifiers.

Lemma parsed_identifiers_are_valid_witness :
  ∃ r ids,
    Rule_from_yaml (E := Demo.externals)
      "guide/services/service_telnet_disabled.rule" YNull = Ok (Some r)
    ∧ Rule.identifiers r = YDict ids
    ∧ Forall (valid_identifier (E := Demo.externals)) ids.
Proof.
  assert (Hr : ∃ r, Rule_from_yaml (E := Demo.externals)
                      "guide/services/service_telnet_disabled.rule" YNull
                    = Ok (Some r))
    by (eexists; vm_compute; reflexivity).
  destruct Hr as [r Hr].
  destruct (proj1 (@parsed_identifiers_are_valid Demo.externals)
              "guide/services/service_telnet_disabled.rule" YNull r Hr)
    as (ids & Hids & Hvalid).
  exists r, ids. split; [exact Hr|]. split; [exact Hids|exact Hvalid].
Defined.

(** C2, as stated, fails: a rule descriptor without identifiers parses, and
    the rule has no identifier entry. *)
Lemma rule_without_identifiers_counterexample :
  ∃ r,
    Rule_from_yaml (E := Demo.externals) "guide/services/bare/rule.yml" YNull
    = Ok (Some r)
    ∧ Rule.identifiers r = YDict [].
Proof. eexists. split; vm_compute; reflexivity. Qed.

(** * Further properties of the code *)

(** ** Directories without a descriptor *)

Section no_descriptor.
Context {E : Externals}.

(** X1. A directory that has neither [benchmark.yml] nor [group.yml]
    contributes nothing: after the first loop (which reports the strays)
    the assembler returns. Its values and rules are not parsed and its
    subdirectories are not visited, whatever they hold. *)
Theorem directory_without_descriptor_is_skipped :
  ∀ depth action parent_group guide_directory profiles_dir
    bash_remediation_fns output_file env_yaml st entries,
    os_listdir guide_directory = Ok entries →
    NoDup entries →
    ¬ In "benchmark.yml" entries →
    ¬ In "group.yml" entries →
    add_from_directory (S depth) action parent_group guide_directory
      profiles_dir bash_remediation_fns output_file env_yaml st
    = (mkState (heap st) (stdout st)
         (stderr st ++ stray_warnings guide_directory entries)
         (listed st ++ [guide_directory]) (files st),
       Ok tt).
Proof.
  intros depth action parent_group guide_directory profiles_dir
    bash_remediation_fns output_file env_yaml st entries
    Hlist Hnd Hbench Hgroup.
  cbn [add_from_directory]. rewrite bind_run.
  unfold listdir at 1. rewrite Hlist.
  set (st1 := mkState (heap st) (stdout st) (stderr st)
                (listed st ++ [guide_directory]) (files st)).
  destruct (classify_loop guide_directory entries no_buckets st1 Hnd)
    as (b & Hloop & _ & Hb & _ & Hg); [done..|].
  rewrite bind_run, Hloop, bind_run.
  unfold load_benchmark_or_group.
  rewrite (Hb Hbench), (Hg Hgroup). done.
Qed.

End no_descriptor.

Lemma directory_without_descriptor_is_skipped_witness :
  add_from_directory (E := Demo.externals) 3 "build" None "profiles"
    None None "out.xml" YNull Demo.empty_state
  = (mkState [] []
       ["Encountered file 'standard.profile' while recursing, extension '.profile' is unknown. Skipping.."
        +:+ nl]
       ["profiles"] [],
     Ok tt).
Proof.
  apply (@directory_without_descriptor_is_skipped Demo.externals 2 "build"
           None "profiles" None None "out.xml" YNull Demo.empty_state
           ["standard.profile"] eq_refl).
  - repeat constructor; rewrite ?list_elem_of_In; simpl; intuition discriminate.
  - simpl. intuition discriminate.
  - simpl. intuition discriminate.
Defined.

(** ** Where the ids come from *)

Section ids.
Context {E : Externals}.

(** C10. The id of a parsed entity is computed from the path of its
    descriptor and from nothing else: a Profile and a Value get the file
    name without its extension, a Group gets the name of the directory of
    its descriptor, and a Rule whose descriptor is named [rule.yml] gets
    what [get_rule_dir_id] makes of the path (any other Rule gets the file
    name without its extension). On paths of the usual shape these are the
    name before the last dot and the name of the enclosing directory.
    Descriptors with the fields of their kind and nothing else do parse,
    to entities with these ids. *)
Theorem ids_come_from_paths :
  (∀ yaml_file env p,
     Profile_from_yaml yaml_file env = Ok (Some p) →
     Profile.id_ p = (os_path.splitext (os_path.basename yaml_file)).1) ∧
  (∀ yaml_file env v,
     Value_from_yaml yaml_file env = Ok (Some v) →
     Value.id_ v = (os_path.splitext (os_path.basename yaml_file)).1) ∧
  (∀ yaml_file env g,
     Group_from_yaml yaml_file env = Ok (Some g) →
     Group.id_ g = os_path.basename (os_path.dirname yaml_file)) ∧
  (∀ yaml_file env r,
     Rule_from_yaml yaml_file env = Ok (Some r) →
     Rule.id_ r =
       if String.eqb (os_path.basename yaml_file) "rule.yml"
       then get_rule_dir_id yaml_file
       else (os_path.splitext (os_path.basename yaml_file)).1) ∧
  (∀ dir c stem ext,
     c ≠ "."%char →
     Py.contains "/" (String c stem +:+ "." +:+ ext) = false →
     Py.contains "." ext = false →
     (os_path.splitext
        (os_path.basename (dir +:+ "/" +:+ String c stem +:+ "." +:+ ext))).1
     = String c stem) ∧
  (∀ dir c name,
     Py.contains "/" (String c name) = false →
     os_path.basename
       (os_path.dirname (dir +:+ "/" +:+ String c name +:+ "/group.yml"))
     = String c name) ∧
  (∀ dir, os_path.basename (dir +:+ "/rule.yml") = "rule.yml") ∧
  (∀ yaml_file env doc title description selections,
     open_and_expand yaml_file env = Ok (Some doc) →
     dict_get "title" doc = Some title →
     dict_get "description" doc = Some description →
     dict_get "selections" doc = Some selections →
     leftover Profile_keys doc = [] →
     ∃ p, Profile_from_yaml yaml_file env = Ok (Some p)
          ∧ Profile.id_ p
            = (os_path.splitext (os_path.basename yaml_file)).1) ∧
  (∀ yaml_file env doc title description type_ interactive options,
     open_and_expand yaml_file env = Ok (Some doc) →
     dict_get "title" doc = Some title →
     dict_get "description" doc = Some description →
     dict_get "type" doc = Some type_ →
     in_strs (get_default "operator" (YStr "equals") doc) possible_operators
     = true →
     lower (get_default "interactive" (YStr "false") doc) = Ok interactive →
     dict_get "options" doc = Some options →
     check_warnings (get_default "warnings" (YList []) doc) = Ok tt →
     leftover Value_keys doc = [] →
     ∃ v, Value_from_yaml yaml_file env = Ok (Some v)
          ∧ Value.id_ v
            = (os_path.splitext (os_path.basename yaml_file)).1) ∧
  (∀ yaml_file env doc title description,
     open_and_macro_expand yaml_file env = Ok (Some doc) →
     dict_get "title" doc = Some title →
     dict_get "description" doc = Some description →
     check_warnings (get_default "warnings" (YList []) doc) = Ok tt →
     leftover Group_keys doc = [] →
     ∃ g, Group_from_yaml yaml_file env = Ok (Some g)
          ∧ Group.id_ g = os_path.basename (os_path.dirname yaml_file)) ∧
  (∀ yaml_file env doc title description rationale severity,
     open_and_macro_expand yaml_file env = Ok (Some doc) →
     dict_get "title" doc = Some title →
     dict_get "description" doc = Some description →
     dict_get "rationale" doc = Some rationale →
     dict_get "severity" doc = Some severity →
     dict_get "identifiers" doc = None →
     dict_get "references" doc = None →
     check_warnings (get_default "warnings" (YList []) doc) = Ok tt →
     leftover Rule_keys doc = [] →
     ∃ r, Rule_from_yaml yaml_file env = Ok (Some r)
          ∧ Rule.id_ r =
              if String.eqb (os_path.basename yaml_file) "rule.yml"
              then get_rule_dir_id yaml_file
              else (os_path.splitext (os_path.basename yaml_file)).1).
Proof.
  split; [|split; [|split; [|split; [|split; [|split; [|split;
    [|split; [|split; [|split]]]]]]]]].
  - intros yaml_file env p Hp. unfold Profile_from_yaml in Hp.
    inv_ok Hp. by subst p.
  - intros yaml_file env v Hv. unfold Value_from_yaml in Hv.
    inv_ok Hv. by subst v.
  - intros yaml_file env g Hg. unfold Group_from_yaml in Hg.
    inv_ok Hg. by subst g.
  - intros yaml_file env r Hr. unfold Rule_from_yaml in Hr.
    rewrite <-rule_yml_test.
    destruct (os_path.splitext (os_path.basename yaml_file)) as [rule_id ext].
    inv_ok Hr. by subst r.
  - intros dir c stem ext Hc Hsep Hext.
    rewrite (basename_last dir _ Hsep).
    by rewrite (splitext_last c stem ext Hc Hsep Hext).
  - intros dir c name Hname.
    change "/group.yml" with ("/" +:+ "group.yml").
    rewrite (dirname_last dir c name "group.yml" Hname eq_refl).
    by apply basename_last.
  - intros dir. change "/rule.yml" with ("/" +:+ "rule.yml").
    by apply basename_last.
  - intros yaml_file env doc title description selections
      Hload Ht Hd Hs Hleft.
    exists (Profile.mk (os_path.splitext (os_path.basename yaml_file)).1
              title description (get_default "extends" YNull doc)
              selections).
    split; [|done].
    unfold Profile_from_yaml, get_default, Profile_keys in *.
    rewrite Hload. step. rewrite Ht. step. rewrite Hd. step.
    rewrite Hs. step. by rewrite Hleft.
  - intros yaml_file env doc title description type_ interactive options
      Hload Ht Hd Hty Hop Hi Ho Hw Hleft.
    exists (Value.mk (os_path.splitext (os_path.basename yaml_file)).1
              title description type_
              (get_default "operator" (YStr "equals") doc)
              (String.eqb interactive "true") options
              (get_default "warnings" (YList []) doc)).
    split; [|done].
    unfold Value_from_yaml, get_default, Value_keys in *.
    rewrite Hload. step. rewrite Ht. step. rewrite Hd. step.
    rewrite Hty. step. rewrite Hop. step. rewrite Hi. step.
    rewrite Ho. step. rewrite Hw. step. by rewrite Hleft.
  - intros yaml_file env doc title description Hload Ht Hd Hw Hleft.
    exists (Group.mk (os_path.basename (os_path.dirname yaml_file))
              (get_default "prodtype" (YStr "all") doc) title description
              (get_default "warnings" (YList []) doc) [] [] []
              (get_default "platform" YNull doc)).
    split; [|done].
    unfold Group_from_yaml, get_default, Group_keys in *.
    rewrite Hload. step. rewrite Ht. step. rewrite Hd. step.
    rewrite Hw. step. by rewrite Hleft.
  - intros yaml_file env doc title description rationale severity
      Hload Ht Hd Hra Hse Hids Hrefs Hw Hleft.
    exists (Rule.mk
              (if String.eqb (os_path.basename yaml_file) "rule.yml"
               then get_rule_dir_id yaml_file
               else (os_path.splitext (os_path.basename yaml_file)).1)
              (get_default "prodtype" (YStr "all") doc)
              title description rationale severity (YDict []) (YDict [])
              (get_default "ocil_clause" YNull doc)
              (get_default "ocil" YNull doc)
              (get_default "oval_external_content" YNull doc)
              (get_default "warnings" (YList []) doc)
              (get_default "platform" YNull doc)).
    split; [|done].
    rewrite <-rule_yml_test.
    unfold Rule_from_yaml, get_default, Rule_keys in *.
    destruct (os_path.splitext (os_path.basename yaml_file)) as [rule_id ext].
    rewrite Hload. step. rewrite Ht. step. rewrite Hd. step.
    rewrite Hra. step. rewrite Hse. step. rewrite Hw. step.
    rewrite Hleft, Hids, Hrefs. done.
Qed.

End ids.

Lemma ids_come_from_paths_witness :
  let E : Externals := Demo.externals in
  (∃ p, Profile_from_yaml "profiles/standard.profile" YNull = Ok (Some p)
        ∧ Profile.id_ p = "standard")
  ∧ (∃ v, Value_from_yaml "guide/services/var_length.var" YNull
          = Ok (Some v)
          ∧ Value.id_ v = "var_length")
  ∧ (∃ g, Group_from_yaml "guide/services/group.yml" YNull = Ok (Some g)
          ∧ Group.id_ g = "services")
  ∧ (∃ r, Rule_from_yaml "guide/services/service_telnet_disabled.rule" YNull
          = Ok (Some r)
          ∧ Rule.id_ r = "service_telnet_disabled")
  ∧ (∃ r, Rule_from_yaml "guide/services/bare/rule.yml" YNull = Ok (Some r)
          ∧ Rule.id_ r = "bare").
Proof.
  intros E.
  pose proof (@ids_come_from_paths E)
    as (Hp & Hv & Hg & Hr & _ & _ & _ & Hp' & Hv' & Hg' & Hr').
  split; [|split; [|split; [|split]]].
  - destruct (Hp' "profiles/standard.profile" YNull Demo.profile_doc
                _ _ _ eq_refl eq_refl eq_refl eq_refl eq_refl)
      as (p & Hparse & Hid).
    exists p. split; [exact Hparse|]. rewrite Hid. vm_compute. reflexivity.
  - destruct (Hv' "guide/services/var_length.var" YNull Demo.value_doc
                _ _ _ "false" _ eq_refl eq_refl eq_refl eq_refl eq_refl
                eq_refl eq_refl eq_refl eq_refl)
      as (v & Hparse & Hid).
    exists v. split; [exact Hparse|]. rewrite Hid. vm_compute. reflexivity.
  - destruct (Hg' "guide/services/group.yml" YNull Demo.group_doc
                _ _ eq_refl eq_refl eq_refl eq_refl eq_refl)
      as (g & Hparse & Hid).
    exists g. split; [exact Hparse|]. rewrite Hid. vm_compute. reflexivity.
  - assert (Hparse : ∃ r, Rule_from_yaml
                            "guide/services/service_telnet_disabled.rule"
                            YNull = Ok (Some r))
      by (eexists; vm_compute; reflexivity).
    destruct Hparse as (r & Hparse).
    exists r. split; [exact Hparse|].
    rewrite (Hr _ _ _ Hparse). vm_compute. reflexivity.
  - destruct (Hr' "guide/services/bare/rule.yml" YNull Demo.bare_rule_doc
                _ _ _ _ eq_refl eq_refl eq_refl eq_refl eq_refl eq_refl
                eq_refl eq_refl eq_refl)
      as (r & Hparse & Hid).
    exists r. split; [exact Hparse|]. rewrite Hid. vm_compute. reflexivity.
Defined.

(** ** Closed schemas *)

Section schemas.
Context {E : Externals}.

(** X2. A profile descriptor with its three required fields parses exactly
    when it has no field but title, description, extends and selections.
    The profile then holds the values of the document ([extends] is [None]
    when absent); otherwise the error names the file and the entries that
    are left. Whatever else is the case, a descriptor with an entry left
    over never parses. *)
Theorem Profile_from_yaml_closed_schema :
  (∀ yaml_file env doc title description selections,
     open_and_expand yaml_file env = Ok (Some doc) →
     dict_get "title" doc = Some title →
     dict_get "description" doc = Some description →
     dict_get "selections" doc = Some selections →
     Profile_from_yaml yaml_file env
     = match leftover Profile_keys doc with
       | [] =>
           Ok (Some (Profile.mk
                       (os_path.splitext (os_path.basename yaml_file)).1
                       title description (get_default "extends" YNull doc)
                       selections))
       | _ :: _ =>
           Raise (RuntimeError
                    (UnparsedYAML yaml_file (leftover Profile_keys doc)))
       end) ∧
  (∀ yaml_file env doc,
     open_and_expand yaml_file env = Ok (Some doc) →
     leftover Profile_keys doc ≠ [] →
     ∃ e, Profile_from_yaml yaml_file env = Raise e).
Proof.
  split.
  - intros yaml_file env doc title description selections
      Hload Ht Hd Hs.
    unfold Profile_from_yaml, get_default, Profile_keys.
    rewrite Hload. step. rewrite Ht. step. rewrite Hd. step.
    rewrite Hs. step. by destruct (leftover _ doc).
  - intros yaml_file env doc Hload Hleft.
    destruct (Profile_from_yaml yaml_file env) as [p|e] eqn:Hp; [|eauto].
    exfalso. unfold Profile_from_yaml in Hp. rewrite Hload in Hp.
    cbn [mbind result_bind] in Hp. inv_ok Hp. inv_pops. norm_dict.
    by apply truthy_dict in Heqb.
Qed.

(** X3. A group descriptor with a title, a description and warnings in
    order parses exactly when it has no field but prodtype, title,
    description, warnings and platform. The group then holds the values
    of the document, with [all] for a missing prodtype, no platform for a
    missing platform, and no children; otherwise the error names the file
    and the entries that are left. A descriptor with an entry left over
    never parses. *)
Theorem Group_from_yaml_closed_schema :
  (∀ yaml_file env doc title description,
     open_and_macro_expand yaml_file env = Ok (Some doc) →
     dict_get "title" doc = Some title →
     dict_get "description" doc = Some description →
     check_warnings (get_default "warnings" (YList []) doc) = Ok tt →
     Group_from_yaml yaml_file env
     = match leftover Group_keys doc with
       | [] =>
           Ok (Some (Group.mk
                       (os_path.basename (os_path.dirname yaml_file))
                       (get_default "prodtype" (YStr "all") doc)
                       title description
                       (get_default "warnings" (YList []) doc)
                       [] [] []
                       (get_default "platform" YNull doc)))
       | _ :: _ =>
           Raise (RuntimeError
                    (UnparsedYAML yaml_file (leftover Group_keys doc)))
       end) ∧
  (∀ yaml_file env doc,
     open_and_macro_expand yaml_file env = Ok (Some doc) →
     leftover Group_keys doc ≠ [] →
     ∃ e, Group_from_yaml yaml_file env = Raise e).
Proof.
  split.
  - intros yaml_file env doc title description Hload Ht Hd Hw.
    unfold Group_from_yaml, get_default, Group_keys in *.
    rewrite Hload. step. rewrite Ht. step. rewrite Hd. step.
    rewrite Hw. step. by destruct (leftover _ doc).
  - intros yaml_file env doc Hload Hleft.
    destruct (Group_from_yaml yaml_file env) as [g|e] eqn:Hg; [|eauto].
    exfalso. unfold Group_from_yaml in Hg. rewrite Hload in Hg.
    cbn [mbind result_bind] in Hg. inv_ok Hg. inv_pops. norm_dict.
    by apply truthy_dict in Heqb.
Qed.

End schemas.

Lemma Profile_from_yaml_closed_schema_witness :
  Profile_from_yaml (E := Demo.externals) "profiles/standard.profile" YNull
  = Ok (Some (Profile.mk "standard" (YStr "Standard") (YStr "A profile.")
                YNull
                (YList [YStr "service_telnet_disabled"; YStr "!bare";
                        YStr "var_length=strict"]))).
Proof.
  exact (proj1 (@Profile_from_yaml_closed_schema Demo.externals)
           "profiles/standard.profile" YNull Demo.profile_doc
           _ _ _ eq_refl eq_refl eq_refl eq_refl).
Defined.

Lemma Group_from_yaml_closed_schema_witness :
  Group_from_yaml (E := Demo.externals) "guide/services/group.yml" YNull
  = Ok (Some (Group.mk "services" (YStr "all") (YStr "Services")
                (YStr "Services.") (YList []) [] [] [] (YStr "machine"))).
Proof.
  exact (proj1 (@Group_from_yaml_closed_schema Demo.externals)
           "guide/services/group.yml" YNull Demo.group_doc
           _ _ eq_refl eq_refl eq_refl eq_refl).
Defined.

(** ** The references of a rule *)

Section references.
Context {E : Externals}.

Lemma validate_references_Ok r yaml_file :
  Rule_validate_references r yaml_file = Ok tt →
  ∃ refs, Rule.references r = YDict refs ∧ Forall valid_reference refs.
Proof.
  unfold Rule_validate_references.
  destruct (Rule.references r) as [| | | | |refs]; try done.
  intros Hv. cbn [items mbind result_bind] in Hv.
  exists refs. split; [done|].
  apply (for_each_unit
           (fun entry : yaml * yaml =>
              let '(ref_type, ref_val) := entry in
              match ref_type, ref_val with
              | YStr _, YStr ref_val_s =>
                  if String.eqb (Py.strip ref_val_s) ""
                  then Raise (ValueError (ReferenceEmpty ref_type yaml_file))
                  else Ok tt
              | _, _ =>
                  Raise (ValueError (ReferencesNotStrings ref_type yaml_file))
              end)) in Hv.
  eapply Forall_impl; [exact Hv|].
  intros [k v] Hkv. cbv beta iota in Hkv.
  destruct k as [| | |ks| |]; try done.
  destruct v as [| | |vs| |]; try done.
  exists ks, vs. split; [done|].
  destruct (String.eqb (Py.strip vs) "") eqn:Hs; [done|].
  by apply String.eqb_neq in Hs.
Qed.

(** X4. A parsed rule has a mapping of references, empty when the
    descriptor has no [references] key, in which every entry has a string
    key and a string value that is not blank once stripped. *)
Theorem parsed_references_are_valid :
  (∀ yaml_file env r,
     Rule_from_yaml yaml_file env = Ok (Some r) →
     ∃ refs, Rule.references r = YDict refs ∧ Forall valid_reference refs) ∧
  (∀ yaml_file env doc r,
     open_and_macro_expand yaml_file env = Ok (Some doc) →
     Rule_from_yaml yaml_file env = Ok (Some r) →
     Rule.references r = get_default "references" (YDict []) doc).
Proof.
  split.
  - intros yaml_file env r Hr. unfold Rule_from_yaml in Hr.
    destruct (os_path.splitext (os_path.basename yaml_file)) as [rule_id ext].
    inv_ok Hr. subst r. destruct a6.
    by apply validate_references_Ok in Ha6.
  - intros yaml_file env doc r Hload Hr. unfold Rule_from_yaml in Hr.
    rewrite Hload in Hr. cbn [mbind result_bind] in Hr.
    destruct (os_path.splitext (os_path.basename yaml_file)) as [rule_id ext].
    inv_ok Hr. inv_pops. cbn [Rule.references].
    unfold get_default. by norm_dict.
Qed.

End references.

Lemma parsed_references_are_valid_witness :
  ∃ r refs,
    Rule_from_yaml (E := Demo.externals)
      "guide/services/service_telnet_disabled.rule" YNull = Ok (Some r)
    ∧ Rule.references r = YDict refs
    ∧ Forall valid_reference refs.
Proof.
  assert (Hr : ∃ r, Rule_from_yaml (E := Demo.externals)
                      "guide/services/service_telnet_disabled.rule" YNull
                    = Ok (Some r))
    by (eexists; vm_compute; reflexivity).
  destruct Hr as [r Hr].
  destruct (proj1 (@parsed_references_are_valid Demo.externals)
              "guide/services/service_telnet_disabled.rule" YNull r Hr)
    as (refs & Hrefs & Hvalid).
  exists r, refs. split; [exact Hr|]. split; [exact Hrefs|exact Hvalid].
Defined.

(** ** Values of a container *)

Lemma sdict_keys_set {A} k (v : A) d :
  sdict_keys (sdict_set k v d)
  = match sdict_get k d with
    | Some _ => sdict_keys d
    | None => sdict_keys d ++ [k]
    end.
Proof.
  unfold sdict_keys. induction d as [|[k' v'] d IH]; simpl; [done|].
  destruct (String.eqb k' k) eqn:Hk; simpl.
  - apply String.eqb_eq in Hk. by subst.
  - rewrite IH. by destruct (sdict_get k d).
Qed.

(** X5. [add_value] of a Benchmark and of a Group stores the value under
    its id: a lookup of that id gives the value, every other id is as
    before, a value whose id is taken replaces the old one in its place
    and a value with a new id goes last; nothing but the values of the
    container changes. *)
Theorem add_value_then_lookup :
  (∀ b v,
     let b' := Benchmark_add_value b (Some v) in
     sdict_get (Value.id_ v) (Benchmark.values b') = Some v
     ∧ (∀ k, k ≠ Value.id_ v →
        sdict_get k (Benchmark.values b') = sdict_get k (Benchmark.values b))
     ∧ sdict_keys (Benchmark.values b')
       = match sdict_get (Value.id_ v) (Benchmark.values b) with
         | Some _ => sdict_keys (Benchmark.values b)
         | None => sdict_keys (Benchmark.values b) ++ [Value.id_ v]
         end
     ∧ Benchmark.set_values (Benchmark.values b) b' = b) ∧
  (∀ g v,
     let g' := Group_add_value g (Some v) in
     sdict_get (Value.id_ v) (Group.values g') = Some v
     ∧ (∀ k, k ≠ Value.id_ v →
        sdict_get k (Group.values g') = sdict_get k (Group.values g))
     ∧ sdict_keys (Group.values g')
       = match sdict_get (Value.id_ v) (Group.values g) with
         | Some _ => sdict_keys (Group.values g)
         | None => sdict_keys (Group.values g) ++ [Value.id_ v]
         end
     ∧ Group.set_values (Group.values g) g' = g).
Proof.
  split.
  - intros b v b'. unfold b', Benchmark_add_value. destruct b; simpl.
    split; [apply sdict_get_set_eq|].
    split; [intros k Hk; by apply sdict_get_set_ne|].
    split; [apply sdict_keys_set|done].
  - intros g v g'. unfold g', Group_add_value. destruct g; simpl.
    split; [apply sdict_get_set_eq|].
    split; [intros k Hk; by apply sdict_get_set_ne|].
    split; [apply sdict_keys_set|done].
Qed.

Lemma add_value_then_lookup_witness :
  sdict_get "conditional_clause"
    (Benchmark.values
       (Benchmark_add_value (Benchmark_init "product-name")
          (Some (Value.init "var_length"))))
  = sdict_get "conditional_clause"
      (Benchmark.values (Benchmark_init "product-name")).
Proof.
  apply (proj1 (proj2 (proj1 add_value_then_lookup
                         (Benchmark_init "product-name")
                         (Value.init "var_length")))).
  discriminate.
Defined.

(** ** Platforms that are not in the table *)

Section unsupported.
Context {E : Externals}.

(** X6. A rule that renders without a platform does not render with a
    platform whose name is not in the table: the error names the platform
    and the rule. *)
Theorem unsupported_platform_is_an_error :
  ∀ r el0 name,
    Rule_to_xml_element (Rule.set_platform YNull r) = Ok el0 →
    name ≠ "" →
    sdict_get name XCCDF_PLATFORM_TO_CPE = None →
    Rule_to_xml_element (Rule.set_platform (YStr name) r)
    = Raise (ValueError (UnsupportedPlatform (YStr name) (Rule.id_ r))).
Proof.
  intros r el0 name Hel0 Hname Hnone.
  rewrite Rule_render_set_platform, Hel0. cbn [mbind result_bind].
  unfold platform_element. cbn [truthy table_lookup].
  apply String.eqb_neq in Hname. rewrite Hname, Hnone. done.
Qed.

End unsupported.

Lemma unsupported_platform_is_an_error_witness :
  Rule_to_xml_element (E := Demo.externals)
    (Rule.mk "bare" (YStr "all") (YStr "Bare") (YStr "d") (YStr "r")
       (YStr "low") (YDict []) (YDict []) YNull YNull YNull (YList [])
       (YStr "toaster"))
  = Raise (ValueError (UnsupportedPlatform (YStr "toaster") "bare")).
Proof.
  assert (Hel : ∃ el0,
    Rule_to_xml_element (E := Demo.externals)
      (Rule.set_platform YNull
         (Rule.mk "bare" (YStr "all") (YStr "Bare") (YStr "d") (YStr "r")
            (YStr "low") (YDict []) (YDict []) YNull YNull YNull (YList [])
            YNull)) = Ok el0)
    by (eexists; vm_compute; reflexivity).
  destruct Hel as [el0 Hel].
  exact (@unsupported_platform_is_an_error Demo.externals _ el0 "toaster" Hel
           ltac:(discriminate) eq_refl).
Defined.

(** ** Keys with more than one [@] *)

Section many_ats.
Context {E : Externals}.

(** X7. A rule with an identifier or a reference whose key has two [@] or
    more does not render: the key is split at every [@] and the unpacking
    into a policy and a product raises. *)
Theorem doubly_qualified_key_does_not_render :
  ∀ r entries key val,
    (Rule.identifiers r = YDict entries
     ∨ Rule.references r = YDict entries) →
    In (YStr key, val) entries →
    (2 ≤ count_chr "@" key)%nat →
    ∃ e, Rule_to_xml_element r = Raise e.
Proof.
  intros r entries key val Hwhere Hin Hcount.
  destruct (Rule_to_xml_element r) as [el|e] eqn:Hel; [|eauto].
  exfalso. unfold Rule_to_xml_element in Hel. inv_ok Hel.
  assert (Hkeyed : ∃ rule0 tag_ rule1,
            keyed_elements tag_ rule0 (YDict entries) = Ok rule1).
  { destruct Hwhere as [<-| <-]; eauto. }
  destruct Hkeyed as (rule0 & tag_ & rule1 & Hk).
  clear -Hk Hin Hcount. unfold keyed_elements in Hk.
  cbn [items mbind result_bind] in Hk.
  destruct (for_each (keyed_step tag_) (rule0, ET_Element tag_) entries)
    as [acc|] eqn:Hloop; [|done].
  destruct (for_each_In _ _ _ _ _ Hloop Hin) as (s1 & s2 & Hstep).
  apply keyed_step_Ok_count in Hstep. lia.
Qed.

End many_ats.

Lemma doubly_qualified_key_does_not_render_witness :
  ∃ e,
    Rule_to_xml_element (E := Demo.externals)
      (Rule.mk "r" (YStr "all") (YStr "t") (YStr "d") (YStr "r")
         (YStr "low") (YDict [])
         (YDict [(YStr "stigid@rhel7@x", YStr "v")])
         YNull YNull YNull (YList []) YNull)
    = Raise e.
Proof.
  apply (@doubly_qualified_key_does_not_render Demo.externals _
           [(YStr "stigid@rhel7@x", YStr "v")] "stigid@rhel7@x" (YStr "v")).
  - left. reflexivity.
  - left. reflexivity.
  - vm_compute. lia.
Defined.

(** ** Linking without a platform *)

Lemma links_under_set id child d :
  links_under id child d (sdict_set id child d).
Proof.
  split; [apply sdict_get_set_eq|].
  intros k Hk. by apply sdict_get_set_ne.
Qed.

Lemma same_but_objects_insert i o st :
  same_but_objects st (set_heap (<[i := o]> (heap st)) st).
Proof. unfold same_but_objects. simpl. by rewrite length_insert. Qed.

Section plain_link.
Context {E : Externals}.

(** X8. Linking touches the child only to push a platform down. A group
    without a platform links a child of any class: afterwards the group
    is as before but for its groups (its rules, for [add_rule]), in
    which the child is found under its id, the other ids being as
    before; every other object of the store, the child among them, and
    the rest of the state are as they were. So does a Benchmark. A
    group with a platform cannot take a Benchmark as a child: a
    Benchmark has no platform to look at, the call raises and the store
    is as before. *)
Theorem linking_without_push_down :
  (∀ st self g child o,
     heap st !! self = Some (OGroup g) →
     truthy (Group.platform g) = false →
     heap st !! child = Some o →
     (∃ st' g',
        Group_add_group self (Some child) st = (st', Ok tt)
        ∧ heap st' !! self = Some (OGroup g')
        ∧ g' = Group.mk (Group.id_ g) (Group.prodtype g) (Group.title g)
                 (Group.description g) (Group.warnings g) (Group.values g)
                 (sdict_set (obj_id_ o) child (Group.groups g))
                 (Group.rules g) (Group.platform g)
        ∧ links_under (obj_id_ o) child (Group.groups g) (Group.groups g')
        ∧ (∀ i, i ≠ self → heap st' !! i = heap st !! i)
        ∧ same_but_objects st st')
     ∧ (∃ st' g',
          Group_add_rule self (Some child) st = (st', Ok tt)
          ∧ heap st' !! self = Some (OGroup g')
          ∧ g' = Group.mk (Group.id_ g) (Group.prodtype g) (Group.title g)
                   (Group.description g) (Group.warnings g) (Group.values g)
                   (Group.groups g)
                   (sdict_set (obj_id_ o) child (Group.rules g))
                   (Group.platform g)
          ∧ links_under (obj_id_ o) child (Group.rules g) (Group.rules g')
          ∧ (∀ i, i ≠ self → heap st' !! i = heap st !! i)
          ∧ same_but_objects st st')) ∧
  (∀ st self b child o,
     heap st !! self = Some (OBenchmark b) →
     heap st !! child = Some o →
     (∃ st' b',
        Benchmark_add_group self (Some child) st = (st', Ok tt)
        ∧ heap st' !! self = Some (OBenchmark b')
        ∧ b' = Benchmark.mk (Benchmark.id_ b) (Benchmark.title b)
                 (Benchmark.status b) (Benchmark.description b)
                 (Benchmark.notice_id b) (Benchmark.notice_description b)
                 (Benchmark.front_matter b) (Benchmark.rear_matter b)
                 (Benchmark.cpes b) (Benchmark.version b)
                 (Benchmark.profiles b) (Benchmark.values b)
                 (Benchmark.bash_remediation_fns_group b)
                 (sdict_set (obj_id_ o) child (Benchmark.groups b))
                 (Benchmark.rules b)
        ∧ links_under (obj_id_ o) child (Benchmark.groups b)
            (Benchmark.groups b')
        ∧ (∀ i, i ≠ self → heap st' !! i = heap st !! i)
        ∧ same_but_objects st st')
     ∧ (∃ st' b',
          Benchmark_add_rule self (Some child) st = (st', Ok tt)
          ∧ heap st' !! self = Some (OBenchmark b')
          ∧ b' = Benchmark.mk (Benchmark.id_ b) (Benchmark.title b)
                   (Benchmark.status b) (Benchmark.description b)
                   (Benchmark.notice_id b) (Benchmark.notice_description b)
                   (Benchmark.front_matter b) (Benchmark.rear_matter b)
                   (Benchmark.cpes b) (Benchmark.version b)
                   (Benchmark.profiles b) (Benchmark.values b)
                   (Benchmark.bash_remediation_fns_group b)
                   (Benchmark.groups b)
                   (sdict_set (obj_id_ o) child (Benchmark.rules b))
          ∧ links_under (obj_id_ o) child (Benchmark.rules b)
              (Benchmark.rules b')
          ∧ (∀ i, i ≠ self → heap st' !! i = heap st !! i)
          ∧ same_but_objects st st')) ∧
  (∀ st self g child b,
     heap st !! self = Some (OGroup g) →
     truthy (Group.platform g) = true →
     heap st !! child = Some (OBenchmark b) →
     Group_add_group self (Some child) st = (st, Raise AttributeError)).
Proof.
  assert (Hlinked : ∀ st self (o' : obj), is_Some (heap st !! self) →
    <[self := o']> (heap st) !! self = Some o'
    ∧ (∀ i, i ≠ self → <[self := o']> (heap st) !! i = heap st !! i)
    ∧ same_but_objects st (set_heap (<[self := o']> (heap st)) st)).
  { intros st self o' [o Hself]. split; [by eapply lookup_set_heap_eq|].
    split; [|apply same_but_objects_insert].
    intros i Hi. by apply list_lookup_insert_ne. }
  split; [|split].
  - intros st self g child o Hself Hg Hchild.
    assert (Hpush : push_platform g child st = (st, Ok tt)).
    { unfold push_platform. by rewrite Hg. }
    split.
    + eexists _, _. split.
      { unfold Group_add_group.
        rewrite bind_run, (get_obj_run _ _ _ Hself).
        rewrite bind_run, Hpush.
        rewrite bind_run, (get_obj_run _ _ _ Hchild).
        by rewrite bind_run, (get_obj_run _ _ _ Hself). }
      rewrite heap_set_heap.
      destruct (Hlinked st self
                  (OGroup (Group.set_groups
                             (sdict_set (obj_id_ o) child (Group.groups g))
                             g))) as (Hnew & Hrest & Hsame); [by eexists|].
      split; [exact Hnew|]. split; [done|].
      split; [apply links_under_set|]. by split.
    + eexists _, _. split.
      { unfold Group_add_rule.
        rewrite bind_run, (get_obj_run _ _ _ Hself).
        rewrite bind_run, Hpush.
        rewrite bind_run, (get_obj_run _ _ _ Hchild).
        by rewrite bind_run, (get_obj_run _ _ _ Hself). }
      rewrite heap_set_heap.
      destruct (Hlinked st self
                  (OGroup (Group.set_rules
                             (sdict_set (obj_id_ o) child (Group.rules g))
                             g))) as (Hnew & Hrest & Hsame); [by eexists|].
      split; [exact Hnew|]. split; [done|].
      split; [apply links_under_set|]. by split.
  - intros st self b child o Hself Hchild. split.
    + eexists _, _. split.
      { unfold Benchmark_add_group.
        rewrite bind_run, (get_obj_run _ _ _ Hchild).
        by rewrite bind_run, (get_obj_run _ _ _ Hself). }
      rewrite heap_set_heap.
      destruct (Hlinked st self
                  (OBenchmark (Benchmark.set_groups
                                 (sdict_set (obj_id_ o) child
                                    (Benchmark.groups b)) b)))
        as (Hnew & Hrest & Hsame); [by eexists|].
      split; [exact Hnew|]. split; [done|].
      split; [apply links_under_set|]. by split.
    + eexists _, _. split.
      { unfold Benchmark_add_rule.
        rewrite bind_run, (get_obj_run _ _ _ Hchild).
        by rewrite bind_run, (get_obj_run _ _ _ Hself). }
      rewrite heap_set_heap.
      destruct (Hlinked st self
                  (OBenchmark (Benchmark.set_rules
                                 (sdict_set (obj_id_ o) child
                                    (Benchmark.rules b)) b)))
        as (Hnew & Hrest & Hsame); [by eexists|].
      split; [exact Hnew|]. split; [done|].
      split; [apply links_under_set|]. by split.
  - intros st self g child b Hself Hg Hchild.
    unfold Group_add_group.
    rewrite bind_run, (get_obj_run _ _ _ Hself).
    rewrite bind_run. unfold push_platform. rewrite Hg.
    rewrite bind_run, (get_obj_run _ _ _ Hchild).
    by rewrite bind_run.
Qed.

End plain_link.

Lemma linking_without_push_down_witness :
  let g := Group.mk "services" (YStr "all") (YStr "Services")
             (YStr "Services.") (YList []) [] [] [("old", 7%nat)] YNull in
  let r := Rule.mk "bare" (YStr "all") (YStr "Bare") (YStr "d") (YStr "r")
             (YStr "low") (YDict []) (YDict []) YNull YNull YNull (YList [])
             YNull in
  let p := Group.mk "platformed" (YStr "all") (YStr "P") (YStr "P.")
             (YList []) [] [] [] (YStr "machine") in
  let b := Benchmark_init "product-name" in
  let st := mkState [OGroup g; ORule r; OBenchmark b; OGroup p] [] [] [] [] in
  (∃ st' g',
     Group_add_rule 0%nat (Some 1%nat) st = (st', Ok tt)
     ∧ heap st' !! 0%nat = Some (OGroup g')
     ∧ Group.rules g' = [("old", 7%nat); ("bare", 1%nat)]
     ∧ sdict_get "bare" (Group.rules g') = Some 1%nat
     ∧ heap st' !! 1%nat = Some (ORule r))
  ∧ (∃ st' b',
       Benchmark_add_group 2%nat (Some 0%nat) st = (st', Ok tt)
       ∧ heap st' !! 2%nat = Some (OBenchmark b')
       ∧ sdict_get "services" (Benchmark.groups b') = Some 0%nat
       ∧ heap st' !! 0%nat = Some (OGroup g))
  ∧ Group_add_group 3%nat (Some 2%nat) st = (st, Raise AttributeError).
Proof.
  intros g r p b st.
  pose proof linking_without_push_down as (Hgroup & Hbench & Hraise).
  split; [|split].
  - destruct (Hgroup st 0%nat g 1%nat (ORule r) eq_refl eq_refl eq_refl)
      as (_ & st' & g' & Hrun & Hself & Hg' & [Hget _] & Hrest & _).
    exists st', g'. split; [exact Hrun|]. split; [exact Hself|].
    split; [by rewrite Hg'|]. split; [exact Hget|].
    by rewrite Hrest.
  - destruct (Hbench st 2%nat b 0%nat (OGroup g) eq_refl eq_refl)
      as ((st' & b' & Hrun & Hself & _ & [Hget _] & Hrest & _) & _).
    exists st', b'. split; [exact Hrun|]. split; [exact Hself|].
    split; [exact Hget|]. by rewrite Hrest.
  - exact (Hraise st 3%nat p 2%nat b eq_refl eq_refl eq_refl).
Defined.

(** ** The options of a value *)

Section options.
Context {E : Externals}.

Lemma options_loop os : ∀ value el,
  for_each (fun value '(selector, option_) =>
      let value := ET_SubElement "value" value in
      let value :=
        if negb (eq_str selector "default")
        then on_last (ET_set "selector" (YStr (str selector))) value
        else value in
      Ok (on_last (ET_set_text (YStr (str option_))) value))
    value os = Ok el →
  el = append_all (map value_small os) value.
Proof.
  induction os as [|[selector option_] os IH]; intros value el; simpl.
  - intros [= <-]. by rewrite append_all_nil.
  - intros Hel. apply IH in Hel as ->.
    rewrite append_all_cons. f_equal. unfold value_small. simpl.
    destruct (eq_str selector "default"); simpl.
    + by rewrite on_last_SubElement.
    + by rewrite on_last_SubElement, on_last_append.
Qed.


End options.


(** ** More closed schemas *)

Section more_schemas.
Context {E : Externals}.

(** X10. A value descriptor whose fields are in order (title, description,
    type and options there, an operator of the seven or none, an
    interactive flag that is a string or absent, warnings of one pair
    each) parses exactly when it has no other field; otherwise the error
    names the file and the entries that are left. The interactive flag of
    the value is set exactly when the field, in lower case, is [true]. A
    descriptor with an entry left over never parses. *)
Theorem Value_from_yaml_closed_schema :
  (∀ yaml_file env doc title description type_ interactive options,
     open_and_expand yaml_file env = Ok (Some doc) →
     dict_get "title" doc = Some title →
     dict_get "description" doc = Some description →
     dict_get "type" doc = Some type_ →
     in_strs (get_default "operator" (YStr "equals") doc) possible_operators
     = true →
     lower (get_default "interactive" (YStr "false") doc) = Ok interactive →
     dict_get "options" doc = Some options →
     check_warnings (get_default "warnings" (YList []) doc) = Ok tt →
     Value_from_yaml yaml_file env
     = match leftover Value_keys doc with
       | [] =>
           Ok (Some (Value.mk
                       (os_path.splitext (os_path.basename yaml_file)).1
                       title description type_
                       (get_default "operator" (YStr "equals") doc)
                       (String.eqb interactive "true") options
                       (get_default "warnings" (YList []) doc)))
       | _ :: _ =>
           Raise (RuntimeError
                    (UnparsedYAML yaml_file (leftover Value_keys doc)))
       end) ∧
  (∀ yaml_file env doc,
     open_and_expand yaml_file env = Ok (Some doc) →
     leftover Value_keys doc ≠ [] →
     ∃ e, Value_from_yaml yaml_file env = Raise e).
Proof.
  split.
  - intros yaml_file env doc title description type_ interactive options
      Hload Ht Hd Hty Hop Hi Ho Hw.
    unfold Value_from_yaml, get_default, Value_keys in *.
    rewrite Hload. step. rewrite Ht. step. rewrite Hd. step.
    rewrite Hty. step. rewrite Hop. step. rewrite Hi. step.
    rewrite Ho. step. rewrite Hw. step. by destruct (leftover _ doc).
  - intros yaml_file env doc Hload Hleft.
    destruct (Value_from_yaml yaml_file env) as [v|e] eqn:Hv; [|eauto].
    exfalso. unfold Value_from_yaml in Hv. rewrite Hload in Hv.
    cbn [mbind result_bind] in Hv. inv_ok Hv. inv_pops. norm_dict.
    by apply truthy_dict in Heqb0.
Qed.

(** X11. A rule descriptor whose four required fields are there and whose
    warnings have one pair each is checked for leftovers before its
    identifiers and references are looked at: with an entry left over the
    error names the file and the entries that are left, whatever the
    identifiers are. With nothing left over the rule is the one made of
    the document (with the defaults of the optional fields), provided
    that its identifiers and its references validate; if they do not, the
    parse raises what the validation raises. *)
Theorem Rule_from_yaml_closed_schema :
  ∀ yaml_file env doc title description rationale severity,
    open_and_macro_expand yaml_file env = Ok (Some doc) →
    dict_get "title" doc = Some title →
    dict_get "description" doc = Some description →
    dict_get "rationale" doc = Some rationale →
    dict_get "severity" doc = Some severity →
    check_warnings (get_default "warnings" (YList []) doc) = Ok tt →
    let rule :=
      Rule.mk
        (if String.eqb (os_path.basename yaml_file) "rule.yml"
         then get_rule_dir_id yaml_file
         else (os_path.splitext (os_path.basename yaml_file)).1)
        (get_default "prodtype" (YStr "all") doc)
        title description rationale severity
        (get_default "references" (YDict []) doc)
        (get_default "identifiers" (YDict []) doc)
        (get_default "ocil_clause" YNull doc)
        (get_default "ocil" YNull doc)
        (get_default "oval_external_content" YNull doc)
        (get_default "warnings" (YList []) doc)
        (get_default "platform" YNull doc) in
    Rule_from_yaml yaml_file env
    = match leftover Rule_keys doc with
      | [] =>
          _ ← Rule_validate_identifiers rule yaml_file;
          _ ← Rule_validate_references rule yaml_file;
          Ok (Some rule)
      | _ :: _ =>
          Raise (RuntimeError
                   (UnparsedYAML yaml_file (leftover Rule_keys doc)))
      end.
Proof.
  intros yaml_file env doc title description rationale severity
    Hload Ht Hd Hra Hse Hw rule.
  unfold rule, Rule_from_yaml, get_default, Rule_keys in *.
  rewrite <-rule_yml_test.
  destruct (os_path.splitext (os_path.basename yaml_file)) as [rule_id ext].
  rewrite Hload. step. rewrite Ht. step. rewrite Hd. step.
  rewrite Hra. step. rewrite Hse. step. rewrite Hw. step.
  by destruct (leftover _ doc).
Qed.

End more_schemas.

Lemma Value_from_yaml_closed_schema_witness :
  ∃ v, Value_from_yaml (E := Demo.externals)
         "guide/services/var_length.var" YNull = Ok (Some v)
       ∧ Value.interactive v = false.
Proof.
  eexists. split.
  - etrans.
    + eapply (proj1 (@Value_from_yaml_closed_schema Demo.externals)
                "guide/services/var_length.var" YNull Demo.value_doc);
        reflexivity.
    + vm_compute. reflexivity.
  - reflexivity.
Defined.

Lemma Rule_from_yaml_closed_schema_witness :
  ∃ r, Rule_from_yaml (E := Demo.externals)
         "guide/services/bare/rule.yml" YNull = Ok (Some r)
       ∧ Rule.prodtype r = YStr "all".
Proof.
  eexists. split.
  - etrans.
    + exact (@Rule_from_yaml_closed_schema Demo.externals
               "guide/services/bare/rule.yml" YNull Demo.bare_rule_doc
               _ _ _ _ eq_refl eq_refl eq_refl eq_refl eq_refl eq_refl).
    + vm_compute. reflexivity.
  - reflexivity.
Defined.

(** ** The benchmark descriptor *)

Lemma existsb_key_is_update ks k v e :
  existsb (fun k0 => key_is k0 (if key_is k e then (e.1, v) else e)) ks
  = existsb (fun k0 => key_is k0 e) ks.
Proof. by destruct (key_is k e), e. Qed.

Lemma leftover_dict_update ks k v d :
  leftover ks (dict_update k v d) = dict_update k v (leftover ks d).
Proof.
  unfold dict_update. induction d as [|e d IH]; [done|].
  cbn [map]. rewrite !leftover_cons, existsb_key_is_update.
  destruct (existsb _ ks); cbn [negb map]; by rewrite IH.
Qed.

Lemma dict_get_dict_update k k' v d :
  dict_get k (dict_update k' v d)
  = if String.eqb k k' then (fun _ => v) <$> dict_get k d else dict_get k d.
Proof.
  unfold dict_update. induction d as [|[k0 v0] d IH]; cbn [map].
  - by destruct String.eqb.
  - rewrite !dict_get_cons.
    destruct k0 as [| | |s| |]; cbn [key_is eq_str fst snd]; try exact IH.
    destruct (String.eqb s k') eqn:Hk'; cbn [key_is eq_str fst snd].
    + apply String.eqb_eq in Hk' as ->.
      destruct (String.eqb k' k) eqn:Hk.
      * apply String.eqb_eq in Hk as ->. by rewrite String.eqb_refl.
      * rewrite IH. done.
    + destruct (String.eqb s k) eqn:Hk; [|exact IH].
      apply String.eqb_eq in Hk as ->.
      by rewrite (proj2 (String.eqb_neq k k'))
        by (apply String.eqb_neq in Hk'; congruence).
Qed.

Section benchmark.
Context {E : Externals}.

(** X12. A benchmark descriptor whose fields are there (title, status,
    description, a notice with an id and a description, front-matter,
    rear-matter, version) parses exactly when neither the document nor
    its notice has another entry; otherwise the error names the file and
    what is left, the notice among it with its unknown entries. The
    benchmark holds the fields of the document, the version as text, the
    CPEs of the product when a product is given, and, from its
    construction, the one value [conditional_clause] and no profile,
    group or rule. *)
Theorem Benchmark_from_yaml_closed_schema :
  ∀ yaml_file id_ product_yaml doc title status description notice
    notice_id notice_description front_matter rear_matter version,
    open_and_macro_expand yaml_file product_yaml = Ok (Some doc) →
    dict_get "title" doc = Some title →
    dict_get "status" doc = Some status →
    dict_get "description" doc = Some description →
    dict_get "notice" doc = Some (YDict notice) →
    dict_get "id" notice = Some notice_id →
    dict_get "description" notice = Some notice_description →
    dict_get "front-matter" doc = Some front_matter →
    dict_get "rear-matter" doc = Some rear_matter →
    dict_get "version" doc = Some version →
    Benchmark_from_yaml yaml_file id_ product_yaml
    = match Benchmark_residual doc notice with
      | [] =>
          cpes ← (if truthy product_yaml then
                    product ← getitem product_yaml "product";
                    table_lookup PRODUCT_TO_CPE_MAPPING product
                  else Ok []);
          Ok (Some (Benchmark.mk id_ title status description notice_id
                      notice_description front_matter rear_matter cpes
                      (YStr (str version)) []
                      [("conditional_clause",
                        Value.mk "conditional_clause"
                          (YStr "A conditional clause for check statements.")
                          (YStr "A conditional clause for check statements.")
                          (YStr "string") (YStr "equals") false
                          (YDict [(YStr "", YStr "This is a placeholder")])
                          (YList []))]
                      None [] []))
      | _ :: _ =>
          Raise (RuntimeError
                   (UnparsedYAML yaml_file (Benchmark_residual doc notice)))
      end
    ∧ (leftover notice_keys notice ≠ [] → Benchmark_residual doc notice ≠ []).
Proof.
  intros yaml_file id_ product_yaml doc title status description notice
    notice_id notice_description front_matter rear_matter version
    Hload Ht Hs Hd Hn Hnid Hnd Hf Hr Hv.
  split.
  - unfold Benchmark_from_yaml, Benchmark_residual, Benchmark_keys,
      notice_keys.
    rewrite Hload. step. rewrite Ht. step. rewrite Hs. step.
    rewrite Hd. step. rewrite Hn. step. rewrite Hnid. step.
    rewrite Hnd. step.
    destruct (leftover ["id"; "description"] notice) as [|x rest] eqn:Hrest.
    + cbn [truthy negb]. step. rewrite Hf. step. rewrite Hr. step.
      rewrite Hv. step. by destruct (leftover _ doc).
    + cbn [truthy negb].
      rewrite ?dict_del_leftover, ?leftover_dict_update, ?leftover_leftover.
      cbn [app].
      rewrite ?dict_del_leftover, ?leftover_dict_update, ?leftover_leftover.
      cbn [app].
      rewrite !dict_get_dict_update, !dict_get_leftover.
      cbn [String.eqb Ascii.eqb Bool.eqb existsb orb]. rewrite Hf.
      cbn [mbind result_bind].
      rewrite ?dict_del_leftover, ?leftover_dict_update, ?leftover_leftover.
      cbn [app].
      rewrite ?dict_get_dict_update, ?dict_get_leftover.
      cbn [String.eqb Ascii.eqb Bool.eqb existsb orb]. rewrite Hr.
      cbn [mbind result_bind].
      rewrite ?dict_del_leftover, ?leftover_dict_update, ?leftover_leftover.
      cbn [app].
      rewrite ?dict_get_dict_update, ?dict_get_leftover.
      cbn [String.eqb Ascii.eqb Bool.eqb existsb orb]. rewrite Hv.
      cbn [mbind result_bind].
      rewrite ?dict_del_leftover, ?leftover_dict_update, ?leftover_leftover.
      cbn [app].
      by destruct (dict_update _ _ _).
  - intros Hrest. unfold Benchmark_residual.
    destruct (leftover notice_keys notice) as [|x rest]; [done|].
    intros Hnil.
    assert (Hget : dict_get "notice"
                     (dict_update "notice" (YDict (x :: rest))
                        (leftover ["title"; "status"; "description";
                                   "front-matter"; "rear-matter"; "version"]
                           doc)) = Some (YDict (x :: rest))).
    { rewrite dict_get_dict_update, dict_get_leftover. simpl.
      by rewrite Hn. }
    by rewrite Hnil in Hget.
Qed.

End benchmark.

Lemma Benchmark_from_yaml_closed_schema_witness :
  ∃ b, Benchmark_from_yaml (E := Demo.externals) "guide/benchmark.yml"
         "product-name" YNull = Ok (Some b)
       ∧ sdict_keys (Benchmark.values b) = ["conditional_clause"].
Proof.
  eexists. split.
  - etrans.
    + eapply (proj1 (@Benchmark_from_yaml_closed_schema Demo.externals
                       "guide/benchmark.yml" "product-name" YNull
                       Demo.benchmark_doc _ _ _ _ _ _ _ _ _
                       eq_refl eq_refl eq_refl eq_refl eq_refl eq_refl
                       eq_refl eq_refl eq_refl eq_refl)).
    + vm_compute. reflexivity.
  - reflexivity.
Defined.

(** ** The five closed schemas together *)

Section closed.
Context {E : Externals}.

(** C1, as amended. For each of the five kinds, take a descriptor whose
    recognised fields can be taken out and pass the checks of the kind
    (the required fields are there; the operator of a value is one of
    the seven and its interactive flag is a string; the warnings of a
    value, a group or a rule have one entry each; the notice of a
    benchmark is a mapping with an id and a description). If an entry
    is left, the parse fails with the error that names the file and the
    entries that are left (for a benchmark the notice is among them,
    cut down to its unknown entries, when it has any). If none is left,
    a profile, a value and a group parse to the entity made of the
    document; a rule does when its identifiers and references validate,
    and fails with the error of the validation otherwise; a benchmark
    does when no product is given or the product is in the table of
    CPEs. *)
Theorem schemas_are_closed :
  (∀ yaml_file env doc title description selections,
     open_and_expand yaml_file env = Ok (Some doc) →
     dict_get "title" doc = Some title →
     dict_get "description" doc = Some description →
     dict_get "selections" doc = Some selections →
     Profile_from_yaml yaml_file env
     = match leftover Profile_keys doc with
       | [] =>
           Ok (Some (Profile.mk
                       (os_path.splitext (os_path.basename yaml_file)).1
                       title description (get_default "extends" YNull doc)
                       selections))
       | _ :: _ =>
           Raise (RuntimeError
                    (UnparsedYAML yaml_file (leftover Profile_keys doc)))
       end) ∧
  (∀ yaml_file env doc title description type_ interactive options,
     open_and_expand yaml_file env = Ok (Some doc) →
     dict_get "title" doc = Some title →
     dict_get "description" doc = Some description →
     dict_get "type" doc = Some type_ →
     in_strs (get_default "operator" (YStr "equals") doc) possible_operators
     = true →
     lower (get_default "interactive" (YStr "false") doc) = Ok interactive →
     dict_get "options" doc = Some options →
     check_warnings (get_default "warnings" (YList []) doc) = Ok tt →
     Value_from_yaml yaml_file env
     = match leftover Value_keys doc with
       | [] =>
           Ok (Some (Value.mk
                       (os_path.splitext (os_path.basename yaml_file)).1
                       title description type_
                       (get_default "operator" (YStr "equals") doc)
                       (String.eqb interactive "true") options
                       (get_default "warnings" (YList []) doc)))
       | _ :: _ =>
           Raise (RuntimeError
                    (UnparsedYAML yaml_file (leftover Value_keys doc)))
       end) ∧
  (∀ yaml_file env doc title description,
     open_and_macro_expand yaml_file env = Ok (Some doc) →
     dict_get "title" doc = Some title →
     dict_get "description" doc = Some description →
     check_warnings (get_default "warnings" (YList []) doc) = Ok tt →
     Group_from_yaml yaml_file env
     = match leftover Group_keys doc with
       | [] =>
           Ok (Some (Group.mk
                       (os_path.basename (os_path.dirname yaml_file))
                       (get_default "prodtype" (YStr "all") doc)
                       title description
                       (get_default "warnings" (YList []) doc)
                       [] [] []
                       (get_default "platform" YNull doc)))
       | _ :: _ =>
           Raise (RuntimeError
                    (UnparsedYAML yaml_file (leftover Group_keys doc)))
       end) ∧
  (∀ yaml_file env doc title description rationale severity,
     open_and_macro_expand yaml_file env = Ok (Some doc) →
     dict_get "title" doc = Some title →
     dict_get "description" doc = Some description →
     dict_get "rationale" doc = Some rationale →
     dict_get "severity" doc = Some severity →
     check_warnings (get_default "warnings" (YList []) doc) = Ok tt →
     let rule :=
       Rule.mk
         (if String.eqb (os_path.basename yaml_file) "rule.yml"
          then get_rule_dir_id yaml_file
          else (os_path.splitext (os_path.basename yaml_file)).1)
         (get_default "prodtype" (YStr "all") doc)
         title description rationale severity
         (get_default "references" (YDict []) doc)
         (get_default "identifiers" (YDict []) doc)
         (get_default "ocil_clause" YNull doc)
         (get_default "ocil" YNull doc)
         (get_default "oval_external_content" YNull doc)
         (get_default "warnings" (YList []) doc)
         (get_default "platform" YNull doc) in
     Rule_from_yaml yaml_file env
     = match leftover Rule_keys doc with
       | [] =>
           _ ← Rule_validate_identifiers rule yaml_file;
           _ ← Rule_validate_references rule yaml_file;
           Ok (Some rule)
       | _ :: _ =>
           Raise (RuntimeError
                    (UnparsedYAML yaml_file (leftover Rule_keys doc)))
       end) ∧
  (∀ yaml_file id_ product_yaml doc title status description notice
     notice_id notice_description front_matter rear_matter version,
     open_and_macro_expand yaml_file product_yaml = Ok (Some doc) →
     dict_get "title" doc = Some title →
     dict_get "status" doc = Some status →
     dict_get "description" doc = Some description →
     dict_get "notice" doc = Some (YDict notice) →
     dict_get "id" notice = Some notice_id →
     dict_get "description" notice = Some notice_description →
     dict_get "front-matter" doc = Some front_matter →
     dict_get "rear-matter" doc = Some rear_matter →
     dict_get "version" doc = Some version →
     Benchmark_from_yaml yaml_file id_ product_yaml
     = match Benchmark_residual doc notice with
       | [] =>
           cpes ← (if truthy product_yaml then
                     product ← getitem product_yaml "product";
                     table_lookup PRODUCT_TO_CPE_MAPPING product
                   else Ok []);
           Ok (Some (Benchmark.mk id_ title status description notice_id
                       notice_description front_matter rear_matter cpes
                       (YStr (str version)) []
                       [("conditional_clause",
                         Value.mk "conditional_clause"
                           (YStr "A conditional clause for check statements.")
                           (YStr "A conditional clause for check statements.")
                           (YStr "string") (YStr "equals") false
                           (YDict [(YStr "", YStr "This is a placeholder")])
                           (YList []))]
                       None [] []))
       | _ :: _ =>
           Raise (RuntimeError
                    (UnparsedYAML yaml_file (Benchmark_residual doc notice)))
       end).
Proof.
  split; [|split; [|split; [|split]]].
  - intros yaml_file env doc title description selections
      Hload Ht Hd Hs.
    unfold Profile_from_yaml, get_default, Profile_keys.
    rewrite Hload. step. rewrite Ht. step. rewrite Hd. step.
    rewrite Hs. step. by destruct (leftover _ doc).
  - intros yaml_file env doc title description type_ interactive options
      Hload Ht Hd Hty Hop Hi Ho Hw.
    unfold Value_from_yaml, get_default, Value_keys in *.
    rewrite Hload. step. rewrite Ht. step. rewrite Hd. step.
    rewrite Hty. step. rewrite Hop. step. rewrite Hi. step.
    rewrite Ho. step. rewrite Hw. step. by destruct (leftover _ doc).
  - intros yaml_file env doc title description Hload Ht Hd Hw.
    unfold Group_from_yaml, get_default, Group_keys in *.
    rewrite Hload. step. rewrite Ht. step. rewrite Hd. step.
    rewrite Hw. step. by destruct (leftover _ doc).
  - intros yaml_file env doc title description rationale severity
      Hload Ht Hd Hra Hse Hw rule.
    unfold rule, Rule_from_yaml, get_default, Rule_keys in *.
    rewrite <-rule_yml_test.
    destruct (os_path.splitext (os_path.basename yaml_file)) as [rule_id ext].
    rewrite Hload. step. rewrite Ht. step. rewrite Hd. step.
    rewrite Hra. step. rewrite Hse. step. rewrite Hw. step.
    by destruct (leftover _ doc).
  - intros yaml_file id_ product_yaml doc title status description notice
      notice_id notice_description front_matter rear_matter version
      Hload Ht Hs Hd Hn Hnid Hnd Hf Hr Hv.
    unfold Benchmark_from_yaml, Benchmark_residual, Benchmark_keys,
      notice_keys.
    rewrite Hload. step. rewrite Ht. step. rewrite Hs. step.
    rewrite Hd. step. rewrite Hn. step. rewrite Hnid. step.
    rewrite Hnd. step.
    destruct (leftover ["id"; "description"] notice) as [|x rest] eqn:Hrest.
    + cbn [truthy negb]. step. rewrite Hf. step. rewrite Hr. step.
      rewrite Hv. step. by destruct (leftover _ doc).
    + cbn [truthy negb].
      rewrite ?dict_del_leftover, ?leftover_dict_update, ?leftover_leftover.
      cbn [app].
      rewrite ?dict_del_leftover, ?leftover_dict_update, ?leftover_leftover.
      cbn [app].
      rewrite !dict_get_dict_update, !dict_get_leftover.
      cbn [String.eqb Ascii.eqb Bool.eqb existsb orb]. rewrite Hf.
      cbn [mbind result_bind].
      rewrite ?dict_del_leftover, ?leftover_dict_update, ?leftover_leftover.
      cbn [app].
      rewrite ?dict_get_dict_update, ?dict_get_leftover.
      cbn [String.eqb Ascii.eqb Bool.eqb existsb orb]. rewrite Hr.
      cbn [mbind result_bind].
      rewrite ?dict_del_leftover, ?leftover_dict_update, ?leftover_leftover.
      cbn [app].
      rewrite ?dict_get_dict_update, ?dict_get_leftover.
      cbn [String.eqb Ascii.eqb Bool.eqb existsb orb]. rewrite Hv.
      cbn [mbind result_bind].
      rewrite ?dict_del_leftover, ?leftover_dict_update, ?leftover_leftover.
      cbn [app].
      by destruct (dict_update _ _ _).
Qed.

End closed.

Lemma schemas_are_closed_witness :
  let E : Externals := Demo.externals in
  (∃ p, Profile_from_yaml "profiles/standard.profile" YNull = Ok (Some p))
  ∧ (∃ v, Value_from_yaml "guide/services/var_length.var" YNull
          = Ok (Some v))
  ∧ Group_from_yaml "typo/group.yml" YNull
    = Raise (RuntimeError
               (UnparsedYAML "typo/group.yml"
                  [(YStr "platfrom", YStr "machine")]))
  ∧ (∃ r, Rule_from_yaml "guide/services/service_telnet_disabled.rule" YNull
          = Ok (Some r))
  ∧ (∃ b, Benchmark_from_yaml "guide/benchmark.yml" "product-name" YNull
          = Ok (Some b)).
Proof.
  intros E.
  pose proof (@schemas_are_closed E) as (Hp & Hv & Hg & Hr & Hb).
  split; [|split; [|split; [|split]]].
  - eexists. etrans.
    + exact (Hp "profiles/standard.profile" YNull Demo.profile_doc
               _ _ _ eq_refl eq_refl eq_refl eq_refl).
    + vm_compute. reflexivity.
  - eexists. etrans.
    + eapply (Hv "guide/services/var_length.var" YNull Demo.value_doc);
        reflexivity.
    + vm_compute. reflexivity.
  - etrans.
    + exact (Hg "typo/group.yml" YNull Demo.typo_group_doc
               _ _ eq_refl eq_refl eq_refl eq_refl).
    + vm_compute. reflexivity.
  - eexists. etrans.
    + exact (Hr "guide/services/service_telnet_disabled.rule" YNull
               Demo.rule_doc _ _ _ _ eq_refl eq_refl eq_refl eq_refl
               eq_refl eq_refl).
    + vm_compute. reflexivity.
  - eexists. etrans.
    + eapply (Hb "guide/benchmark.yml" "product-name" YNull
                Demo.benchmark_doc _ _ _ _ _ _ _ _ _
                eq_refl eq_refl eq_refl eq_refl eq_refl eq_refl
                eq_refl eq_refl eq_refl eq_refl).
    + vm_compute. reflexivity.
Defined.

(** C1, as stated, fails where a kind has a check of its own: this value
    descriptor has every required field and no other entry than those
    of a value, and it does not parse, because its operator is not one
    of the seven. *)
Lemma valid_fields_yet_rejected_counterexample :
  let E : Externals := Demo.externals in
  ∃ doc,
    open_and_expand "guide/services/bad.var" YNull = Ok (Some doc)
    ∧ is_Some (dict_get "title" doc)
    ∧ is_Some (dict_get "description" doc)
    ∧ is_Some (dict_get "type" doc)
    ∧ is_Some (dict_get "options" doc)
    ∧ leftover Value_keys doc = []
    ∧ Value_from_yaml "guide/services/bad.var" YNull
      = Raise (ValueError
                 (InvalidOperator (YStr "at least")
                    "guide/services/bad.var")).
Proof.
  intros E. exists Demo.bad_operator_doc.
  split; [reflexivity|].
  repeat (split; [by eexists|]).
  split; vm_compute; reflexivity.
Qed.

(** ** Files *)

Lemma keeps_files_ret {A} (a : A) : keeps_files (mret a).
Proof. by intros st. Qed.

Lemma keeps_files_raise {A} e : keeps_files (raise (A := A) e).
Proof. by intros st. Qed.

Lemma keeps_files_lift {A} (r : result A) : keeps_files (lift r).
Proof. by intros st. Qed.

Lemma keeps_files_print line : keeps_files (print line).
Proof. by intros st. Qed.

Lemma keeps_files_stderr_write s : keeps_files (stderr_write s).
Proof. by intros st. Qed.

Lemma keeps_files_alloc o : keeps_files (alloc o).
Proof. by intros st. Qed.

Lemma keeps_files_get_obj r : keeps_files (get_obj r).
Proof. intros st. unfold get_obj. by destruct (heap st !! r). Qed.

Lemma keeps_files_set_obj r o : keeps_files (set_obj r o).
Proof. by intros st. Qed.

Lemma keeps_files_bind {A B} (m : M A) (f : A → M B) :
  keeps_files m → (∀ a, keeps_files (f a)) → keeps_files (m ≫= f).
Proof.
  intros Hm Hf st. rewrite bind_run. specialize (Hm st).
  destruct (m st) as [st' [a|e]]; simpl in *; [|done].
  by rewrite Hf.
Qed.

Lemma keeps_files_for_each_M {A S} (body : S → A → M S) l :
  (∀ s x, keeps_files (body s x)) → ∀ s, keeps_files (for_each_M body s l).
Proof.
  intros Hbody. induction l as [|x l IH]; intros s.
  - apply keeps_files_ret.
  - rewrite for_each_M_cons. by apply keeps_files_bind.
Qed.

Ltac keeps :=
  repeat first
    [ apply keeps_files_ret | apply keeps_files_raise
    | apply keeps_files_lift | apply keeps_files_print
    | apply keeps_files_stderr_write | apply keeps_files_alloc
    | apply keeps_files_get_obj | apply keeps_files_set_obj
    | apply keeps_files_bind; [|intros ?]
    | apply keeps_files_for_each_M; intros ? ?
    | match goal with
      | |- keeps_files (match ?x with _ => _ end) => destruct x
      end ].

Section files.
Context {E : Externals}.

Lemma keeps_files_listdir path : keeps_files (listdir path).
Proof. by intros st. Qed.

Lemma keeps_files_add_value self value : keeps_files (add_value self value).
Proof. unfold add_value. keeps. Qed.

Lemma keeps_files_add_group self group : keeps_files (add_group self group).
Proof.
  unfold add_group, Benchmark_add_group, Group_add_group, push_platform.
  keeps.
Qed.

Lemma keeps_files_add_rule self rule : keeps_files (add_rule self rule).
Proof.
  unfold add_rule, Benchmark_add_rule, Group_add_rule, push_platform.
  keeps.
Qed.

Lemma keeps_files_classify guide_directory b dir_item :
  keeps_files (classify guide_directory b dir_item).
Proof. unfold classify. keeps. Qed.

Lemma keeps_files_load group_file benchmark_file guide_directory action
    profiles_dir env_yaml bash_remediation_fns :
  keeps_files
    (load_benchmark_or_group group_file benchmark_file guide_directory
       action profiles_dir env_yaml bash_remediation_fns).
Proof.
  unfold load_benchmark_or_group, Benchmark_add_profiles_from_dir,
    Benchmark_add_bash_remediation_fns_from_file.
  keeps; apply keeps_files_listdir.
Qed.

(** Below the top of the tree, or when the action is not [build], a run
    writes no file. *)
Lemma keeps_files_nested depth action : ∀ parent_group guide_directory
    profiles_dir bash_remediation_fns output_file env_yaml,
  String.eqb action "build" = false ∨ is_Some parent_group →
  keeps_files
    (add_from_directory depth action parent_group guide_directory
       profiles_dir bash_remediation_fns output_file env_yaml).
Proof.
  induction depth as [|depth IH]; intros parent_group guide_directory
    profiles_dir bash_remediation_fns output_file env_yaml Hwhere.
  - apply keeps_files_raise.
  - cbn [add_from_directory].
    apply keeps_files_bind; [apply keeps_files_listdir|intros entries].
    apply keeps_files_bind;
      [apply keeps_files_for_each_M; intros; apply keeps_files_classify|].
    intros b.
    apply keeps_files_bind; [apply keeps_files_load|intros [group|]];
      [|apply keeps_files_ret].
    apply keeps_files_bind.
    { destruct parent_group; [apply keeps_files_add_group|apply keeps_files_ret]. }
    intros _. apply keeps_files_bind.
    { apply keeps_files_for_each_M. intros _ value_yaml.
      destruct (String.eqb action "list-inputs"); [apply keeps_files_print|].
      apply keeps_files_bind; [apply keeps_files_lift|intros value].
      apply keeps_files_add_value. }
    intros _. apply keeps_files_bind.
    { apply keeps_files_for_each_M. intros _ subdir. apply IH.
      right. by eexists. }
    intros _. apply keeps_files_bind.
    { apply keeps_files_for_each_M. intros _ rule_yaml.
      destruct (String.eqb action "list-inputs"); [apply keeps_files_print|].
      apply keeps_files_bind; [apply keeps_files_lift|intros [rule|]];
        [|apply keeps_files_add_rule].
      apply keeps_files_bind; [apply keeps_files_alloc|intros r].
      apply keeps_files_add_rule. }
    intros _. destruct parent_group as [parent|]; [apply keeps_files_ret|].
    destruct Hwhere as [->|[? [=]]]. apply keeps_files_ret.
Qed.

Lemma for_each_M_keeps {A S B} (f : state → B) (body : S → A → M S) l :
  (∀ s x st, f (body s x st).1 = f st) →
  ∀ s st, f (for_each_M body s l st).1 = f st.
Proof.
  intros Hbody. induction l as [|x l IH]; intros s st; [done|].
  rewrite for_each_M_cons, bind_run. specialize (Hbody s x st).
  destruct (body s x st) as [st' [s'|e]]; simpl in *; [|done].
  by rewrite IH.
Qed.

Lemma classify_keeps_heap guide_directory b dir_item st :
  heap (classify guide_directory b dir_item st).1 = heap st.
Proof.
  unfold classify.
  repeat match goal with
         | |- context [if ?c then _ else _] => destruct c
         end; done.
Qed.

Lemma bind_Ok_inv {A B} (m : M A) (f : A → M B) st st' b :
  (m ≫= f) st = (st', Ok b) →
  ∃ st1 a, m st = (st1, Ok a) ∧ f a st1 = (st', Ok b).
Proof.
  rewrite bind_run. destruct (m st) as [st1 [a|e]]; [eauto|done].
Qed.

(** The object that [load_benchmark_or_group] returns is the first one
    that it makes. *)
Lemma load_returns_fresh group_file benchmark_file guide_directory action
    profiles_dir env_yaml bash_remediation_fns st st' group :
  load_benchmark_or_group group_file benchmark_file guide_directory action
    profiles_dir env_yaml bash_remediation_fns st = (st', Ok (Some group)) →
  group = length (heap st).
Proof.
  unfold load_benchmark_or_group.
  destruct (path_truthy group_file && path_truthy benchmark_file) eqn:Hboth;
    [done|].
  intros (st1 & r & Hfirst & Hsecond)%bind_Ok_inv.
  assert (Hgroup : ∀ st0 r0, st0 = st →
    match group_file with
    | Some group_file_ =>
        if path_truthy group_file then
          g ← lift (Group_from_yaml group_file_ env_yaml);
          group ← match g with
                  | Some g => r ← alloc (OGroup g); mret (Some r)
                  | None => mret None
                  end;
          _ ← (if String.eqb action "list-inputs"
               then print group_file_ else mret tt);
          mret group
        else mret None
    | None => mret None
    end st0 = (st', Ok r0) →
    r0 = Some group → group = length (heap st)).
  { intros st0 r0 -> Hrun Hr0. subst r0.
    destruct group_file as [gf|]; [|done].
    destruct (path_truthy (Some gf)); [|done].
    apply bind_Ok_inv in Hrun as (st2 & g & Hg & Hrun).
    injection Hg as <- Hg.
    apply bind_Ok_inv in Hrun as (st3 & r1 & Hr1 & Hrun).
    apply bind_Ok_inv in Hrun as (st4 & [] & _ & Hrun).
    injection Hrun as _ ->.
    destruct g as [g|]; [|done].
    apply bind_Ok_inv in Hr1 as (st5 & r2 & Halloc & Hr1).
    injection Halloc as _ <-. by injection Hr1 as _ <-. }
  destruct benchmark_file as [bf|].
  - destruct (path_truthy (Some bf)) eqn:Hbf.
    + rewrite andb_true_r in Hboth.
      apply bind_Ok_inv in Hfirst as (st2 & b & Hb & Hfirst).
      injection Hb as <- Hb.
      destruct b as [b|]; [|done].
      apply bind_Ok_inv in Hfirst as (st3 & g0 & Halloc & Hfirst).
      injection Halloc as _ <-.
      apply bind_Ok_inv in Hfirst as (st4 & [] & _ & Hfirst).
      apply bind_Ok_inv in Hfirst as (st5 & [] & _ & Hfirst).
      apply bind_Ok_inv in Hfirst as (st6 & [] & _ & Hfirst).
      injection Hfirst as _ <-.
      destruct group_file as [gf|]; [rewrite Hboth in Hsecond|];
        by injection Hsecond as _ <-.
    + injection Hfirst as <- <-. by eapply Hgroup.
  - injection Hfirst as <- <-. by eapply Hgroup.
Qed.


End files.


(** ** Warnings, from the check of the parser to the rendering *)

Section warnings.
Context {E : Externals}.

Lemma checked_mappings ws :
  check_warnings (YList ws) = Ok tt → Forall is_mapping ws →
  ∃ pairs, ws = map (fun kv => YDict [kv]) pairs.
Proof.
  unfold check_warnings. cbn [iter mbind result_bind].
  induction ws as [|w ws IH]; intros Hcheck Hmaps.
  - by exists [].
  - apply Forall_cons in Hmaps as [Hw Hmaps].
    destruct w as [| | | | |d]; try done.
    destruct d as [|kv [|? ?]]; try done.
    cbn [for_each len mbind result_bind length Nat.eqb negb] in Hcheck.
    destruct (IH Hcheck Hmaps) as [pairs ->].
    by exists (kv :: pairs).
Qed.

Lemma warning_round el k v :
  (data ← first_value (YDict [(k, v)]);
   element_ ← add_sub_element el "warning" data;
   category ← first_key (YDict [(k, v)]);
   Ok (on_last (ET_set "category" category) element_))
  = match ET_fromstring (warning_markup v) with
    | Some c0 => Ok (ET_append (ET_set "category" k c0) el)
    | None =>
        Raise (RuntimeError (AddSubElementError (tag el) (warning_markup v)))
    end.
Proof.
  cbn [first_value first_key mbind result_bind]. unfold add_sub_element.
  change ("<" +:+ "warning" +:+ ">" +:+ str v +:+ "</" +:+ "warning" +:+ ">")
    with (warning_markup v).
  destruct (ET_fromstring (warning_markup v)); [|done].
  cbn [mbind result_bind]. by rewrite on_last_append.
Qed.

Lemma warnings_loop pairs : ∀ el,
  match add_warning_elements el (YList (map (fun kv => YDict [kv]) pairs)) with
  | Ok el' =>
      ∃ cs, Forall2 is_warning_of pairs cs ∧ el' = append_all cs el
  | Raise e =>
      ∃ kv, In kv pairs
            ∧ ET_fromstring (warning_markup kv.2) = None
            ∧ e = RuntimeError
                    (AddSubElementError (tag el) (warning_markup kv.2))
  end.
Proof.
  unfold add_warning_elements. cbn [iter mbind result_bind].
  induction pairs as [|[k v] pairs IH]; intros el.
  - exists []. by rewrite append_all_nil.
  - cbn [map for_each]. rewrite warning_round.
    destruct (ET_fromstring (warning_markup v)) as [c0|] eqn:Hparse.
    + cbn [mbind result_bind].
      specialize (IH (ET_append (ET_set "category" k c0) el)).
      destruct (for_each _ _ _) as [el'|e].
      * destruct IH as (cs & Hcs & ->).
        exists (ET_set "category" k c0 :: cs). split.
        -- constructor; [by exists c0|done].
        -- by rewrite append_all_cons.
      * destruct IH as (kv & Hin & Hnone & ->).
        exists kv. rewrite tag_append. by repeat split; [right|..].
    + exists (k, v). by repeat split; [left|..].
Qed.

(** X14. The parser accepts the warnings of a value, a group or a rule
    when each of them has length one. If they are mappings, each is then
    a single pair, and rendering them appends one warning element per
    pair, in order and with repeated categories kept: the element parsed
    from the text of the pair, with the key as its category. The only
    way the rendering fails is a text that does not parse, with the
    error of [add_sub_element]. Without the assumption the check is not
    enough: a text of one character passes it, and rendering it fails on
    the missing method. *)
Theorem checked_warnings_render :
  ∀ ws,
    check_warnings (YList ws) = Ok tt →
    Forall is_mapping ws →
    ∃ pairs,
      ws = map (fun kv => YDict [kv]) pairs
      ∧ (∀ el,
           match add_warning_elements el (YList ws) with
           | Ok el' =>
               ∃ cs, Forall2 is_warning_of pairs cs ∧ el' = append_all cs el
           | Raise e =>
               ∃ kv, In kv pairs
                     ∧ ET_fromstring (warning_markup kv.2) = None
                     ∧ e = RuntimeError
                             (AddSubElementError (tag el)
                                (warning_markup kv.2))
           end)
      ∧ check_warnings (YList [YStr "x"]) = Ok tt
      ∧ (∀ el, add_warning_elements el (YList [YStr "x"])
               = Raise AttributeError).
Proof.
  intros ws Hcheck Hmaps.
  destruct (checked_mappings ws Hcheck Hmaps) as [pairs ->].
  exists pairs. split; [done|]. split; [apply warnings_loop|]. done.
Qed.

End warnings.

Lemma checked_warnings_render_witness :
  ∃ pairs,
    [YDict [(YStr "general", YStr "first")];
     YDict [(YStr "general", YStr "second")]]
    = map (fun kv => YDict [kv]) pairs
    ∧ add_warning_elements (E := Demo.externals) (ET_Element "Rule")
        (YList [YDict [(YStr "general", YStr "first")];
                YDict [(YStr "general", YStr "second")]])
      = Ok (Element "Rule" [] None
              [Element "warning" [("category", YStr "general")]
                 (Some (YStr "first")) [];
               Element "warning" [("category", YStr "general")]
                 (Some (YStr "second")) []]).
Proof.
  destruct (@checked_warnings_render Demo.externals
              [YDict [(YStr "general", YStr "first")];
               YDict [(YStr "general", YStr "second")]])
    as (pairs & Hpairs & _).
  - vm_compute. reflexivity.
  - repeat constructor.
  - exists pairs. split; [exact Hpairs|]. vm_compute. reflexivity.
Defined.

(** ** The layout of a rendered tree *)

Lemma platform_loop cpes : ∀ root,
  fold_left (fun root idref =>
      on_last (ET_set "idref" (YStr idref)) (ET_SubElement "platform" root))
    cpes root
  = append_all (platform_elements cpes) root.
Proof.
  induction cpes as [|idref cpes IH]; intros root; simpl.
  - by rewrite append_all_nil.
  - by rewrite IH, on_last_SubElement, append_all_cons.
Qed.

Section tree.
Context {E : Externals}.

Lemma profiles_loop ps : ∀ root root',
  for_each (fun root profile =>
      match profile with
      | Some profile =>
          e ← Profile_to_xml_element profile; Ok (ET_append e root)
      | None => Ok root
      end) root ps = Ok root' →
  ∃ es, rendered Profile_to_xml_element (loaded_profiles ps) es
        ∧ root' = append_all es root.
Proof.
  induction ps as [|[p|] ps IH]; intros root root'; cbn [for_each].
  - intros [= <-]. exists []. split; [constructor|by rewrite append_all_nil].
  - intros Hl. inv_ok Hl. apply result_bind_Ok in Ha as (e & He & [= <-]).
    destruct (IH _ _ Hl) as (es & Hes & ->).
    exists (e :: es). split; [by constructor|by rewrite append_all_cons].
  - cbn [mbind result_bind]. apply IH.
Qed.



End tree.


